(** * Libra Reader: chunking, search, highlight restoration and caches

    A shallow embedding of the text-indexing and annotation-persistence
    layer of the reader (EpubReader.tsx, bookMetadata.ts,
    SummaryCacheManager.ts) and the properties proved about it.

    Conventions.
    - A JavaScript string is a [string]; one [ascii] stands for one code
      unit, so the model covers the code units below 256.
    - Array indices and counters are [nat]; character offsets, which the
      code obtains by subtraction, and timestamps in milliseconds are [Z].
    - [localStorage] is a [gmap string string].
    - Exceptions are explicit: a step that may throw returns [Res], code
      over [localStorage] runs in the monad [M], and every try/catch of
      the source is a [try_catch].
    - The browser, the JSON texts and the renderer are parameters: the
      classes [Platform] and [Rendition]. *)

From Stdlib Require Import ZArith QArith Lia Ascii Sorted.
From stdpp Require Import gmap strings list pretty.
From Ceres Require Ceres.

Local Open Scope Z_scope.
Local Open Scope nat_scope.

(* ===================================================================== *)
(** * JavaScript strings *)
(* ===================================================================== *)

Module JsString.

(** White space as [String.prototype.trim] and the regular-expression
    class [\s] see it (both use the same set): tab, line feed, vertical
    tab, form feed, carriage return, space and no-break space are the
    members below 256. *)
Definition is_ws (c : ascii) : bool :=
  match c with
  | "009" | "010" | "011" | "012" | "013" | " " | "160" => true
  | _ => false
  end%char.

Definition is_nl (c : ascii) : bool := Ascii.eqb c "010"%char.

(** [s.trimStart()] *)
Fixpoint trimStart (s : string) : string :=
  match s with
  | "" => ""
  | String c r => if is_ws c then trimStart r else s
  end.

(** [s.trimEnd()] *)
Fixpoint trimEnd (s : string) : string :=
  match s with
  | "" => ""
  | String c r =>
      match trimEnd r with
      | "" => if is_ws c then "" else String c ""
      | r' => String c r'
      end
  end.

(** [s.trim()] *)
Definition trim (s : string) : string := trimEnd (trimStart s).

(** [s.slice(n)] for [0 <= n] *)
Fixpoint drop (n : nat) (s : string) : string :=
  match n, s with
  | 0, _ => s
  | S _, "" => ""
  | S k, String _ r => drop k r
  end.

(** [s.slice(0, n)] *)
Fixpoint take (n : nat) (s : string) : string :=
  match n, s with
  | 0, _ => ""
  | S _, "" => ""
  | S k, String c r => String c (take k r)
  end.

(** [s.slice(-n)]: the last [n] code units, the whole string when it is
    shorter. [-0] is [0] in JavaScript, so [s.slice(-0)] is [s]. *)
Definition slice_last (n : nat) (s : string) : string :=
  match n with
  | 0 => s
  | _ => drop (String.length s - n) s
  end.

(** [s.slice(a, b)] for [0 <= a], [0 <= b] *)
Definition slice (a b : nat) (s : string) : string :=
  take (b - a) (drop a s).

(** [t.startsWith(s)] *)
Definition startsWith (s t : string) : bool := String.prefix s t.

(** [t.includes(s)] *)
Fixpoint includes (s t : string) : bool :=
  String.prefix s t ||
  match t with
  | "" => false
  | String _ r => includes s r
  end.

(** [toLowerCase] on one code unit below 256: A-Z and the accented
    capitals 192-222 (without the multiplication sign 215) move by 32. *)
Definition lower_char (c : ascii) : ascii :=
  let n := nat_of_ascii c in
  if ((65 <=? n) && (n <=? 90))
     || ((192 <=? n) && (n <=? 222) && negb (n =? 215))
  then ascii_of_nat (n + 32) else c.

Fixpoint toLowerCase (s : string) : string :=
  match s with
  | "" => ""
  | String c r => String (lower_char c) (toLowerCase r)
  end.

(** [s] is the start of [t]; [s] is the end of [t]. *)
Definition is_prefix (s t : string) : Prop := exists r, t = s +:+ r.
Definition is_suffix (s t : string) : Prop := exists r, t = r +:+ s.

(** ** Splitting on [/\n\s*\n/]

    A separator starts at a line feed. [\s*] is greedy and [\s] contains
    the line feed, so the separator runs to the last line feed of the
    white-space run that follows. [sep_len r] is the number of code units
    of [r] (the TextChunk.text after the first line feed) the separator takes, if
    there is a second line feed in the run. *)
Fixpoint sep_len (r : string) : option nat :=
  match r with
  | "" => None
  | String c r' =>
      if is_ws c then
        match sep_len r' with
        | Some n => Some (S n)
        | None => if is_nl c then Some 1 else None
        end
      else None
  end.

Definition cons_head (c : ascii) (ps : list string) : list string :=
  match ps with
  | [] => [String c ""]
  | p :: ps' => String c p :: ps'
  end.

(** [split_go skip s]: the pieces of [s], the first [skip] code units
    belonging to a separator already found. *)
Fixpoint split_go (skip : nat) (s : string) : list string :=
  match s with
  | "" => [""]
  | String c r =>
      match skip with
      | S k => split_go k r
      | 0 =>
          if is_nl c then
            match sep_len r with
            | Some n => "" :: split_go n r
            | None => cons_head c (split_go 0 r)
            end
          else cons_head c (split_go 0 r)
      end
  end.

(** [s.split(/\n\s*\n/)] *)
Definition split_paragraphs (s : string) : list string := split_go 0 s.

End JsString.

Import JsString.

(* ===================================================================== *)
(** * Data model (types/index.ts) *)
(* ===================================================================== *)

(** A [Date] is its time value in milliseconds; [None] is an Invalid
    Date. *)
Definition Date : Type := option Z.

Module TextChunk.
Record t := mk {
  id : string;
  text : string;
  href : string;
  spineIndex : nat;
  chunkIndex : nat;
  startOffset : Z;
  endOffset : Z;
  pageLocation : option string
}.
End TextChunk.
Abbreviation TextChunk := TextChunk.t.

Module SearchResult.
Record t := mk {
  cfi : string;
  excerpt : string;
  terms : list string;
  href : string;
  spineIndex : nat;
  textOffset : Z;
  (** [match.index / chunk.text.length], kept as the two integers *)
  textPosition : nat * nat;
  chunkIndex : nat
}.
End SearchResult.
Abbreviation SearchResult := SearchResult.t.

Module Note.
Record t := mk {
  id : string;
  bookId : string;
  cfiRange : string;
  content : string;
  createdAt : Date;
  updatedAt : Date
}.
End Note.
Abbreviation Note := Note.t.

Inductive Colour := yellow.

Module Highlight.
Record t := mk {
  id : string;
  bookId : string;
  cfi : string;
  text : string;
  colour : Colour;
  note : option string;
  createdAt : Date;
  updatedAt : Date
}.

(** [Partial<Highlight>]: the fields an update carries. *)
Record partial := mkPartial {
  p_id : option string;
  p_bookId : option string;
  p_cfi : option string;
  p_text : option string;
  p_colour : option Colour;
  p_note : option string;
  p_createdAt : option Date;
  p_updatedAt : option Date
}.

(** [{ ...h, ...updates, updatedAt: new Date() }] *)
Definition merged (h : t) (u : partial) (now : Z) : t :=
  {| id := default (id h) (p_id u);
     bookId := default (bookId h) (p_bookId u);
     cfi := default (cfi h) (p_cfi u);
     text := default (text h) (p_text u);
     colour := default (colour h) (p_colour u);
     note := match p_note u with Some n => Some n | None => note h end;
     createdAt := default (createdAt h) (p_createdAt u);
     updatedAt := Some now |}.
End Highlight.
Abbreviation Highlight := Highlight.t.

Module ChunkSummary.
Record t := mk {
  chunkId : string;
  spineIndex : nat;
  href : string;
  summary : string;
  createdAt : Date;
  tokenCount : option nat
}.
End ChunkSummary.
Abbreviation ChunkSummary := ChunkSummary.t.

(** [BookSummaryCache]; the [Map] keeps its entries in insertion order. *)
Module BookSummaryCache.
Record t := mk {
  bookId : string;
  chunkSummaries : list (string * ChunkSummary);
  lastUpdated : Date
}.
End BookSummaryCache.
Abbreviation BookSummaryCache := BookSummaryCache.t.

(* ===================================================================== *)
(** * ChunkBuilder (EpubReader.tsx, createChunksForSection) *)
(* ===================================================================== *)

Module ChunkBuilder.

(** The local variables of the loop. *)
Record LoopState := mkLoop {
  chunks : list TextChunk;
  currentChunk : string;
  currentOffset : Z;
  chunkIndex : nat
}.

Definition len (s : string) : Z := Z.of_nat (String.length s).

(** The object both [chunks.push] calls build. *)
Definition makeChunk (hrf : string) (spine : nat) (st : LoopState) : TextChunk :=
  {| TextChunk.id := hrf +:+ "-chunk-" +:+ pretty (chunkIndex st);
     TextChunk.text := trim (currentChunk st);
     TextChunk.href := hrf;
     TextChunk.spineIndex := spine;
     TextChunk.chunkIndex := chunkIndex st;
     TextChunk.startOffset := (currentOffset st - len (currentChunk st))%Z;
     TextChunk.endOffset := currentOffset st;
     TextChunk.pageLocation := None |}.

Section Configured.
(** [chunkSize] and [overlap] are local constants of the source (500
    and 50); the loop is written over them. *)
Variables (chunkSize overlap : nat).
Variables (hrf : string) (spine : nat).

(** One iteration of [for (const paragraph of paragraphs)]. *)
Definition step (st : LoopState) (paragraph : string) : LoopState :=
  let cur := currentChunk st in
  let st' :=
    if (chunkSize <? String.length cur + String.length paragraph)
         && (0 <? String.length cur)
    then
      {| chunks := chunks st ++ [makeChunk hrf spine st];
         currentChunk := slice_last overlap cur +:+ " " +:+ paragraph;
         currentOffset := currentOffset st;
         chunkIndex := S (chunkIndex st) |}
    else
      {| chunks := chunks st;
         currentChunk :=
           cur +:+ (if 0 <? String.length cur then " " else "") +:+ paragraph;
         currentOffset := currentOffset st;
         chunkIndex := chunkIndex st |}
  in
  {| chunks := chunks st';
     currentChunk := currentChunk st';
     currentOffset := (currentOffset st' + len paragraph + 1)%Z;
     chunkIndex := chunkIndex st' |}.

Definition initial : LoopState :=
  {| chunks := []; currentChunk := ""; currentOffset := 0%Z; chunkIndex := 0 |}.

(** The last [if]: flush the buffer when it is not blank. *)
Definition flush (st : LoopState) : list TextChunk :=
  if 0 <? String.length (trim (currentChunk st))
  then chunks st ++ [makeChunk hrf spine st]
  else chunks st.

Definition paragraphsOf (textContent : string) : list string :=
  filter (fun p => 0 < String.length (trim p)) (split_paragraphs textContent).

Definition createChunksWith (textContent : string) : list TextChunk :=
  flush (fold_left step (paragraphsOf textContent) initial).
End Configured.

(** [createChunksForSection(textContent, href, spineIndex)] *)
Definition createChunksForSection (textContent hrf : string) (spine : nat)
  : list TextChunk :=
  createChunksWith 500 50 hrf spine textContent.

End ChunkBuilder.

Import ChunkBuilder.

(** ** What the chunk sequence is expected to satisfy *)

Module ChunkSpec.





(** The chunk at position [i] carries the index [i]: the indices are
    0, 1, 2, ... without a gap. *)
Definition contiguous (cs : list TextChunk) : Prop :=
  forall i c, cs !! i = Some c -> TextChunk.chunkIndex c = i.


(** The chunks come in spine order. *)
Definition spine_ordered (cs : list TextChunk) : Prop :=
  forall i j ci cj, i <= j -> cs !! i = Some ci -> cs !! j = Some cj ->
                    TextChunk.spineIndex ci <= TextChunk.spineIndex cj.

End ChunkSpec.

Import ChunkSpec.

(* ===================================================================== *)
(** * The chunk set of a book (EpubReader.tsx, buildTextChunks) *)
(* ===================================================================== *)

Module Spine.

(** What loading one spine item gives: [spine.get] finds no section,
    [section.load] rejects, the document or its body is missing, or the
    body text is there ([textContent] and [innerText]). *)
Inductive SectionLoad :=
| SectionMissing
| LoadRejected
| NoBody
| Loaded (textContent innerText : string).

Record SpineItem := mkItem {
  href : string;
  load : SectionLoad
}.

(** [bookRef.current]: whether [book.ready] resolves, and the spine. *)
Record Book := mkBook {
  ready : bool;
  spineItems : list SpineItem
}.

End Spine.

Module ChunkSet.
Import Spine.

Definition str_empty (s : string) : bool :=
  match s with "" => true | _ => false end.

(** The file-name filter on [item.href.toLowerCase()]. *)
Definition isMetadataHref (itemHref : string) : bool :=
  let h := toLowerCase itemHref in
  includes "toc" h || includes "copyright" h || includes "titlepage" h ||
  includes "cover" h || includes "nav" h || includes "contents" h ||
  includes "frontmatter" h || includes "backmatter" h.

(** The content filter; [&&] binds tighter than [||]. *)
Definition isMetadataContent (textContent : string) : bool :=
  let contentLower := toLowerCase textContent in
  let n := String.length textContent in
  includes "table of contents" contentLower ||
  includes "translator's preface" contentLower ||
  (includes "contents" contentLower && includes "part i" contentLower) ||
  (includes "project gutenberg" contentLower && (n <? 2000)) ||
  (includes "copyright" contentLower && (n <? 1000)) ||
  (includes "contents" contentLower && includes "chapter" contentLower
     && (n <? 1500)).

(** The chunks of one spine item, [ [] ] on every [continue] and on a
    caught error. *)
Definition sectionChunks (spineIndex : nat) (item : SpineItem) : list TextChunk :=
  if isMetadataHref (href item) then []
  else
    match load item with
    | Loaded tc inner =>
        let textContent := if str_empty tc then inner else tc in
        if str_empty textContent || str_empty (trim textContent) then []
        else if String.length (trim textContent) <? 200 then []
        else if isMetadataContent textContent then []
        else createChunksForSection textContent (href item) spineIndex
    | _ => []
    end.

(** [{ ...chunk, chunkIndex: globalChunkIndex }] *)
Definition withChunkIndex (chunk : TextChunk) (globalChunkIndex : nat) : TextChunk :=
  {| TextChunk.id := TextChunk.id chunk;
     TextChunk.text := TextChunk.text chunk;
     TextChunk.href := TextChunk.href chunk;
     TextChunk.spineIndex := TextChunk.spineIndex chunk;
     TextChunk.chunkIndex := globalChunkIndex;
     TextChunk.startOffset := TextChunk.startOffset chunk;
     TextChunk.endOffset := TextChunk.endOffset chunk;
     TextChunk.pageLocation := TextChunk.pageLocation chunk |}.

(** [sectionChunks.forEach(chunk => allChunks.push(...))] *)
Definition pushAll (allChunks sectionCs : list TextChunk) : list TextChunk :=
  fold_left (fun acc chunk => acc ++ [withChunkIndex chunk (length acc)])
            sectionCs allChunks.

(** The [for] loop over the spine, from [spineIndex] on. *)
Fixpoint collect (spineIndex : nat) (items : list SpineItem)
         (allChunks : list TextChunk) : list TextChunk :=
  match items with
  | [] => allChunks
  | item :: rest =>
      collect (S spineIndex) rest
              (pushAll allChunks (sectionChunks spineIndex item))
  end.

Definition allChunksOf (b : Book) : list TextChunk :=
  collect 0 (spineItems b) [].

(** [chunk.pageLocation = pageLocation] *)
Definition withPageLocation (chunk : TextChunk) (loc : option string) : TextChunk :=
  match loc with
  | None => chunk
  | Some l =>
      {| TextChunk.id := TextChunk.id chunk;
         TextChunk.text := TextChunk.text chunk;
         TextChunk.href := TextChunk.href chunk;
         TextChunk.spineIndex := TextChunk.spineIndex chunk;
         TextChunk.chunkIndex := TextChunk.chunkIndex chunk;
         TextChunk.startOffset := TextChunk.startOffset chunk;
         TextChunk.endOffset := TextChunk.endOffset chunk;
         TextChunk.pageLocation := Some l |}
  end.

End ChunkSet.

(* ===================================================================== *)
(** * SearchEngine (EpubReader.tsx, performSearch) *)
(* ===================================================================== *)

Module Search.

(** Two code units the [i] flag identifies. *)
Definition ci_eq (a b : ascii) : bool :=
  Ascii.eqb (lower_char a) (lower_char b).

Fixpoint ci_prefix (q t : string) : bool :=
  match q, t with
  | "", _ => true
  | String _ _, "" => false
  | String a q', String b t' => ci_eq a b && ci_prefix q' t'
  end.

(** The successive [regex.exec(text)] of the escaped query with flags
    [gi]: the start of every match, left to right, each search starting
    where the previous match ended. *)
Fixpoint matchIndices (skip pos : nat) (q t : string) : list nat :=
  match t with
  | "" => []
  | String _ r =>
      match skip with
      | S k => matchIndices k (S pos) q r
      | 0 =>
          if ci_prefix q t
          then pos :: matchIndices (String.length q - 1) (S pos) q r
          else matchIndices 0 (S pos) q r
      end
  end.

Definition resultAt (searchQuery : string) (chunk : TextChunk)
           (chunkIndex index : nat) : SearchResult :=
  let txt := TextChunk.text chunk in
  let contextStart := index - 100 in
  let contextEnd := min (String.length txt) (index + String.length searchQuery + 100) in
  let globalOffset := (TextChunk.startOffset chunk + Z.of_nat index)%Z in
  {| SearchResult.cfi :=
       match TextChunk.pageLocation chunk with
       | Some (String c l) => String c l
       | _ => TextChunk.href chunk +:+ "#offset=" +:+ pretty globalOffset
       end;
     SearchResult.excerpt := trim (slice contextStart contextEnd txt);
     SearchResult.terms := [searchQuery];
     SearchResult.href := TextChunk.href chunk;
     SearchResult.spineIndex := TextChunk.spineIndex chunk;
     SearchResult.textOffset := globalOffset;
     SearchResult.textPosition := (index, String.length txt);
     SearchResult.chunkIndex := chunkIndex |}.

(** [chunks.forEach((chunk, chunkIndex) => ...)] from [chunkIndex] on. *)
Fixpoint searchFrom (chunkIndex : nat) (searchQuery : string)
         (chunks : list TextChunk) : list SearchResult :=
  match chunks with
  | [] => []
  | chunk :: rest =>
      map (resultAt searchQuery chunk chunkIndex)
          (matchIndices 0 0 searchQuery (TextChunk.text chunk))
      ++ searchFrom (S chunkIndex) searchQuery rest
  end.

Definition searchChunks (searchQuery : string) (chunks : list TextChunk)
  : list SearchResult :=
  searchFrom 0 searchQuery chunks.

End Search.

(* ===================================================================== *)
(** * Persisted records (lib/bookMetadata.ts) *)
(* ===================================================================== *)

Inductive Theme := light | dark | sepia.
Inductive Columns := one_column | two_columns.

Record ReaderSettings := mkSettings {
  fontSize : Z;
  fontFamily : string;
  theme : Theme;
  columns : Columns;
  lineHeight : Q;
  margin : Z
}.

Module PageMapping.
Record t := mk {
  chunkToPageMap : list (nat * string);
  pageToChunkMap : list (string * list nat);
  totalPages : nat;
  settings : ReaderSettings;
  createdAt : Date
}.
End PageMapping.
Abbreviation PageMapping := PageMapping.t.

Record Bookmark := mkBookmark {
  bookmark_id : string;
  bookmark_location : string;
  bookmark_label : string;
  bookmark_createdAt : Date
}.

Record SearchHistoryEntry := mkHistory {
  history_query : string;
  history_timestamp : Date;
  history_resultCount : nat
}.

Module BookMetadata.
Record t := mk {
  bookId : string;
  title : string;
  author : string;
  currentLocation : string;
  progress : Z;
  lastRead : Date;
  textChunks : list TextChunk;
  chunksLastBuilt : Date;
  pageMappings : list (string * PageMapping);
  notes : list Note;
  highlights : list Highlight;
  bookmarks : list Bookmark;
  readingTime : Z;
  sessionsCount : Z;
  averageReadingSpeed : Z;
  searchHistory : list SearchHistoryEntry;
  customSettings : option ReaderSettings;
  createdAt : Date;
  updatedAt : Date
}.

(** Assignments to the fields the manager writes; the others are kept. *)
Definition amend (m : t) (loc : string) (prog : Z) (read : Date)
           (chunks : list TextChunk) (built : Date)
           (pms : list (string * PageMapping))
           (ns : list Note) (hs : list Highlight) (upd : Date) : t :=
  mk (bookId m) (title m) (author m) loc prog read chunks built pms ns hs
     (bookmarks m) (readingTime m) (sessionsCount m) (averageReadingSpeed m)
     (searchHistory m) (customSettings m) (createdAt m) upd.

Definition set_textChunks (m : t) (chunks : list TextChunk) (built : Date) : t :=
  amend m (currentLocation m) (progress m) (lastRead m) chunks built
        (pageMappings m) (notes m) (highlights m) (updatedAt m).
Definition set_pageMappings (m : t) (pms : list (string * PageMapping)) : t :=
  amend m (currentLocation m) (progress m) (lastRead m) (textChunks m)
        (chunksLastBuilt m) pms (notes m) (highlights m) (updatedAt m).
Definition set_highlights (m : t) (hs : list Highlight) : t :=
  amend m (currentLocation m) (progress m) (lastRead m) (textChunks m)
        (chunksLastBuilt m) (pageMappings m) (notes m) hs (updatedAt m).
Definition set_updatedAt (m : t) (upd : Date) : t :=
  amend m (currentLocation m) (progress m) (lastRead m) (textChunks m)
        (chunksLastBuilt m) (pageMappings m) (notes m) (highlights m) upd.
End BookMetadata.
Abbreviation BookMetadata := BookMetadata.t.

(* ===================================================================== *)
(** * Exceptions, [localStorage] and the platform *)
(* ===================================================================== *)

(** The outcome of a step that may throw. *)
Inductive Res (A : Type) : Type :=
| Ok (a : A)
| Throw.
Arguments Ok {A} a.
Arguments Throw {A}.

(** What [JSON.parse(cacheData)] gives [loadSummaryCache] and
    [cleanupOldCaches]: [parsed.bookId], [new Date(parsed.lastUpdated)] and
    the entries of [parsed.chunkSummaries] as the rebuilding loop reads
    them, each with its revived [createdAt]; [Throw] for the entries when
    that loop throws. *)
Record ParsedCache := mkParsed {
  parsed_bookId : string;
  parsed_lastUpdated : Date;
  parsed_chunkSummaries : Res (list (string * ChunkSummary))
}.

(** The browser and the JSON texts, as far as the two managers use them.
    The managers are written in TypeScript over the declared record types;
    the platform says which stored texts hold such records. *)
Class Platform := {
  (** [localStorage.setItem] succeeds when the storage it would leave is
      within the quota; otherwise it throws and stores nothing. *)
  quotaAllows : gmap string string -> bool;
  (** [JSON.parse(stored)] followed by the revival loop of
      [getAllMetadata], seen at the declared type; [Throw] when the text
      is not JSON or the loop throws. *)
  parseMetadata : string -> Res (gmap string BookMetadata);
  (** [JSON.stringify(allMetadata)] *)
  stringifyMetadata : gmap string BookMetadata -> string;
  (** [JSON.parse(cacheData)] and the reading of [parsed.lastUpdated];
      [Throw] when either throws. *)
  parseCache : string -> Res ParsedCache;
  (** [JSON.stringify(serializable)] *)
  stringifyCache : BookSummaryCache -> string
}.

(** A computation over [localStorage] that may throw: the storage it
    leaves, and its value or the exception. *)
Definition M (A : Type) : Type := gmap string string -> Res A * gmap string string.

Module Js.
Definition ret {A} (a : A) : M A := fun ls => (Ok a, ls).

Definition bind {A B} (m : M A) (k : A -> M B) : M B :=
  fun ls => match m ls with
            | (Ok a, ls') => k a ls'
            | (Throw, ls') => (Throw, ls')
            end.

(** [try { body } catch (error) { handler }] *)
Definition try_catch {A} (body handler : M A) : M A :=
  fun ls => match body ls with
            | (Ok a, ls') => (Ok a, ls')
            | (Throw, ls') => handler ls'
            end.

Definition lift {A} (r : Res A) : M A := fun ls => (r, ls).

Definition getItem (key : string) : M (option string) :=
  fun ls => (Ok (ls !! key), ls).

Definition setItem `{Platform} (key value : string) : M unit :=
  fun ls => if quotaAllows (<[key := value]> ls)
            then (Ok tt, <[key := value]> ls)
            else (Throw, ls).

Definition removeItem (key : string) : M unit :=
  fun ls => (Ok tt, delete key ls).

(** A stored text that [if (!stored)] lets through. *)
Definition truthy (stored : option string) : option string :=
  match stored with
  | Some (String c r) => Some (String c r)
  | _ => None
  end.
End Js.

Notation "'let!' x ':=' m 'in' k" := (Js.bind m (fun x => k))
  (at level 10, x name, m at level 100, k at level 200).
Notation "'do!' m 'in' k" := (Js.bind m (fun _ => k))
  (at level 10, m at level 100, k at level 200).

(* ===================================================================== *)
(** * BookMetadataManager (lib/bookMetadata.ts) *)
(* ===================================================================== *)

Module BookMetadataManager.
Import Js.

Definition METADATA_KEY : string := "libra-book-metadata".

Section WithPlatform.
Context `{Platform}.

(** [getAllMetadata()] *)
Definition getAllMetadata : M (gmap string BookMetadata) :=
  try_catch
    (let! stored := getItem METADATA_KEY in
     match truthy stored with
     | None => ret ∅
     | Some text => lift (parseMetadata text)
     end)
    (ret ∅).

(** [getMetadata(bookId)] *)
Definition getMetadata (bookId : string) : M (option BookMetadata) :=
  try_catch
    (let! allMetadata := getAllMetadata in
     ret (allMetadata !! bookId))
    (ret None).

(** A revived page mapping holds [Map] objects, and [JSON.stringify]
    writes a [Map] as an empty object: only the entry being saved has
    its maps turned back into objects first. *)
Definition withoutMaps (pm : PageMapping) : PageMapping :=
  {| PageMapping.chunkToPageMap := [];
     PageMapping.pageToChunkMap := [];
     PageMapping.totalPages := PageMapping.totalPages pm;
     PageMapping.settings := PageMapping.settings pm;
     PageMapping.createdAt := PageMapping.createdAt pm |}.

(** The other entries as [JSON.stringify] will write them. *)
Definition asStringified (m : BookMetadata) : BookMetadata :=
  BookMetadata.set_pageMappings m
    (map (fun kv => (fst kv, withoutMaps (snd kv))) (BookMetadata.pageMappings m)).

(** The record map [saveMetadata] hands to [JSON.stringify]. *)
Definition savedMap (allMetadata : gmap string BookMetadata)
           (metadata : BookMetadata) (now : Z) : gmap string BookMetadata :=
  <[BookMetadata.bookId metadata := BookMetadata.set_updatedAt metadata (Some now)]>
    (asStringified <$> allMetadata).

(** [saveMetadata(metadata)] *)
Definition saveMetadata (metadata : BookMetadata) (now : Z) : M unit :=
  try_catch
    (let! allMetadata := getAllMetadata in
     setItem METADATA_KEY (stringifyMetadata (savedMap allMetadata metadata now)))
    (ret tt).

(** [createInitialMetadata(bookId, title, author)] *)
Definition createInitialMetadata (bookId title author : string) (now : Z)
  : BookMetadata :=
  BookMetadata.mk bookId title author "" 0%Z (Some now) [] (Some 0%Z) [] [] []
                  [] 0%Z 0%Z 0%Z [] None (Some now) (Some now).




(** [addHighlight(bookId, highlight)] *)
Definition addHighlight (bookId : string) (highlight : Highlight) (now : Z)
  : M unit :=
  let! metadata := getMetadata bookId in
  match metadata with
  | Some m =>
      saveMetadata
        (BookMetadata.set_highlights m (BookMetadata.highlights m ++ [highlight])) now
  | None => ret tt
  end.

(** [removeHighlight(bookId, highlightId)] *)
Definition removeHighlight (bookId highlightId : string) (now : Z) : M unit :=
  let! metadata := getMetadata bookId in
  match metadata with
  | Some m =>
      saveMetadata
        (BookMetadata.set_highlights m
           (filter (fun h => Highlight.id h <> highlightId)
                   (BookMetadata.highlights m))) now
  | None => ret tt
  end.

(** [highlights.findIndex(h => h.id === highlightId)], [None] for -1 *)
Fixpoint findIndex (highlightId : string) (hs : list Highlight) : option nat :=
  match hs with
  | [] => None
  | h :: rest =>
      if decide (Highlight.id h = highlightId) then Some 0
      else S <$> findIndex highlightId rest
  end.

(** [updateHighlight(bookId, highlightId, updates)] *)
Definition updateHighlight (bookId highlightId : string)
           (updates : Highlight.partial) (now : Z) : M unit :=
  let! metadata := getMetadata bookId in
  match metadata with
  | Some m =>
      let hs := BookMetadata.highlights m in
      match findIndex highlightId hs with
      | Some index =>
          saveMetadata
            (BookMetadata.set_highlights m
               (alter (fun h => Highlight.merged h updates now) index hs)) now
      | None => ret tt
      end
  | None => ret tt
  end.

End WithPlatform.

End BookMetadataManager.

(* ===================================================================== *)
(** * SummaryCacheManager (utils/SummaryCacheManager.ts) *)
(* ===================================================================== *)

Module SummaryCacheManager.
Import Js.

Definition CACHE_KEY_PREFIX : string := "libra_summary_cache_".
Definition MAX_CACHE_AGE_DAYS : Z := 30.
Definition msPerDay : Z := 1000 * 60 * 60 * 24.

Definition getCacheKey (bookId : string) : string := CACHE_KEY_PREFIX +:+ bookId.

(** [daysDiff > MAX_CACHE_AGE_DAYS], with
    [daysDiff = (now - lastUpdated) / msPerDay]. The quotient of the two
    integers, rounded to a double, exceeds 30 exactly when the difference
    exceeds 30 days of milliseconds; with an Invalid Date it is NaN and
    the comparison is false. *)
Definition tooOld (now : Z) (lastUpdated : Date) : bool :=
  match lastUpdated with
  | Some t => (MAX_CACHE_AGE_DAYS * msPerDay <? now - t)%Z
  | None => false
  end.

(** [map.set(key, value)] on a [Map] held in insertion order. *)
Fixpoint map_set (key : string) (value : ChunkSummary)
         (m : list (string * ChunkSummary)) : list (string * ChunkSummary) :=
  match m with
  | [] => [(key, value)]
  | (k, v) :: rest =>
      if decide (k = key) then (k, value) :: rest
      else (k, v) :: map_set key value rest
  end.

(** [map.get(key)] *)
Fixpoint map_get (key : string) (m : list (string * ChunkSummary))
  : option ChunkSummary :=
  match m with
  | [] => None
  | (k, v) :: rest => if decide (k = key) then Some v else map_get key rest
  end.

(** The [Map] the loop over [parsed.chunkSummaries] builds. *)
Definition rebuilt (entries : list (string * ChunkSummary))
  : list (string * ChunkSummary) :=
  fold_left (fun m kv => map_set (fst kv) (snd kv) m) entries [].

(** [summaries.sort((a, b) => a.spineIndex - b.spineIndex)]; the sort of
    an array is stable. *)
Fixpoint insertBySpine (x : ChunkSummary) (l : list ChunkSummary) : list ChunkSummary :=
  match l with
  | [] => [x]
  | y :: rest =>
      if ChunkSummary.spineIndex x <=? ChunkSummary.spineIndex y
      then x :: l
      else y :: insertBySpine x rest
  end.

Definition sortBySpine (l : list ChunkSummary) : list ChunkSummary :=
  foldr insertBySpine [] l.

Section WithPlatform.
Context `{Platform}.

(** [clearSummaryCache(bookId)] *)
Definition clearSummaryCache (bookId : string) : M unit :=
  try_catch (removeItem (getCacheKey bookId)) (ret tt).

(** [loadSummaryCache(bookId)] *)
Definition loadSummaryCache (bookId : string) (now : Z)
  : M (option BookSummaryCache) :=
  try_catch
    (let! cacheData := getItem (getCacheKey bookId) in
     match truthy cacheData with
     | None => ret None
     | Some text =>
         let! parsed := lift (parseCache text) in
         if tooOld now (parsed_lastUpdated parsed) then
           do! clearSummaryCache bookId in
           ret None
         else
           let! entries := lift (parsed_chunkSummaries parsed) in
           ret (Some {| BookSummaryCache.bookId := parsed_bookId parsed;
                        BookSummaryCache.chunkSummaries := rebuilt entries;
                        BookSummaryCache.lastUpdated := parsed_lastUpdated parsed |})
     end)
    (ret None).

(** Whether [cleanupOldCaches] puts [key] on [keysToRemove]. *)
Definition swept (now : Z) (key value : string) : bool :=
  startsWith CACHE_KEY_PREFIX key &&
  match truthy (Some value) with
  | None => false
  | Some text =>
      match parseCache text with
      | Ok parsed => tooOld now (parsed_lastUpdated parsed)
      | Throw => true
      end
  end.

(** [cleanupOldCaches()] *)
Definition cleanupOldCaches (now : Z) : M unit :=
  try_catch
    (fun ls => (Ok tt, filter (fun kv => swept now (fst kv) (snd kv) = false) ls))
    (ret tt).

(** [saveSummaryCache(cache)] *)
Definition saveSummaryCache (cache : BookSummaryCache) (now : Z) : M unit :=
  try_catch
    (setItem (getCacheKey (BookSummaryCache.bookId cache)) (stringifyCache cache))
    (cleanupOldCaches now).

(** [getCachedSummary(bookId, chunkId)] *)
Definition getCachedSummary (bookId chunkId : string) (now : Z)
  : M (option ChunkSummary) :=
  let! cache := loadSummaryCache bookId now in
  match cache with
  | None => ret None
  | Some c => ret (map_get chunkId (BookSummaryCache.chunkSummaries c))
  end.

(** [cacheSummary(bookId, chunkSummary)] *)
Definition cacheSummary (bookId : string) (chunkSummary : ChunkSummary) (now : Z)
  : M unit :=
  let! loaded := loadSummaryCache bookId now in
  let cache :=
    match loaded with
    | Some c => c
    | None => {| BookSummaryCache.bookId := bookId;
                 BookSummaryCache.chunkSummaries := [];
                 BookSummaryCache.lastUpdated := Some now |}
    end in
  saveSummaryCache
    {| BookSummaryCache.bookId := BookSummaryCache.bookId cache;
       BookSummaryCache.chunkSummaries :=
         map_set (ChunkSummary.chunkId chunkSummary) chunkSummary
                 (BookSummaryCache.chunkSummaries cache);
       BookSummaryCache.lastUpdated := Some now |}
    now.

(** [getCachedSummariesUpTo(bookId, maxSpineIndex)] *)
Definition getCachedSummariesUpTo (bookId : string) (maxSpineIndex : nat) (now : Z)
  : M (list ChunkSummary) :=
  let! cache := loadSummaryCache bookId now in
  match cache with
  | None => ret []
  | Some c =>
      ret (sortBySpine
             (filter (fun x => ChunkSummary.spineIndex x <= maxSpineIndex)
                     (map snd (BookSummaryCache.chunkSummaries c))))
  end.

(** [isChunkSummarized(bookId, chunkId)] *)
Definition isChunkSummarized (bookId chunkId : string) (now : Z) : M bool :=
  let! found := getCachedSummary bookId chunkId now in
  ret (bool_decide (is_Some found)).
End WithPlatform.

End SummaryCacheManager.

(* ===================================================================== *)
(** * The renderer's overlays *)
(* ===================================================================== *)

Module Annotations.

(** One entry of [rendition.annotations._annotations], with the three
    things the reader looks at: [annotation.type], [annotation.cfiRange]
    and [annotation.data.highlightId] ([None] without data or id). *)
Record Annotation := mk {
  type : string;
  cfiRange : string;
  highlightId : option string
}.

(** The renderer, an external collaborator, as far as the reader relies
    on it. *)
Class Rendition := {
  (** the key of [_annotations] under which [add(type, cfiRange, ...)]
      files the overlay *)
  annotationKey : string -> string -> string;
  (** [add] throws on a range it cannot take, and then files nothing *)
  acceptsRange : string -> bool;
  (** the location index can be generated *)
  locationsReady : bool;
  (** the page location resolved for the chunk at an index
      ([generateCfiForChunk], [locationFromCfi], [cfiFromLocation]),
      [None] when any of the three gives nothing or throws *)
  pageOf : nat -> TextChunk -> option string
}.

Section WithRendition.
Context `{Rendition}.

(** [annotations.add('highlight', cfiRange, style, null, null,
    { highlightId })] *)
Definition add (ty range : string) (hid : option string)
           (A : gmap string Annotation) : Res (gmap string Annotation) :=
  if acceptsRange range
  then Ok (<[annotationKey ty range := mk ty range hid]> A)
  else Throw.

(** [annotations.remove(key)] *)
Definition remove (key : string) (A : gmap string Annotation)
  : gmap string Annotation :=
  delete key A.
End WithRendition.

(** [Object.keys(_annotations).some(key => ... data.highlightId === id)] *)
Definition taggedWith (hid : string) (A : gmap string Annotation) : Prop :=
  map_Exists (fun _ a => highlightId a = Some hid) A.

(** [Object.keys(_annotations).some(key => ... cfiRange === cfi &&
    type === 'highlight')] *)
Definition highlightAt (range : string) (A : gmap string Annotation) : Prop :=
  map_Exists (fun _ a => cfiRange a = range /\ type a = "highlight") A.

(** Removing every key that starts with [search-highlight-]. *)
Definition withoutSearchKeys (A : gmap string Annotation) : gmap string Annotation :=
  filter (fun kv => startsWith "search-highlight-" (fst kv) = false) A.

(** Removing every overlay whose data carries the id. *)
Definition withoutTag (hid : string) (A : gmap string Annotation)
  : gmap string Annotation :=
  filter (fun kv => highlightId (snd kv) <> Some hid) A.

End Annotations.

Export Annotations (Annotation, Rendition).

(* ===================================================================== *)
(** * The reader component (EpubReader.tsx) *)
(* ===================================================================== *)

Module Reader.
Import Annotations.

(** The mutable things of one mounted reader: the refs, the React state,
    the renderer's overlay table (absent while [renditionRef.current] is
    null) and [localStorage]. *)
Record t := mk {
  book_id : string;
  bookRef : option Spine.Book;
  annotations : option (gmap string Annotation);
  highlightsRef : list Highlight;
  highlights : list Highlight;
  searchResults : list SearchResult;
  textChunks : list TextChunk;
  searchQuery : string;
  localStorage : gmap string string
}.

Definition set_annotations (r : t) (A : option (gmap string Annotation)) : t :=
  mk (book_id r) (bookRef r) A (highlightsRef r) (highlights r)
     (searchResults r) (textChunks r) (searchQuery r) (localStorage r).
Definition set_highlights (r : t) (hs : list Highlight) : t :=
  mk (book_id r) (bookRef r) (annotations r) hs hs
     (searchResults r) (textChunks r) (searchQuery r) (localStorage r).
Definition set_searchResults (r : t) (rs : list SearchResult) : t :=
  mk (book_id r) (bookRef r) (annotations r) (highlightsRef r) (highlights r)
     rs (textChunks r) (searchQuery r) (localStorage r).
Definition set_textChunks (r : t) (cs : list TextChunk) : t :=
  mk (book_id r) (bookRef r) (annotations r) (highlightsRef r) (highlights r)
     (searchResults r) cs (searchQuery r) (localStorage r).
Definition set_localStorage (r : t) (ls : gmap string string) : t :=
  mk (book_id r) (bookRef r) (annotations r) (highlightsRef r) (highlights r)
     (searchResults r) (textChunks r) (searchQuery r) ls.

(** [cfi.split('!')[0]] *)
Fixpoint chapterOf (cfi : string) : string :=
  match cfi with
  | "" => ""
  | String c r => if Ascii.eqb c "!"%char then "" else String c (chapterOf r)
  end.

Section WithCollaborators.
Context `{Platform} `{Rendition}.

(** *** Highlights *)

(** The handler of the renderer's [selected] event. *)
Definition onSelected (cfiRange selection : string) (now : Z) (r : t) : t :=
  if ChunkSet.str_empty (trim selection) then r
  else
    let highlight :=
      {| Highlight.id := pretty now;
         Highlight.bookId := book_id r;
         Highlight.cfi := cfiRange;
         Highlight.text := trim selection;
         Highlight.colour := yellow;
         Highlight.note := None;
         Highlight.createdAt := Some now;
         Highlight.updatedAt := Some now |} in
    let A :=
      match annotations r with
      | Some A =>
          match add "highlight" cfiRange (Some (Highlight.id highlight)) A with
          | Ok A' => Some A'
          | Throw => Some A
          end
      | None => None
      end in
    let ls := snd (BookMetadataManager.addHighlight (book_id r) highlight now
                     (localStorage r)) in
    set_highlights (set_localStorage (set_annotations r A) ls)
                   (highlights r ++ [highlight]).

(** [deleteHighlight(highlightId)], up to the refresh it asks the
    renderer for. *)
Definition deleteHighlight (highlightId : string) (now : Z) (r : t) : t :=
  let A := withoutTag highlightId <$> annotations r in
  let ls := snd (BookMetadataManager.removeHighlight (book_id r) highlightId now
                   (localStorage r)) in
  set_highlights (set_localStorage (set_annotations r A) ls)
                 (filter (fun h => Highlight.id h <> highlightId) (highlights r)).

(** One turn of the restoring loop. *)
Definition restoreOne (A : gmap string Annotation) (highlight : Highlight)
  : gmap string Annotation :=
  if decide (taggedWith (Highlight.id highlight) A
             \/ highlightAt (Highlight.cfi highlight) A)
  then A
  else
    match add "highlight" (Highlight.cfi highlight)
              (Some (Highlight.id highlight)) A with
    | Ok A' => A'
    | Throw => A
    end.

(** The highlights of the chapter shown. *)
Definition currentPageHighlights (startCfi : string) (hs : list Highlight)
  : list Highlight :=
  filter (fun h => chapterOf (Highlight.cfi h) = chapterOf startCfi) hs.

(** [restoreHighlightsOnCurrentPage()]; [currentLocation] is the
    [start.cfi] the renderer reports, [None] when it reports no
    location. *)
Definition restoreHighlightsOnCurrentPage (currentLocation : option string)
           (r : t) : t :=
  match annotations r, highlightsRef r, currentLocation with
  | None, _, _ => r
  | _, [], _ => r
  | _, _, None => r
  | Some A, hs, Some startCfi =>
      match currentPageHighlights startCfi hs with
      | [] => r
      | page => set_annotations r (Some (fold_left restoreOne page (withoutSearchKeys A)))
      end
  end.

(** *** Chunks and search *)


(** [mapChunksToPages(chunks)] *)
Definition mapChunksToPages (chunks : list TextChunk) (r : t) : t :=
  match annotations r with
  | None => r
  | Some _ =>
      if locationsReady
      then set_textChunks r
             (imap (fun i c => ChunkSet.withPageLocation c (pageOf i c)) chunks)
      else r
  end.

(** [buildTextChunks()] *)
Definition buildTextChunks (r : t) : t :=
  match bookRef r with
  | None => r
  | Some b =>
      if negb (Spine.ready b) then r
      else
        match Spine.spineItems b with
        | [] => r
        | _ =>
            let allChunks := ChunkSet.allChunksOf b in
            mapChunksToPages allChunks (set_textChunks r allChunks)
        end
  end.

(** The overlay part of [clearSearchHighlights()]. *)
Definition clearSearchHighlights (r : t) : t :=
  set_annotations r (withoutSearchKeys <$> annotations r).

(** [performSearch()], run from the render [r]. [textChunks] is a
    constant of that render: [setTextChunks] asks for a new render and
    does not change it, so the second [chunks = textChunks] reads the
    same array as the first. *)
Definition performSearch (r : t) : t :=
  if ChunkSet.str_empty (trim (searchQuery r)) || bool_decide (bookRef r = None)
  then r
  else
    let r1 := clearSearchHighlights (set_searchResults r []) in
    let chunks := textChunks r in
    let r2 := if length chunks =? 0 then buildTextChunks r1 else r1 in
    let chunks' := if length chunks =? 0 then textChunks r else chunks in
    set_searchResults r2 (Search.searchChunks (searchQuery r) chunks').

(** What the search is meant to do: as [performSearch], but the chunks
    searched after a build are the chunks that build stored. *)
Definition performSearch_spec (r : t) : t :=
  if ChunkSet.str_empty (trim (searchQuery r)) || bool_decide (bookRef r = None)
  then r
  else
    let r1 := clearSearchHighlights (set_searchResults r []) in
    let chunks := textChunks r in
    let r2 := if length chunks =? 0 then buildTextChunks r1 else r1 in
    let chunks' := if length chunks =? 0 then textChunks r2 else chunks in
    set_searchResults r2 (Search.searchChunks (searchQuery r) chunks').

(** *** The events of a session that touch the overlays *)

Inductive Event :=
| Selected (cfiRange selection : string) (now : Z)
| Deleted (highlightId : string) (now : Z)
| Shown (currentLocation : option string).

Definition react (r : t) (e : Event) : t :=
  match e with
  | Selected cfiRange selection now => onSelected cfiRange selection now r
  | Deleted highlightId now => deleteHighlight highlightId now r
  | Shown currentLocation => restoreHighlightsOnCurrentPage currentLocation r
  end.
End WithCollaborators.

End Reader.

(** ** What the overlay table is expected to satisfy *)

Module OverlaySpec.
Import Annotations.

(** What the reader relies on in the keys of the renderer: highlights on
    different ranges are filed under different keys, and none of those
    keys is one of the [search-highlight-] keys. *)
Class RenditionLaws `{Rendition} : Prop := {
  highlight_key_inj :
    forall c c', annotationKey "highlight" c = annotationKey "highlight" c' -> c = c';
  highlight_key_not_search :
    forall c, startsWith "search-highlight-" (annotationKey "highlight" c) = false
}.

(** At most one overlay carries a given highlight id. *)
Definition unique_tags (A : gmap string Annotation) : Prop :=
  forall k1 k2 a1 a2 hid,
    A !! k1 = Some a1 -> A !! k2 = Some a2 ->
    highlightId a1 = Some hid -> highlightId a2 = Some hid -> k1 = k2.

(** Under the key of the highlight on a range lies nothing but a
    highlight on that range. *)
Definition keyed `{Rendition} (A : gmap string Annotation) : Prop :=
  forall k a c,
    A !! k = Some a -> k = annotationKey "highlight" c ->
    type a = "highlight" /\ cfiRange a = c.

(** No overlay is filed under a [search-highlight-] key. *)
Definition no_search_keys (A : gmap string Annotation) : Prop :=
  forall k a, A !! k = Some a -> startsWith "search-highlight-" k = false.

(** The restoring loop has nothing to add for the highlight: an overlay
    carries its id, or a highlight lies on its range, or the renderer
    does not take its range. *)
Definition settled `{Rendition} (A : gmap string Annotation) (h : Highlight) : Prop :=
  taggedWith (Highlight.id h) A \/ highlightAt (Highlight.cfi h) A
  \/ acceptsRange (Highlight.cfi h) = false.

(** The same, lifted to a reader that may have no renderer yet. *)
Definition on_table (P : gmap string Annotation -> Prop) (r : Reader.t) : Prop :=
  forall A, Reader.annotations r = Some A -> P A.

(** No overlay carries the id. *)
Definition untagged (hid : string) (A : gmap string Annotation) : Prop :=
  forall k a, A !! k = Some a -> highlightId a <> Some hid.

(** A selection brings an id that no overlay carries yet: ids are the
    clock readings at the selections. *)
Definition fresh (r : Reader.t) (e : Reader.Event) : Prop :=
  match e with
  | Reader.Selected _ _ now => on_table (untagged (pretty now)) r
  | _ => True
  end.

End OverlaySpec.

Import OverlaySpec.

(** ** What the two stores hold *)

Module StoreSpec.
Import Js BookMetadataManager SummaryCacheManager.

Section WithPlatform.
Context `{Platform}.

(** The records a storage holds under [METADATA_KEY]: none when the
    item is missing or empty, or when its text cannot be read. *)
Definition storedMetadata (ls : gmap string string) : gmap string BookMetadata :=
  match truthy (ls !! METADATA_KEY) with
  | None => ∅
  | Some text =>
      match parseMetadata text with
      | Ok m => m
      | Throw => ∅
      end
  end.

(** The storage after [setItem(key, text)], accepted or refused. *)
Definition written (key text : string) (ls : gmap string string)
  : gmap string string :=
  if quotaAllows (<[key := text]> ls) then <[key := text]> ls else ls.

(** The summary cache a storage holds for a book at a time, and the
    storage the look-up leaves. *)
Definition storedCache (bookId : string) (now : Z) (ls : gmap string string)
  : option BookSummaryCache * gmap string string :=
  match truthy (ls !! getCacheKey bookId) with
  | None => (None, ls)
  | Some text =>
      match parseCache text with
      | Throw => (None, ls)
      | Ok parsed =>
          if tooOld now (parsed_lastUpdated parsed)
          then (None, delete (getCacheKey bookId) ls)
          else
            match parsed_chunkSummaries parsed with
            | Throw => (None, ls)
            | Ok entries =>
                (Some {| BookSummaryCache.bookId := parsed_bookId parsed;
                         BookSummaryCache.chunkSummaries := rebuilt entries;
                         BookSummaryCache.lastUpdated := parsed_lastUpdated parsed |},
                 ls)
            end
      end
  end.

(** The storage after [cleanupOldCaches()]. *)
Definition sweptStorage (now : Z) (ls : gmap string string) : gmap string string :=
  filter (fun kv => swept now (fst kv) (snd kv) = false) ls.

(** The text written for a cache is not empty and reads back as that
    cache. *)
Definition reads_back (cache : BookSummaryCache) : Prop :=
  stringifyCache cache <> ""
  /\ parseCache (stringifyCache cache)
     = Ok (mkParsed (BookSummaryCache.bookId cache)
                    (BookSummaryCache.lastUpdated cache)
                    (Ok (BookSummaryCache.chunkSummaries cache))).

(** The text written for the records is not empty and reads back as
    those records. *)
Definition metadata_reads_back (allMetadata : gmap string BookMetadata) : Prop :=
  stringifyMetadata allMetadata <> ""
  /\ parseMetadata (stringifyMetadata allMetadata) = Ok allMetadata.

(** The expiry as the specification words it: an entry is absent once
    it is older than the limit, by its own [createdAt]. *)
Definition entry_expires (bookId chunkId : string) (now : Z)
           (ls : gmap string string) : Prop :=
  forall found created,
    fst (getCachedSummary bookId chunkId now ls) = Ok (Some found) ->
    ChunkSummary.createdAt found = Some created ->
    (now - created <= MAX_CACHE_AGE_DAYS * msPerDay)%Z.

(** The cache [cacheSummary] hands to [saveSummaryCache]. *)
Definition cacheToSave (bookId : string) (chunkSummary : ChunkSummary) (now : Z)
           (ls : gmap string string) : BookSummaryCache :=
  let cache :=
    match fst (storedCache bookId now ls) with
    | Some c => c
    | None => {| BookSummaryCache.bookId := bookId;
                 BookSummaryCache.chunkSummaries := [];
                 BookSummaryCache.lastUpdated := Some now |}
    end in
  {| BookSummaryCache.bookId := BookSummaryCache.bookId cache;
     BookSummaryCache.chunkSummaries :=
       map_set (ChunkSummary.chunkId chunkSummary) chunkSummary
               (BookSummaryCache.chunkSummaries cache);
     BookSummaryCache.lastUpdated := Some now |}.

(** [saveSummaryCache] as the specification words it: after the sweep
    the write is tried once more, and dropped if it fails again. *)
Definition saveSummaryCache_spec (cache : BookSummaryCache) (now : Z) : M unit :=
  let write :=
    setItem (getCacheKey (BookSummaryCache.bookId cache)) (stringifyCache cache) in
  try_catch write
            (let! _ := cleanupOldCaches now in try_catch write (ret tt)).
End WithPlatform.

End StoreSpec.

Import StoreSpec.

(* ===================================================================== *)
(** * A platform and a renderer for the examples *)
(* ===================================================================== *)

(** The examples run on a small platform: records are stored as
    S-expressions (printed and parsed by Ceres) instead of JSON, the quota
    is a number of code units, and the renderer files an overlay under its
    type followed by its range. *)
Module Demo.
Import Ceres.Ceres.

Definition via {A B} (f : A -> B) `{Deserialize A} : Deserialize B :=
  fun l e => match _from_sexp l e with
             | inl err => inl err
             | inr a => inr (f a)
             end.

#[local] Instance Serialize_ChunkSummary : Serialize ChunkSummary :=
  fun x => to_sexp (ChunkSummary.chunkId x, ChunkSummary.spineIndex x,
                    ChunkSummary.href x, ChunkSummary.summary x,
                    ChunkSummary.createdAt x, ChunkSummary.tokenCount x).
#[local] Instance Deserialize_ChunkSummary : Deserialize ChunkSummary :=
  via (fun '(a, b, c, d, e, f) => ChunkSummary.mk a b c d e f).

#[local] Instance Serialize_TextChunk : Serialize TextChunk :=
  fun x => to_sexp (TextChunk.id x, TextChunk.text x, TextChunk.href x,
                    TextChunk.spineIndex x, TextChunk.chunkIndex x,
                    TextChunk.startOffset x, TextChunk.endOffset x,
                    TextChunk.pageLocation x).
#[local] Instance Deserialize_TextChunk : Deserialize TextChunk :=
  via (fun '(a, b, c, d, e, f, g, h) => TextChunk.mk a b c d e f g h).

#[local] Instance Serialize_Note : Serialize Note :=
  fun x => to_sexp (Note.id x, Note.bookId x, Note.cfiRange x, Note.content x,
                    Note.createdAt x, Note.updatedAt x).
#[local] Instance Deserialize_Note : Deserialize Note :=
  via (fun '(a, b, c, d, e, f) => Note.mk a b c d e f).

#[local] Instance Serialize_Highlight : Serialize Highlight :=
  fun x => to_sexp (Highlight.id x, Highlight.bookId x, Highlight.cfi x,
                    Highlight.text x, Highlight.note x,
                    Highlight.createdAt x, Highlight.updatedAt x).
#[local] Instance Deserialize_Highlight : Deserialize Highlight :=
  via (fun '(a, b, c, d, e, f, g) => Highlight.mk a b c d yellow e f g).

Definition theme_code (t : Theme) : nat :=
  match t with light => 0 | dark => 1 | sepia => 2 end.
Definition theme_of (n : nat) : Theme :=
  match n with 0 => light | 1 => dark | _ => sepia end.

#[local] Instance Serialize_ReaderSettings : Serialize ReaderSettings :=
  fun x => to_sexp (fontSize x, fontFamily x, theme_code (theme x),
                    match columns x with one_column => false | two_columns => true end,
                    (Qnum (lineHeight x), Z.pos (Qden (lineHeight x))), margin x).
#[local] Instance Deserialize_ReaderSettings : Deserialize ReaderSettings :=
  via (fun '(a, b, c, d, (n, m), f) =>
         mkSettings a b (theme_of c) (if d : bool then two_columns else one_column)
                    (Qmake n (Z.to_pos m)) f).

#[local] Instance Serialize_PageMapping : Serialize PageMapping :=
  fun x => to_sexp (PageMapping.chunkToPageMap x, PageMapping.pageToChunkMap x,
                    PageMapping.totalPages x, PageMapping.settings x,
                    PageMapping.createdAt x).
#[local] Instance Deserialize_PageMapping : Deserialize PageMapping :=
  via (fun '(a, b, c, d, e) => PageMapping.mk a b c d e).

#[local] Instance Serialize_Bookmark : Serialize Bookmark :=
  fun x => to_sexp (bookmark_id x, bookmark_location x, bookmark_label x,
                    bookmark_createdAt x).
#[local] Instance Deserialize_Bookmark : Deserialize Bookmark :=
  via (fun '(a, b, c, d) => mkBookmark a b c d).

#[local] Instance Serialize_History : Serialize SearchHistoryEntry :=
  fun x => to_sexp (history_query x, history_timestamp x, history_resultCount x).
#[local] Instance Deserialize_History : Deserialize SearchHistoryEntry :=
  via (fun '(a, b, c) => mkHistory a b c).

#[local] Instance Serialize_BookMetadata : Serialize BookMetadata :=
  fun x => to_sexp
    ((BookMetadata.bookId x, BookMetadata.title x, BookMetadata.author x,
      BookMetadata.currentLocation x, BookMetadata.progress x,
      BookMetadata.lastRead x),
     (BookMetadata.textChunks x, BookMetadata.chunksLastBuilt x,
      BookMetadata.pageMappings x, BookMetadata.notes x,
      BookMetadata.highlights x, BookMetadata.bookmarks x),
     (BookMetadata.readingTime x, BookMetadata.sessionsCount x,
      BookMetadata.averageReadingSpeed x, BookMetadata.searchHistory x,
      BookMetadata.customSettings x, BookMetadata.createdAt x,
      BookMetadata.updatedAt x)).
#[local] Instance Deserialize_BookMetadata : Deserialize BookMetadata :=
  via (fun '((a, b, c, d, e, f), (g, h, i, j, k, l), (m, n, o, p, q, r, t)) =>
         BookMetadata.mk a b c d e f g h i j k l m n o p q r t).

Definition size_of (ls : gmap string string) : nat :=
  map_fold (fun k v n => String.length k + String.length v + n) 0 ls.

(** The platform with a quota of [capacity] code units. *)
Definition platform (capacity : nat) : Platform :=
  {| quotaAllows := fun ls => size_of ls <=? capacity;
     parseMetadata := fun text =>
       match (from_string text : error + list (string * BookMetadata)) with
       | inr entries => Ok (list_to_map entries)
       | inl _ => Throw
       end;
     stringifyMetadata := fun m =>
       to_string (map_to_list m : list (string * BookMetadata));
     parseCache := fun text =>
       match (from_string text
              : error + (string * list (string * ChunkSummary) * Date)) with
       | inr (b, entries, updated) => Ok (mkParsed b updated (Ok entries))
       | inl _ => Throw
       end;
     stringifyCache := fun c =>
       to_string (BookSummaryCache.bookId c, BookSummaryCache.chunkSummaries c,
                  BookSummaryCache.lastUpdated c) |}.

Definition rendition : Rendition :=
  {| Annotations.annotationKey := fun ty range => ty +:+ range;
     Annotations.acceptsRange := fun _ => true;
     Annotations.locationsReady := true;
     Annotations.pageOf := fun _ _ => None |}.

Fixpoint repeated (n : nat) (s : string) : string :=
  match n with
  | 0 => ""
  | S k => s +:+ repeated k s
  end.

Definition blank_line : string := String "010" (String "010" "").

(** A book of one chapter, 340 code units long. *)
Definition chapter1 : string := repeated 20 "Call me Ishmael. ".

Definition book1 : Spine.Book :=
  {| Spine.ready := true;
     Spine.spineItems :=
       [ {| Spine.href := "chapter1.xhtml";
            Spine.load := Spine.Loaded chapter1 "" |} ] |}.

(** A section of three paragraphs of 300 code units. *)
Definition long_section : string :=
  repeated 100 "abc" +:+ blank_line +:+ repeated 100 "def" +:+ blank_line +:+
  repeated 100 "ghi".

Definition day : Z := SummaryCacheManager.msPerDay.

Definition summary1 : ChunkSummary :=
  {| ChunkSummary.chunkId := "1700000000000_spine_0";
     ChunkSummary.spineIndex := 0;
     ChunkSummary.href := "chapter1.xhtml";
     ChunkSummary.summary := "Ishmael introduces himself.";
     ChunkSummary.createdAt := Some 0%Z;
     ChunkSummary.tokenCount := Some 85 |}.

Definition summary2 : ChunkSummary :=
  {| ChunkSummary.chunkId := "1700000000000_spine_1";
     ChunkSummary.spineIndex := 1;
     ChunkSummary.href := "chapter2.xhtml";
     ChunkSummary.summary := "He looks for a bed in New Bedford.";
     ChunkSummary.createdAt := Some (20 * day)%Z;
     ChunkSummary.tokenCount := Some 120 |}.

Definition highlight1 : Highlight :=
  {| Highlight.id := "1700000000001";
     Highlight.bookId := "1700000000000";
     Highlight.cfi := "epubcfi(/6/4!/4/2,/1:0,/1:15)";
     Highlight.text := "Call me Ishmael";
     Highlight.colour := yellow;
     Highlight.note := None;
     Highlight.createdAt := Some 1700000000001%Z;
     Highlight.updatedAt := Some 1700000000001%Z |}.

Definition highlight2 : Highlight :=
  {| Highlight.id := "1700000000002";
     Highlight.bookId := "1700000000000";
     Highlight.cfi := "epubcfi(/6/4!/4/4,/1:0,/1:8)";
     Highlight.text := "Ishmael.";
     Highlight.colour := yellow;
     Highlight.note := None;
     Highlight.createdAt := Some 1700000000002%Z;
     Highlight.updatedAt := Some 1700000000002%Z |}.

(** A summary of another book, cached long ago. *)
Definition summary0 : ChunkSummary :=
  {| ChunkSummary.chunkId := "1600000000000_spine_0";
     ChunkSummary.spineIndex := 0;
     ChunkSummary.href := "part1.xhtml";
     ChunkSummary.summary := "A whale is sighted off Nantucket.";
     ChunkSummary.createdAt := Some 0%Z;
     ChunkSummary.tokenCount := Some 90 |}.

(** The reader just mounted on [book1], the user having typed a query. *)
Definition reader1 (query : string) : Reader.t :=
  {| Reader.book_id := "1700000000000";
     Reader.bookRef := Some book1;
     Reader.annotations := Some ∅;
     Reader.highlightsRef := [];
     Reader.highlights := [];
     Reader.searchResults := [];
     Reader.textChunks := [];
     Reader.searchQuery := query;
     Reader.localStorage := ∅ |}.

(** The same reader with two highlights of the chapter in memory. *)
Definition reader2 : Reader.t :=
  Reader.set_highlights (reader1 "") [highlight1; highlight2].

(** A place in the chapter of the two highlights. *)
Definition place : option string := Some "epubcfi(/6/4!/4/2/1:0)".

(** The storage once the record of the book has been created. *)
Definition storage1 : gmap string string :=
  snd (@BookMetadataManager.saveMetadata (platform 1000)
         (BookMetadataManager.createInitialMetadata
            "1700000000000" "Moby-Dick" "Herman Melville" 1700000000000)
         1700000000000 ∅).

(** The reader after the user has selected "Call me Ishmael". *)
Definition reader3 : Reader.t :=
  @Reader.onSelected (platform 1000) rendition
    "epubcfi(/6/4!/4/2,/1:0,/1:15)" "Call me Ishmael" 1700000000001
    (Reader.set_localStorage (reader1 "") storage1).

(** The record of the book that [reader3] finds stored. *)
Definition record3 : BookMetadata :=
  BookMetadata.set_updatedAt
    (BookMetadata.set_highlights
       (BookMetadataManager.createInitialMetadata
          "1700000000000" "Moby-Dick" "Herman Melville" 1700000000000)
       [highlight1])
    (Some 1700000000001%Z).

(** Two summaries cached twenty days apart. *)
Definition storage2 : gmap string string :=
  snd (@SummaryCacheManager.cacheSummary (platform 1000)
         "1700000000000" summary2 (20 * day)
         (snd (@SummaryCacheManager.cacheSummary (platform 1000)
                 "1700000000000" summary1 0 ∅))).

(** A storage of 300 code units holding the old cache of another book. *)
Definition storage3 : gmap string string :=
  snd (@SummaryCacheManager.cacheSummary (platform 300)
         "1600000000000" summary0 0 ∅).

(** The cache of the open book to be saved forty days later. *)
Definition cache1 : BookSummaryCache :=
  {| BookSummaryCache.bookId := "1700000000000";
     BookSummaryCache.chunkSummaries := [("1700000000000_spine_0", summary1)];
     BookSummaryCache.lastUpdated := Some (40 * day)%Z |}.


(** [{ note: "opening" }] *)
Definition updates1 : Highlight.partial :=
  Highlight.mkPartial None None None None None (Some "opening") None None.


End Demo.

(* ===================================================================== *)
(** * Further notions used by the properties of the chunks *)
(* ===================================================================== *)

Module ChunkFacts.

(** Nothing but white space. *)
Fixpoint blank (s : string) : bool :=
  match s with
  | "" => true
  | String c r => is_ws c && blank r
  end.

(** Free of line feeds. *)
Fixpoint one_line (s : string) : bool :=
  match s with
  | "" => true
  | String c r => negb (is_nl c) && one_line r
  end.





(** A chunk text that is not empty and has no white space at its ends. *)
Definition inked_text (c : TextChunk) : Prop :=
  TextChunk.text c <> "" /\ trim (TextChunk.text c) = TextChunk.text c.

(** What the loop keeps true of the names it gives. *)
Definition named (hrf : string) (spine : nat) (cs : list TextChunk) : Prop :=
  forall i c, cs !! i = Some c ->
              TextChunk.chunkIndex c = i
              /\ TextChunk.id c = hrf +:+ "-chunk-" +:+ pretty i
              /\ TextChunk.href c = hrf
              /\ TextChunk.spineIndex c = spine
              /\ TextChunk.pageLocation c = None.

(** What a chunk keeps from the section it was cut from: everything but
    the index in the chunk set and the page location, which are given
    later. *)
Definition stem (c : TextChunk) : string * string * string * nat * Z * Z :=
  (TextChunk.id c, TextChunk.text c, TextChunk.href c, TextChunk.spineIndex c,
   TextChunk.startOffset c, TextChunk.endOffset c).

(** The text of a loaded section that [buildTextChunks] looks at:
    [doc.body.textContent || doc.body.innerText || ''] *)
Definition bodyText (tc inner : string) : string :=
  if ChunkSet.str_empty tc then inner else tc.

(** Where a chunk of the chunk set comes from: the spine item at its
    spine index, which passed both filters and was long enough, and one
    of the chunks cut from the text of that item. *)
Definition sourced (items : list Spine.SpineItem) (c : TextChunk) : Prop :=
  exists item tc inner c0,
    items !! TextChunk.spineIndex c = Some item
    /\ Spine.load item = Spine.Loaded tc inner
    /\ ChunkSet.isMetadataHref (Spine.href item) = false
    /\ 200 <= String.length (trim (bodyText tc inner))
    /\ ChunkSet.isMetadataContent (bodyText tc inner) = false
    /\ c0 ∈ createChunksForSection (bodyText tc inner) (Spine.href item)
                                   (TextChunk.spineIndex c)
    /\ stem c = stem c0.

(** [s] lies within [t]. *)
Definition within (s t : string) : Prop := exists a b, t = a +:+ s +:+ b.

(** What the loop keeps true of a paragraph it has taken: a chunk pushed
    holds it, trimmed, or the running buffer holds it. *)
Definition covered (st : LoopState) (p : string) : Prop :=
  (exists c, c ∈ chunks st /\ within (trim p) (TextChunk.text c))
  \/ within p (currentChunk st).

(** The offset the loop has reached after the paragraphs [ps]: each
    paragraph counts for its length and one more. *)
Definition offsetAfter (ps : list string) : Z :=
  foldr (fun p n => (len p + 1 + n)%Z) 0%Z ps.

End ChunkFacts.

Import ChunkFacts.

(* ===================================================================== *)
(** * Going to a search result (EpubReader.tsx, goToSearchResult) *)
(* ===================================================================== *)

Module Navigation.

(** [s.split(sep)] for a separator that is not empty; the first [skip]
    code units belong to a separator already found. *)
Fixpoint split_on (sep : string) (skip : nat) (s : string) : list string :=
  match s with
  | "" => [""]
  | String c r =>
      match skip with
      | S k => split_on sep k r
      | 0 =>
          if String.prefix sep s
          then "" :: split_on sep (String.length sep - 1) r
          else cons_head c (split_on sep 0 r)
      end
  end.

Definition split (sep s : string) : list string := split_on sep 0 s.









End Navigation.

(* ===================================================================== *)
(** * Deleting a record; loading a book into the reader *)
(* ===================================================================== *)

Module Housekeeping.
Import Js BookMetadataManager.

Section WithPlatform.
Context `{Platform}.


(** The effect that loads the saved data of the book when the reader
    mounts (EpubReader.tsx, [useEffect] on [book.id]): get the record or
    create and save it, then show its highlights. [created] and [saved]
    are the clock readings of [createInitialMetadata] and of
    [saveMetadata]. *)
Definition loadBookData (title author : string) (created saved : Z)
           (r : Reader.t) : Reader.t :=
  match getMetadata (Reader.book_id r) (Reader.localStorage r) with
  | (Ok (Some metadata), ls) =>
      Reader.set_highlights (Reader.set_localStorage r ls)
                            (BookMetadata.highlights metadata)
  | (Ok None, ls) =>
      let metadata := createInitialMetadata (Reader.book_id r) title author created in
      Reader.set_highlights
        (Reader.set_localStorage r (snd (saveMetadata metadata saved ls)))
        (BookMetadata.highlights metadata)
  | (Throw, ls) => Reader.set_localStorage r ls
  end.
End WithPlatform.

(** The storage after a mutator that found the record to save, or found
    nothing to do. *)
Definition storedAfter `{Platform} (ls : gmap string string)
           (toSave : option BookMetadata) (now : Z) : gmap string string :=
  match toSave with
  | Some m =>
      StoreSpec.written METADATA_KEY
        (stringifyMetadata (savedMap (StoreSpec.storedMetadata ls) m now)) ls
  | None => ls
  end.


(** The highlight the [selected] handler makes of a selection. *)
Definition selectedHighlight (r : Reader.t) (cfiRange selection : string) (now : Z)
  : Highlight :=
  {| Highlight.id := pretty now;
     Highlight.bookId := Reader.book_id r;
     Highlight.cfi := cfiRange;
     Highlight.text := trim selection;
     Highlight.colour := yellow;
     Highlight.note := None;
     Highlight.createdAt := Some now;
     Highlight.updatedAt := Some now |}.

End Housekeeping.

(* ===================================================================== *)
(** * More sample data *)
(* ===================================================================== *)

Module Sample.

(** A section text of white space only. *)
Definition blank_section : string := "  " +:+ Demo.blank_line +:+ "   " +:+ Demo.blank_line.

(** A text that names Ishmael twice. *)
Definition twice : string := "Call me Ishmael. Call me Ishmael.".

(** A chunk without a page location. *)
Definition chunk1 : TextChunk :=
  {| TextChunk.id := "chapter1.xhtml-chunk-0";
     TextChunk.text := twice;
     TextChunk.href := "chapter1.xhtml";
     TextChunk.spineIndex := 0;
     TextChunk.chunkIndex := 0;
     TextChunk.startOffset := 1;
     TextChunk.endOffset := 34;
     TextChunk.pageLocation := None |}.


(** The reader mounted on the storage that holds the record of the book. *)
Definition reader5 : Reader.t :=
  Reader.set_localStorage (Demo.reader1 "") Demo.storage1.

(** The record of the book that [Demo.storage1] holds. *)
Definition record1 : BookMetadata :=
  BookMetadata.set_updatedAt
    (BookMetadataManager.createInitialMetadata
       "1700000000000" "Moby-Dick" "Herman Melville" 1700000000000)
    (Some 1700000000000%Z).


(** The storage after the first summary of the book has been cached. *)
Definition storage5 : gmap string string :=
  snd (@SummaryCacheManager.cacheSummary (Demo.platform 1000)
         "1700000000000" Demo.summary1 0 ∅).

(** The text of the cache in that storage, and what it parses to. *)
Definition text5 : string :=
  default "" (storage5 !! SummaryCacheManager.getCacheKey "1700000000000").

Definition parsed5 : ParsedCache :=
  mkParsed "1700000000000" (Some 0%Z)
           (Ok [(ChunkSummary.chunkId Demo.summary1, Demo.summary1)]).

End Sample.

(* ===================================================================== *)
(** * Properties *)
(* ===================================================================== *)

(** ** Strings *)

Section StringFacts.
Implicit Types (s t r : string) (c : ascii).

Lemma app_cons c s t : String c s +:+ t = String c (s +:+ t).
Proof. reflexivity. Qed.

Lemma app_empty_r s : s +:+ "" = s.
Proof. induction s as [|c s IH]; [done|]. by rewrite app_cons, IH. Qed.

Lemma app_assoc_str s t r : (s +:+ t) +:+ r = s +:+ (t +:+ r).
Proof. induction s as [|c s IH]; [done|]. by rewrite !app_cons, IH. Qed.

Lemma length_app_str s t :
  String.length (s +:+ t) = String.length s + String.length t.
Proof. induction s as [|c s IH]; [done|]. rewrite app_cons. simpl. by rewrite IH. Qed.

Lemma is_prefix_empty s : is_prefix "" s.
Proof. by exists s. Qed.



Lemma is_prefix_cons c s t : is_prefix s t -> is_prefix (String c s) (String c t).
Proof. intros [r ->]. by exists r. Qed.



Lemma is_suffix_of_empty s : is_suffix s "" -> s = "".
Proof. intros [r H]. destruct r; [|done]. by destruct s. Qed.

(** *** [drop], [take], [slice_last] *)


Lemma length_drop_str n s : String.length (drop n s) = String.length s - n.
Proof. revert s. induction n as [|n IH]; intros [|c s]; simpl; auto with lia. Qed.


Lemma length_slice_last n s : 0 < n -> String.length (slice_last n s) <= n.
Proof. destruct n; [lia|]. intros _. simpl. rewrite length_drop_str. lia. Qed.

(** *** [trim] *)

Lemma length_trimStart s : String.length (trimStart s) <= String.length s.
Proof. induction s as [|c s IH]; simpl; [done|]. destruct (is_ws c); simpl; lia. Qed.

Lemma length_trimEnd s : String.length (trimEnd s) <= String.length s.
Proof.
  induction s as [|c s IH]; simpl; [done|].
  destruct (trimEnd s); [destruct (is_ws c)|]; simpl in *; lia.
Qed.

Lemma length_trim s : String.length (trim s) <= String.length s.
Proof.
  unfold trim. etrans; [apply length_trimEnd | apply length_trimStart].
Qed.


(** Trimming the end of a longer text keeps what was kept of its start. *)
Lemma trimEnd_app_prefix s t : is_prefix (trimEnd s) (trimEnd (s +:+ t)).
Proof.
  induction s as [|c s IH]; [apply is_prefix_empty|].
  rewrite app_cons. simpl. destruct IH as [r Hr]. rewrite Hr.
  destruct (trimEnd s) as [|d s'].
  - simpl. destruct (is_ws c); [apply is_prefix_empty|].
    destruct r; [by exists ""|]. apply is_prefix_cons, is_prefix_empty.
  - rewrite app_cons. apply is_prefix_cons. by exists r.
Qed.




End StringFacts.

(** ** The overlap between consecutive chunks *)

Section Overlap.
Variables (chunkSize overlap : nat) (hrf : string) (spine : nat).
Hypothesis overlap_pos : 0 < overlap.








End Overlap.


(** ** The global chunk indices *)

Section GlobalIndices.
Import ChunkSet.

Lemma contiguous_snoc cs c :
  contiguous cs -> contiguous (cs ++ [withChunkIndex c (length cs)]).
Proof.
  intros Hcs i x Hx.
  destruct (decide (i < length cs)) as [Hlt|Hge].
  - rewrite lookup_app_l in Hx by done. by apply Hcs.
  - rewrite lookup_app_r in Hx by lia.
    destruct (i - length cs) as [|k] eqn:Hk; simpl in Hx; [|by rewrite lookup_nil in Hx].
    inversion Hx; subst x. simpl. lia.
Qed.

Lemma pushAll_contiguous sectionCs allChunks :
  contiguous allChunks -> contiguous (pushAll allChunks sectionCs).
Proof.
  revert allChunks. induction sectionCs as [|c cs IH]; intros allChunks Hc; [done|].
  apply IH, contiguous_snoc, Hc.
Qed.

Lemma collect_contiguous items n allChunks :
  contiguous allChunks -> contiguous (collect n items allChunks).
Proof.
  revert n allChunks. induction items as [|item items IH]; intros n allChunks Hc; [done|].
  apply IH, pushAll_contiguous, Hc.
Qed.

(** Every chunk of a section carries the spine index it was built for. *)
Lemma fold_step_spine chunkSize overlap hrf spine ps st :
  Forall (fun c => TextChunk.spineIndex c = spine) (chunks st) ->
  Forall (fun c => TextChunk.spineIndex c = spine)
         (chunks (fold_left (step chunkSize overlap hrf spine) ps st)).
Proof.
  revert st. induction ps as [|p ps IH]; intros st Hst; [done|].
  apply IH. unfold step. destruct (_ && _); simpl; [|done].
  apply Forall_app. split; [done|]. by constructor.
Qed.

Lemma createChunksForSection_spine textContent hrf spine :
  Forall (fun c => TextChunk.spineIndex c = spine)
         (createChunksForSection textContent hrf spine).
Proof.
  unfold createChunksForSection, createChunksWith, flush.
  pose proof (fold_step_spine 500 50 hrf spine (paragraphsOf textContent) initial
                (Forall_nil_2 _)) as Hf.
  destruct (0 <? _); [|done].
  apply Forall_app. split; [done|]. by constructor.
Qed.

Lemma sectionChunks_spine n item :
  Forall (fun c => TextChunk.spineIndex c = n) (sectionChunks n item).
Proof.
  unfold sectionChunks.
  destruct (isMetadataHref _); [constructor|].
  destruct (Spine.load item) as [| | |tc inner]; try constructor.
  destruct (_ || _); [constructor|].
  destruct (_ <? 200); [constructor|].
  destruct (isMetadataContent _); [constructor|].
  apply createChunksForSection_spine.
Qed.

Lemma spine_ordered_snoc cs x :
  spine_ordered cs ->
  Forall (fun c => TextChunk.spineIndex c <= TextChunk.spineIndex x) cs ->
  spine_ordered (cs ++ [x]).
Proof.
  intros Hcs Hle i j ci cj Hij Hi Hj.
  destruct (decide (j < length cs)) as [Hlt|Hge].
  - rewrite lookup_app_l in Hi by lia. rewrite lookup_app_l in Hj by lia. eauto.
  - rewrite lookup_app_r in Hj by lia.
    destruct (j - length cs) as [|k] eqn:Hk; simpl in Hj; [|by rewrite lookup_nil in Hj].
    inversion Hj; subst cj.
    destruct (decide (i < length cs)) as [Hil|Hig].
    + rewrite lookup_app_l in Hi by lia.
      rewrite Forall_forall in Hle. apply Hle. by eapply list_elem_of_lookup_2.
    + rewrite lookup_app_r in Hi by lia.
      destruct (i - length cs) as [|k'] eqn:Hk'; simpl in Hi; [|by rewrite lookup_nil in Hi].
      by inversion Hi.
Qed.

Lemma pushAll_ordered n sectionCs allChunks :
  Forall (fun c => TextChunk.spineIndex c = n) sectionCs ->
  Forall (fun c => TextChunk.spineIndex c <= n) allChunks ->
  spine_ordered allChunks ->
  Forall (fun c => TextChunk.spineIndex c <= n) (pushAll allChunks sectionCs)
  /\ spine_ordered (pushAll allChunks sectionCs).
Proof.
  revert allChunks. induction sectionCs as [|c cs IH]; intros allChunks Hn Hle Hs; [done|].
  apply Forall_cons in Hn as [Hc Hcs]. simpl. apply IH; [done| |].
  - apply Forall_app. split; [done|]. constructor; [simpl; lia|constructor].
  - apply spine_ordered_snoc; [done|]. simpl. by rewrite Hc.
Qed.

Lemma collect_ordered items n allChunks :
  Forall (fun c => TextChunk.spineIndex c <= n) allChunks ->
  spine_ordered allChunks ->
  spine_ordered (collect n items allChunks).
Proof.
  revert n allChunks. induction items as [|item items IH]; intros n allChunks Hle Hs; [done|].
  simpl. destruct (pushAll_ordered n (sectionChunks n item) allChunks) as [Hle' Hs'];
    [apply sectionChunks_spine|done..|].
  apply IH; [|done]. eapply Forall_impl; [exact Hle'|]. simpl. lia.
Qed.

Lemma allChunksOf_contiguous b : contiguous (allChunksOf b).
Proof. apply collect_contiguous. intros i c H. by rewrite lookup_nil in H. Qed.

Lemma allChunksOf_ordered b : spine_ordered (allChunksOf b).
Proof.
  apply collect_ordered; [constructor|]. intros i j ci cj _ H. by rewrite lookup_nil in H.
Qed.

(** Attaching page locations touches neither index. *)
Lemma located_contiguous (f : nat -> TextChunk -> option string) cs :
  contiguous cs -> contiguous (imap (fun i c => withPageLocation c (f i c)) cs).
Proof.
  intros Hcs i c Hc. rewrite list_lookup_imap in Hc.
  destruct (cs !! i) as [x|] eqn:Hx; [|done]. simpl in Hc. inversion Hc; subst c.
  specialize (Hcs i x Hx). unfold withPageLocation. by destruct (f i x).
Qed.

Lemma located_ordered (f : nat -> TextChunk -> option string) cs :
  spine_ordered cs -> spine_ordered (imap (fun i c => withPageLocation c (f i c)) cs).
Proof.
  intros Hcs i j ci cj Hij Hi Hj. rewrite list_lookup_imap in Hi, Hj.
  destruct (cs !! i) as [x|] eqn:Hx; [|done].
  destruct (cs !! j) as [y|] eqn:Hy; [|done].
  simpl in Hi, Hj. inversion Hi; inversion Hj; subst.
  specialize (Hcs i j x y Hij Hx Hy).
  unfold withPageLocation. by destruct (f i x), (f j y).
Qed.
End GlobalIndices.

(** C5. After [buildTextChunks] has run for a book that is ready and has
    a spine, the chunk list it leaves carries the indices 0, 1, 2, ... in
    list order, without a gap, and the list is in spine order. *)
Theorem buildTextChunks_indices `{Rendition} (r : Reader.t) (b : Spine.Book) :
  Reader.bookRef r = Some b ->
  Spine.ready b = true ->
  Spine.spineItems b <> [] ->
  let cs := Reader.textChunks (Reader.buildTextChunks r) in
  map TextChunk.chunkIndex cs = seq 0 (length cs)
  /\ contiguous cs
  /\ spine_ordered cs.
Proof.
  intros Hb Hready Hspine cs.
  assert (contiguous cs /\ spine_ordered cs) as [Hc Ho].
  { subst cs. unfold Reader.buildTextChunks. rewrite Hb, Hready. simpl.
    destruct (Spine.spineItems b) eqn:Hitems; [done|].
    unfold Reader.mapChunksToPages. simpl.
    destruct (Reader.annotations r); simpl;
      [destruct Annotations.locationsReady; simpl|];
      auto using allChunksOf_contiguous, allChunksOf_ordered,
                 located_contiguous, located_ordered. }
  split; [|done].
  apply list_eq. intros i. rewrite list_lookup_fmap.
  destruct (cs !! i) as [c|] eqn:Hi; simpl.
  - rewrite (Hc i c Hi). symmetry. apply lookup_seq. split; [done|].
    by apply lookup_lt_Some in Hi.
  - symmetry. apply lookup_ge_None. rewrite length_seq. by apply lookup_ge_None in Hi.
Qed.

(** ** Chunk building as a function of its inputs *)

Section Purity.
Variables (chunkSize overlap : nat).


End Purity.


(** ** Searching before the chunk set is built *)

(** Whatever the build stores, a search started from a render without
    chunks looks through that render's empty chunk list. *)
Lemma performSearch_reads_render_chunks `{Platform} `{Rendition} (r : Reader.t) :
  Reader.textChunks r = [] ->
  trim (Reader.searchQuery r) <> "" ->
  Reader.bookRef r <> None ->
  Reader.searchResults (Reader.performSearch r) = [].
Proof.
  intros Hchunks Hquery Hbook. unfold Reader.performSearch.
  destruct (trim (Reader.searchQuery r)) eqn:Hq; [done|]. simpl.
  rewrite bool_decide_eq_false_2 by done. by rewrite Hchunks.
Qed.

(** C2, on the code. A reader is mounted on a book of one chapter that
    says "Call me Ishmael." twenty times; no chunks are built yet and the
    user searches for "ishmael". The search triggers the build, which
    stores one chunk holding the word, and then reports no result, where
    a search of the chunk just built finds the twenty matches. *)
Theorem performSearch_unbuilt_index :
  let r := Demo.reader1 "ishmael" in
  let after := @Reader.performSearch Demo.rendition r in
  let meant := @Reader.performSearch_spec Demo.rendition r in
  Reader.textChunks r = []
  /\ map TextChunk.text (Reader.textChunks after) = [trim Demo.chapter1]
  /\ includes "Ishmael" (trim Demo.chapter1) = true
  /\ Reader.searchResults after = []
  /\ length (Reader.searchResults meant) = 20.
Proof. vm_compute. done. Qed.

(** ** Restoring highlights *)

Section Restoration.
Import Annotations.
Context `{Rendition}.

Lemma restoreOne_settled A h : settled A h -> Reader.restoreOne A h = A.
Proof.
  intros Hs. unfold Reader.restoreOne. destruct (decide _) as [|Hn]; [done|].
  destruct Hs as [?|[?|Hacc]]; [tauto..|]. unfold add. by rewrite Hacc.
Qed.

Lemma restoreOne_settles A h : settled (Reader.restoreOne A h) h.
Proof.
  unfold Reader.restoreOne. destruct (decide _) as [[?|?]|Hn].
  - by left.
  - by right; left.
  - unfold add. destruct (acceptsRange (Highlight.cfi h)) eqn:Hacc.
    + right; left. eexists _, _. split; [apply lookup_insert_eq|done].
    + by right; right.
Qed.

(** Apart from the entry it files, a turn of the loop keeps the table. *)
Lemma restoreOne_lookup A h k a :
  Reader.restoreOne A h !! k = Some a ->
  A !! k = Some a
  \/ (k = annotationKey "highlight" (Highlight.cfi h)
      /\ a = mk "highlight" (Highlight.cfi h) (Some (Highlight.id h))
      /\ ~ taggedWith (Highlight.id h) A
      /\ ~ highlightAt (Highlight.cfi h) A).
Proof.
  unfold Reader.restoreOne. destruct (decide _) as [|Hn]; [by left|].
  unfold add. destruct (acceptsRange _); [|by left].
  intros [[<- <-]|[_ ?]]%lookup_insert_Some; [right|by left].
  repeat split; tauto.
Qed.

Lemma restoreOne_unique A h : unique_tags A -> unique_tags (Reader.restoreOne A h).
Proof.
  intros HA k1 k2 a1 a2 hid H1 H2 Hid1 Hid2.
  apply restoreOne_lookup in H1 as [H1|(-> & -> & Hnt1 & _)];
    apply restoreOne_lookup in H2 as [H2|(-> & -> & Hnt2 & _)]; simpl in *.
  - eauto.
  - inversion Hid2; subst hid. destruct Hnt2. by exists k1, a1.
  - inversion Hid1; subst hid. destruct Hnt1. by exists k2, a2.
  - done.
Qed.

Lemma restoreOne_no_search `{!RenditionLaws} A h :
  no_search_keys A -> no_search_keys (Reader.restoreOne A h).
Proof.
  intros HA k a [Hk|(-> & _)]%restoreOne_lookup; [by eapply HA|].
  apply highlight_key_not_search.
Qed.

Lemma restoreOne_keyed `{!RenditionLaws} A h :
  keyed A -> keyed (Reader.restoreOne A h).
Proof.
  intros HA k a c [Hk|(-> & -> & _)]%restoreOne_lookup Hkey; [by eapply HA|].
  apply highlight_key_inj in Hkey as <-. done.
Qed.

(** A turn of the loop for one highlight takes no overlay from another. *)
Lemma restoreOne_mono `{!RenditionLaws} A h h' :
  keyed A -> settled A h' -> settled (Reader.restoreOne A h) h'.
Proof.
  intros HA Hs. unfold Reader.restoreOne. destruct (decide _) as [|Hn]; [done|].
  unfold add. destruct (acceptsRange (Highlight.cfi h)) eqn:Hacc; [|done].
  assert (A !! annotationKey "highlight" (Highlight.cfi h) = None) as Hfree.
  { destruct (A !! _) as [a|] eqn:Ha; [|done].
    destruct (HA _ a (Highlight.cfi h) Ha eq_refl) as [Hty Hcfi].
    destruct Hn. right. by exists (annotationKey "highlight" (Highlight.cfi h)), a. }
  destruct Hs as [(k & a & Hk & Hp)|[(k & a & Hk & Hp)|Hr]].
  - left. exists k, a. split; [|done]. rewrite lookup_insert_ne; [done|]. congruence.
  - right; left. exists k, a. split; [|done]. rewrite lookup_insert_ne; [done|]. congruence.
  - by right; right.
Qed.

Lemma restore_fold_unique page A :
  unique_tags A -> unique_tags (fold_left Reader.restoreOne page A).
Proof.
  revert A. induction page as [|h page IH]; intros A HA; [done|].
  simpl. by apply IH, restoreOne_unique.
Qed.

Lemma restore_fold_inv `{!RenditionLaws} page A :
  keyed A -> no_search_keys A ->
  keyed (fold_left Reader.restoreOne page A)
  /\ no_search_keys (fold_left Reader.restoreOne page A)
  /\ (forall h, settled A h -> settled (fold_left Reader.restoreOne page A) h)
  /\ Forall (settled (fold_left Reader.restoreOne page A)) page.
Proof.
  revert A. induction page as [|h page IH]; intros A Hk Hn.
  { split; [done|]. split; [done|]. split; [done|constructor]. }
  simpl. destruct (IH (Reader.restoreOne A h)) as (Hk' & Hn' & Hmono & Hall);
    [by apply restoreOne_keyed | by apply restoreOne_no_search|].
  split; [done|]. split; [done|]. split.
  - intros h' Hh'. by apply Hmono, restoreOne_mono.
  - constructor; [|done]. apply Hmono, restoreOne_settles.
Qed.

Lemma restore_fold_settled page A :
  Forall (settled A) page -> fold_left Reader.restoreOne page A = A.
Proof.
  induction 1 as [|h page Hh Hpage IH]; [done|].
  simpl. by rewrite restoreOne_settled.
Qed.

Lemma withoutSearchKeys_lookup A k a :
  withoutSearchKeys A !! k = Some a ->
  A !! k = Some a /\ startsWith "search-highlight-" k = false.
Proof. unfold withoutSearchKeys. by intros ?%map_lookup_filter_Some. Qed.

Lemma withoutSearchKeys_id A : no_search_keys A -> withoutSearchKeys A = A.
Proof.
  intros HA. apply map_filter_id. intros k a Hk. simpl. by eapply HA.
Qed.

Lemma withoutSearchKeys_unique A : unique_tags A -> unique_tags (withoutSearchKeys A).
Proof.
  intros HA k1 k2 a1 a2 hid [H1 _]%withoutSearchKeys_lookup
         [H2 _]%withoutSearchKeys_lookup. eauto.
Qed.

Lemma withoutSearchKeys_keyed A : keyed A -> keyed (withoutSearchKeys A).
Proof. intros HA k a c [Hk _]%withoutSearchKeys_lookup. eauto. Qed.

Lemma withoutSearchKeys_no_search A : no_search_keys (withoutSearchKeys A).
Proof. by intros k a [_ ?]%withoutSearchKeys_lookup. Qed.
End Restoration.

Section OverlayInvariants.
Import Annotations.
Context `{Platform} `{Rendition}.

Lemma withoutTag_lookup hid A k a :
  withoutTag hid A !! k = Some a -> A !! k = Some a /\ highlightId a <> Some hid.
Proof. unfold withoutTag. by intros ?%map_lookup_filter_Some. Qed.




Lemma restore_unique loc r :
  on_table unique_tags r ->
  on_table unique_tags (Reader.restoreHighlightsOnCurrentPage loc r).
Proof.
  intros Hr. unfold Reader.restoreHighlightsOnCurrentPage.
  destruct (Reader.annotations r) as [A|] eqn:HA; [|done].
  destruct (Reader.highlightsRef r) as [|h hs]; [done|].
  destruct loc as [c|]; [|done].
  destruct (Reader.currentPageHighlights c (h :: hs)) as [|p page]; [done|].
  intros A' [= <-].
  apply (restore_fold_unique (p :: page)), withoutSearchKeys_unique, Hr, HA.
Qed.

Lemma restore_keyed `{!RenditionLaws} loc r :
  on_table keyed r ->
  on_table keyed (Reader.restoreHighlightsOnCurrentPage loc r).
Proof.
  intros Hr. unfold Reader.restoreHighlightsOnCurrentPage.
  destruct (Reader.annotations r) as [A|] eqn:HA; [|done].
  destruct (Reader.highlightsRef r) as [|h hs]; [done|].
  destruct loc as [c|]; [|done].
  destruct (Reader.currentPageHighlights c (h :: hs)) as [|p page]; [done|].
  intros A' [= <-].
  apply (restore_fold_inv (p :: page));
    [apply withoutSearchKeys_keyed, Hr, HA | apply withoutSearchKeys_no_search].
Qed.

Lemma delete_unique hid now r :
  on_table unique_tags r -> on_table unique_tags (Reader.deleteHighlight hid now r).
Proof.
  intros Hr A'. simpl. destruct (Reader.annotations r) as [A|] eqn:HA; [|done].
  intros [= <-] k1 k2 a1 a2 hid' [H1 _]%withoutTag_lookup [H2 _]%withoutTag_lookup.
  by eapply Hr.
Qed.

Lemma delete_keyed hid now r :
  on_table keyed r -> on_table keyed (Reader.deleteHighlight hid now r).
Proof.
  intros Hr A'. simpl. destruct (Reader.annotations r) as [A|] eqn:HA; [|done].
  intros [= <-] k a c [Hk _]%withoutTag_lookup. by eapply Hr.
Qed.

Lemma selected_table cfiRange selection now r A' :
  Reader.annotations (Reader.onSelected cfiRange selection now r) = Some A' ->
  exists A, Reader.annotations r = Some A /\
    (A' = A \/ A' = <[annotationKey "highlight" cfiRange :=
                        mk "highlight" cfiRange (Some (pretty now))]> A).
Proof.
  unfold Reader.onSelected. destruct (ChunkSet.str_empty _); [by eauto|].
  simpl. destruct (Reader.annotations r) as [A|]; [|done].
  unfold add. destruct (acceptsRange cfiRange); intros [= <-]; eauto.
Qed.

Lemma selected_unique cfiRange selection now r :
  on_table (untagged (pretty now)) r ->
  on_table unique_tags r ->
  on_table unique_tags (Reader.onSelected cfiRange selection now r).
Proof.
  intros Hfresh Hr A' (A & HA & [->| ->])%selected_table; [by apply Hr|].
  intros k1 k2 a1 a2 hid H1 H2 Hid1 Hid2.
  apply lookup_insert_Some in H1 as [[<- <-]|[_ H1]];
    apply lookup_insert_Some in H2 as [[<- <-]|[_ H2]]; simpl in *.
  - done.
  - inversion Hid1; subst hid. by destruct (Hfresh A HA k2 a2 H2).
  - inversion Hid2; subst hid. by destruct (Hfresh A HA k1 a1 H1).
  - by eapply (Hr A HA).
Qed.

Lemma selected_keyed `{!RenditionLaws} cfiRange selection now r :
  on_table keyed r -> on_table keyed (Reader.onSelected cfiRange selection now r).
Proof.
  intros Hr A' (A & HA & [->| ->])%selected_table; [by apply Hr|].
  intros k a c [[<- <-]|[_ Hk]]%lookup_insert_Some Hkey.
  - apply highlight_key_inj in Hkey as <-. done.
  - by eapply (Hr A HA).
Qed.

(** Over a whole session: as long as every selection brings a new id,
    no two overlays ever carry the same highlight id. *)
Lemma session_unique events r :
  on_table unique_tags r ->
  (forall done_ e rest, events = done_ ++ e :: rest ->
                        fresh (fold_left Reader.react done_ r) e) ->
  on_table unique_tags (fold_left Reader.react events r).
Proof.
  revert r. induction events as [|e events IH]; intros r Hr Hfresh; [done|].
  simpl. apply IH.
  - pose proof (Hfresh [] e events eq_refl) as He. destruct e; simpl in *.
    + by apply selected_unique.
    + by apply delete_unique.
    + by apply restore_unique.
  - intros done_ e' rest ->. apply (Hfresh (e :: done_) e' rest eq_refl).
Qed.

Lemma session_keyed `{!RenditionLaws} events r :
  on_table keyed r -> on_table keyed (fold_left Reader.react events r).
Proof.
  revert r. induction events as [|e events IH]; intros r Hr; [done|].
  simpl. apply IH. destruct e; simpl;
    auto using selected_keyed, delete_keyed, restore_keyed.
Qed.
End OverlayInvariants.

(** C1. Restoring twice in a row, for the same location and the same
    highlights, changes nothing the second time: every candidate is found
    settled - an overlay carries its id, or a highlight lies on its range -
    and no overlay is added. A restoring pass never gives a second
    overlay to a highlight id: a table with at most one overlay per id is
    left with at most one overlay per id. And a turn of the loop skips the
    highlight when either of the two checks finds an overlay. *)
Theorem restore_twice_adds_nothing `{Rendition} `{!RenditionLaws}
        (r : Reader.t) (loc : option string) :
  on_table keyed r ->
  let once := Reader.restoreHighlightsOnCurrentPage loc r in
  let twice := Reader.restoreHighlightsOnCurrentPage loc once in
  twice = once
  /\ (on_table unique_tags r -> on_table unique_tags once)
  /\ (forall A h,
        Annotations.taggedWith (Highlight.id h) A
        \/ Annotations.highlightAt (Highlight.cfi h) A ->
        Reader.restoreOne A h = A).
Proof.
  intros Hkeyed once twice.
  split; [|split; [apply restore_unique|]];
    [|intros A h Hskip; apply restoreOne_settled; unfold settled; tauto].
  subst once twice. unfold Reader.restoreHighlightsOnCurrentPage.
  destruct (Reader.annotations r) as [A|] eqn:HA; [|by rewrite HA].
  destruct (Reader.highlightsRef r) as [|h hs] eqn:Hhs; [by rewrite HA, Hhs|].
  destruct loc as [c|]; [|by rewrite HA, Hhs].
  destruct (Reader.currentPageHighlights c (h :: hs)) as [|p page] eqn:Hpage;
    [by rewrite HA, Hhs, Hpage|].
  cbn [Reader.annotations Reader.highlightsRef Reader.set_annotations].
  rewrite Hhs, Hpage.
  destruct (restore_fold_inv (p :: page) (Annotations.withoutSearchKeys A))
    as (_ & Hns & _ & Hall);
    [apply withoutSearchKeys_keyed, Hkeyed, HA | apply withoutSearchKeys_no_search|].
  by rewrite (withoutSearchKeys_id _ Hns), (restore_fold_settled _ _ Hall).
Qed.

(** ** The metadata store *)

Section MetadataStore.
Import Js BookMetadataManager.
Context `{Platform}.

Lemma getAllMetadata_eq ls : getAllMetadata ls = (Ok (storedMetadata ls), ls).
Proof.
  unfold getAllMetadata, storedMetadata, try_catch, bind, getItem, lift, ret.
  destruct (truthy (ls !! METADATA_KEY)); [|done].
  by destruct (parseMetadata _).
Qed.

Lemma getMetadata_eq bookId ls :
  getMetadata bookId ls = (Ok (storedMetadata ls !! bookId), ls).
Proof.
  unfold getMetadata, try_catch, bind. by rewrite getAllMetadata_eq.
Qed.

Lemma saveMetadata_eq metadata now ls :
  saveMetadata metadata now ls
  = (Ok tt, written METADATA_KEY
              (stringifyMetadata (savedMap (storedMetadata ls) metadata now)) ls).
Proof.
  unfold saveMetadata, try_catch, bind. rewrite getAllMetadata_eq.
  unfold setItem, written, ret. by destruct (quotaAllows _).
Qed.
End MetadataStore.


(** ** Deleting a highlight *)

Section Deletion.
Import Js BookMetadataManager.
Context `{Platform}.

Lemma truthy_nonempty text : text <> "" -> truthy (Some text) = Some text.
Proof. by destruct text. Qed.

Lemma storedMetadata_written allMetadata ls :
  metadata_reads_back allMetadata ->
  quotaAllows (<[METADATA_KEY := stringifyMetadata allMetadata]> ls) = true ->
  storedMetadata (written METADATA_KEY (stringifyMetadata allMetadata) ls)
  = allMetadata.
Proof.
  intros [Hne Hparse] Hquota. unfold written, storedMetadata.
  rewrite Hquota, lookup_insert_eq, truthy_nonempty by done. by rewrite Hparse.
Qed.
End Deletion.


(** ** The summary cache *)

Section SummaryCache.
Import Js SummaryCacheManager.
Context `{Platform}.

Lemma loadSummaryCache_eq bookId now ls :
  loadSummaryCache bookId now ls
  = (Ok (fst (storedCache bookId now ls)), snd (storedCache bookId now ls)).
Proof.
  unfold loadSummaryCache, storedCache, try_catch, bind, getItem, lift, ret,
    clearSummaryCache, removeItem.
  destruct (truthy (ls !! getCacheKey bookId)); [|done].
  destruct (parseCache _) as [parsed|]; [|done]. simpl.
  destruct (tooOld now _); [done|].
  by destruct (parsed_chunkSummaries parsed).
Qed.

Lemma cleanupOldCaches_eq now ls :
  cleanupOldCaches now ls = (Ok tt, sweptStorage now ls).
Proof. done. Qed.

Lemma saveSummaryCache_eq cache now ls :
  let key := getCacheKey (BookSummaryCache.bookId cache) in
  saveSummaryCache cache now ls
  = (Ok tt, if quotaAllows (<[key := stringifyCache cache]> ls)
            then <[key := stringifyCache cache]> ls
            else sweptStorage now ls).
Proof.
  simpl. unfold saveSummaryCache, try_catch, setItem.
  by destruct (quotaAllows _).
Qed.

Lemma getCachedSummary_eq bookId chunkId now ls :
  getCachedSummary bookId chunkId now ls
  = (Ok (c ← fst (storedCache bookId now ls);
         map_get chunkId (BookSummaryCache.chunkSummaries c)),
     snd (storedCache bookId now ls)).
Proof.
  unfold getCachedSummary, bind. rewrite loadSummaryCache_eq.
  by destruct (fst (storedCache bookId now ls)).
Qed.

Lemma cacheSummary_eq bookId chunkSummary now ls :
  cacheSummary bookId chunkSummary now ls
  = saveSummaryCache (cacheToSave bookId chunkSummary now ls) now
                     (snd (storedCache bookId now ls)).
Proof.
  unfold cacheSummary, bind, cacheToSave. rewrite loadSummaryCache_eq.
  by destruct (fst (storedCache bookId now ls)).
Qed.

(** *** The [Map] of a cache *)

Lemma map_get_set key value m : map_get key (map_set key value m) = Some value.
Proof.
  induction m as [|[k v] m IH]; simpl; [by rewrite decide_True|].
  destruct (decide (k = key)) as [->|Hne]; simpl.
  - by rewrite decide_True.
  - by rewrite decide_False.
Qed.

Lemma map_set_fresh key value m :
  key ∉ map fst m -> map_set key value m = m ++ [(key, value)].
Proof.
  induction m as [|[k v] m IH]; simpl; [done|]. intros Hnotin.
  apply not_elem_of_cons in Hnotin as [Hne Hnotin].
  rewrite decide_False by done. by rewrite IH.
Qed.

Lemma map_set_keys key value m :
  map fst (map_set key value m)
  = if decide (key ∈ map fst m) then map fst m else map fst m ++ [key].
Proof.
  induction m as [|[k v] m IH]; simpl; [done|].
  destruct (decide (k = key)) as [->|Hne]; simpl.
  - rewrite decide_True; [done|]. apply list_elem_of_here.
  - rewrite IH. destruct (decide (key ∈ map fst m)) as [Hin|Hnotin].
    + rewrite decide_True; [done|]. by apply list_elem_of_further.
    + rewrite decide_False; [done|].
      intros [?|?]%elem_of_cons; [congruence|done].
Qed.

Lemma map_set_NoDup key value m :
  NoDup (map fst m) -> NoDup (map fst (map_set key value m)).
Proof.
  intros Hm. rewrite map_set_keys. destruct (decide _) as [|Hnotin]; [done|].
  apply NoDup_app. split; [done|]. split; [|apply NoDup_singleton].
  intros x Hx ->%list_elem_of_singleton. done.
Qed.

Lemma fold_set_NoDup entries m :
  NoDup (map fst m) ->
  NoDup (map fst (fold_left (fun m kv => map_set (fst kv) (snd kv) m) entries m)).
Proof.
  revert m. induction entries as [|[k v] entries IH]; intros m Hm; [done|].
  simpl. by apply IH, map_set_NoDup.
Qed.

Lemma rebuilt_NoDup entries : NoDup (map fst (rebuilt entries)).
Proof. apply fold_set_NoDup. constructor. Qed.

Lemma fold_set_app entries m :
  NoDup (map fst (m ++ entries)) ->
  fold_left (fun m kv => map_set (fst kv) (snd kv) m) entries m = m ++ entries.
Proof.
  revert m. induction entries as [|[k v] entries IH]; intros m Hm.
  { by rewrite app_nil_r. }
  simpl. rewrite map_set_fresh.
  - rewrite IH; [by rewrite <-app_assoc|]. by rewrite <-app_assoc.
  - rewrite map_app in Hm. apply NoDup_app in Hm as (_ & Hdisj & _).
    intros Hin. apply (Hdisj k Hin). simpl. apply list_elem_of_here.
Qed.

(** A [Map] written out and read in again is the same [Map]. *)
Lemma rebuilt_fixed m : NoDup (map fst m) -> rebuilt m = m.
Proof. intros Hm. unfold rebuilt. by rewrite fold_set_app. Qed.

Lemma storedCache_NoDup bookId now ls c :
  fst (storedCache bookId now ls) = Some c ->
  NoDup (map fst (BookSummaryCache.chunkSummaries c)).
Proof.
  unfold storedCache. destruct (truthy _); [|done].
  destruct (parseCache _) as [parsed|]; [|done].
  destruct (tooOld _ _); [done|].
  destruct (parsed_chunkSummaries parsed); [|done].
  intros [= <-]. apply rebuilt_NoDup.
Qed.

Lemma cacheToSave_NoDup bookId chunkSummary now ls :
  NoDup (map fst (BookSummaryCache.chunkSummaries
                    (cacheToSave bookId chunkSummary now ls))).
Proof.
  unfold cacheToSave. simpl. apply map_set_NoDup.
  destruct (fst (storedCache bookId now ls)) as [c|] eqn:Hc; [|constructor].
  by eapply storedCache_NoDup.
Qed.
End SummaryCache.

(** C3, as the code has it. A look-up gives nothing when nothing is
    stored for the book, or when the stored cache has no entry for the
    chunk id; after [cacheSummary] has stored a summary - the storage
    taking the write, the text reading back - a look-up made while the
    cache was last written at most 30 days ago gives that summary; and a
    cache last written more than 30 days ago gives nothing for any chunk
    id and is removed from the storage by that look-up. The age is that
    of the book's cache, renewed by every [cacheSummary]; an entry has no
    age of its own. *)
Theorem summary_cache_lifetime `{Platform} (ls : gmap string string)
        (bookId chunkId : string) (chunkSummary : ChunkSummary) (t1 t2 : Z) :
  let key := SummaryCacheManager.getCacheKey bookId in
  let limit := (SummaryCacheManager.MAX_CACHE_AGE_DAYS * SummaryCacheManager.msPerDay)%Z in
  (ls !! key = None ->
   SummaryCacheManager.getCachedSummary bookId chunkId t2 ls = (Ok None, ls))
  /\ (forall c, storedCache bookId t2 ls = (Some c, ls) ->
        chunkId ∉ map fst (BookSummaryCache.chunkSummaries c) ->
        SummaryCacheManager.getCachedSummary bookId chunkId t2 ls = (Ok None, ls))
  /\ (let c := cacheToSave bookId chunkSummary t1 ls in
      let ls1 := snd (SummaryCacheManager.cacheSummary bookId chunkSummary t1 ls) in
      BookSummaryCache.bookId c = bookId ->
      quotaAllows (<[key := stringifyCache c]> (snd (storedCache bookId t1 ls))) = true ->
      reads_back c ->
      (t2 - t1 <= limit)%Z ->
      SummaryCacheManager.getCachedSummary
        bookId (ChunkSummary.chunkId chunkSummary) t2 ls1
      = (Ok (Some chunkSummary), ls1))
  /\ (forall text parsed t0,
        Js.truthy (ls !! key) = Some text ->
        parseCache text = Ok parsed ->
        parsed_lastUpdated parsed = Some t0 ->
        (limit < t2 - t0)%Z ->
        SummaryCacheManager.getCachedSummary bookId chunkId t2 ls
        = (Ok None, delete key ls)).
Proof.
  intros key limit. repeat split.
  - intros Hnone. rewrite getCachedSummary_eq. unfold storedCache. fold key.
    by rewrite Hnone.
  - intros c Hc Hnotin. rewrite getCachedSummary_eq, Hc. simpl. f_equal. f_equal.
    induction (BookSummaryCache.chunkSummaries c) as [|[k v] m IH]; [done|].
    simpl in *. apply not_elem_of_cons in Hnotin as [Hne Hnotin].
    rewrite decide_False by done. auto.
  - intros c ls1 Hid Hquota [Hne Hparse] Hage.
    assert (ls1 = <[key := stringifyCache c]> (snd (storedCache bookId t1 ls))) as Hls1.
    { subst ls1. rewrite cacheSummary_eq, saveSummaryCache_eq. fold c.
      rewrite Hid. fold key. by rewrite Hquota. }
    rewrite getCachedSummary_eq. unfold storedCache at 1 2. fold key.
    rewrite Hls1 at 1 2. rewrite lookup_insert_eq, truthy_nonempty, Hparse by done.
    simpl.
    replace (_ <? _)%Z with false
      by (symmetry; apply Z.ltb_ge; unfold limit in Hage; lia).
    simpl. f_equal. f_equal. rewrite rebuilt_fixed by apply cacheToSave_NoDup.
    apply map_get_set.
  - intros text parsed t0 Htext Hparse Hupdated Hage.
    rewrite getCachedSummary_eq. unfold storedCache. fold key.
    rewrite Htext, Hparse, Hupdated. simpl.
    replace (_ <? _)%Z with true by (symmetry; apply Z.ltb_lt; exact Hage).
    done.
Qed.

(** C8, as the code has it. Saving a summary cache never raises an error.
    When the storage takes the write, the cache is stored; when it refuses
    it, the sweep runs - every summary cache that is unreadable or was
    last written more than 30 days ago is removed, for all books, and
    nothing else is touched - and the write is dropped: it is not tried
    again. *)
Theorem saveSummaryCache_failure `{Platform} (cache : BookSummaryCache) (now : Z)
        (ls : gmap string string) :
  let key := SummaryCacheManager.getCacheKey (BookSummaryCache.bookId cache) in
  let text := stringifyCache cache in
  let after := snd (SummaryCacheManager.saveSummaryCache cache now ls) in
  fst (SummaryCacheManager.saveSummaryCache cache now ls) = Ok tt
  /\ (quotaAllows (<[key := text]> ls) = true -> after = <[key := text]> ls)
  /\ (quotaAllows (<[key := text]> ls) = false ->
      after = sweptStorage now ls
      /\ after !! key = (if SummaryCacheManager.swept now key <$> ls !! key is Some false
                         then ls !! key else None)
      /\ forall k v, after !! k = Some v <->
                     ls !! k = Some v /\ SummaryCacheManager.swept now k v = false).
Proof.
  intros key text after. subst after. rewrite saveSummaryCache_eq. fold key text.
  split; [done|]. split; intros Hq; rewrite Hq; [done|]. simpl.
  assert (forall k v, sweptStorage now ls !! k = Some v <->
                      ls !! k = Some v /\ SummaryCacheManager.swept now k v = false)
    as Hlookup by (intros k v; apply map_lookup_filter_Some).
  split; [done|]. split; [|done].
  destruct (ls !! key) as [v|] eqn:Hv; simpl.
  - destruct (SummaryCacheManager.swept now key v) eqn:Hs.
    + apply eq_None_not_Some. intros [v' [Hv' Hs']%Hlookup]. congruence.
    + by apply Hlookup.
  - apply eq_None_not_Some. intros [v' [Hv' _]%Hlookup]. congruence.
Qed.


(** ** The properties on the example platform *)

Section Examples.
Import Annotations.

#[local] Instance demo_laws : @RenditionLaws Demo.rendition.
Proof.
  split.
  - intros c c' Heq. by apply (inj (String.app "highlight")) in Heq.
  - intros c. reflexivity.
Qed.

Lemma keyed_empty `{Rendition} : keyed (∅ : gmap string Annotation).
Proof. intros k a c Hk. by rewrite lookup_empty in Hk. Qed.
End Examples.

(** The scenario of the specification: with [chunkSize = 20] and
    [overlap = 5] two paragraphs give two chunks, and the second starts
    with what is left of the last five code units of the first once they
    are trimmed. *)
Example scenario_two_paragraphs :
  map TextChunk.text
      (createChunksWith 20 5 "a.xhtml" 0
         ("Para one text..." +:+ Demo.blank_line +:+ "Para two text..."))
  = ["Para one text..."; "xt... Para two text..."].
Proof. reflexivity. Qed.

Example scenario_overlap_starts_with_space :
  map TextChunk.text
      (createChunksWith 20 5 "a.xhtml" 0
         ("Para one has text" +:+ Demo.blank_line +:+ "Para two text..."))
  = ["Para one has text"; "text Para two text..."].
Proof. reflexivity. Qed.

Lemma restore_twice_witness :
  let r := Demo.reader2 in
  on_table (@keyed Demo.rendition) r
  /\ (let once := @Reader.restoreHighlightsOnCurrentPage Demo.rendition Demo.place r in
      let twice := @Reader.restoreHighlightsOnCurrentPage Demo.rendition Demo.place once in
      twice = once
      /\ (on_table unique_tags r -> on_table unique_tags once)
      /\ (forall A h,
            Annotations.taggedWith (Highlight.id h) A
            \/ Annotations.highlightAt (Highlight.cfi h) A ->
            @Reader.restoreOne Demo.rendition A h = A)).
Proof.
  split.
  - intros A [= <-]. apply keyed_empty.
  - apply (@restore_twice_adds_nothing Demo.rendition demo_laws Demo.reader2 Demo.place).
    intros A [= <-]. apply keyed_empty.
Defined.


Lemma buildTextChunks_indices_witness :
  let r := Demo.reader1 "" in
  Reader.bookRef r = Some Demo.book1
  /\ Spine.ready Demo.book1 = true
  /\ Spine.spineItems Demo.book1 <> []
  /\ (let cs := Reader.textChunks (@Reader.buildTextChunks Demo.rendition r) in
      map TextChunk.chunkIndex cs = seq 0 (length cs)
      /\ contiguous cs /\ spine_ordered cs).
Proof.
  split; [reflexivity|]. split; [reflexivity|]. split; [discriminate|].
  apply (@buildTextChunks_indices Demo.rendition (Demo.reader1 "") Demo.book1);
    [reflexivity|reflexivity|discriminate].
Defined.

(** The original wording of C3 fails: the first summary was created at
    time 0, the book's cache was written again twenty days later, and a
    look-up after forty days still gives the first summary. *)
Lemma entry_outlives_ttl :
  ~ @entry_expires (Demo.platform 1000) "1700000000000" "1700000000000_spine_0"
      (40 * Demo.day) Demo.storage2.
Proof.
  intros Hclaim.
  specialize (Hclaim Demo.summary1 0%Z).
  assert (40 * Demo.day - 0 <=
          SummaryCacheManager.MAX_CACHE_AGE_DAYS * SummaryCacheManager.msPerDay)%Z as Hle
    by (apply Hclaim; vm_compute; reflexivity).
  vm_compute in Hle. by apply Hle.
Qed.

Lemma summary_cache_lifetime_witness :
  (∅ : gmap string string) !! SummaryCacheManager.getCacheKey "1700000000000" = None
  /\ @SummaryCacheManager.getCachedSummary (Demo.platform 1000)
       "1700000000000" "1700000000000_spine_0" (10 * Demo.day) ∅ = (Ok None, ∅)
  /\ @SummaryCacheManager.getCachedSummary (Demo.platform 1000)
       "1700000000000" "1700000000000_spine_7" (40 * Demo.day) Demo.storage2
     = (Ok None, Demo.storage2)
  /\ @SummaryCacheManager.getCachedSummary (Demo.platform 1000)
       "1700000000000" (ChunkSummary.chunkId Demo.summary1) (10 * Demo.day)
       (snd (@SummaryCacheManager.cacheSummary (Demo.platform 1000)
               "1700000000000" Demo.summary1 0 ∅))
     = (Ok (Some Demo.summary1),
        snd (@SummaryCacheManager.cacheSummary (Demo.platform 1000)
               "1700000000000" Demo.summary1 0 ∅))
  /\ @SummaryCacheManager.getCachedSummary (Demo.platform 1000)
       "1700000000000" "1700000000000_spine_0" (51 * Demo.day) Demo.storage2
     = (Ok None,
        delete (SummaryCacheManager.getCacheKey "1700000000000") Demo.storage2).
Proof.
  pose proof (@summary_cache_lifetime (Demo.platform 1000) ∅ "1700000000000"
                "1700000000000_spine_0" Demo.summary1 0 (10 * Demo.day)) as Hfresh.
  pose proof (@summary_cache_lifetime (Demo.platform 1000) Demo.storage2 "1700000000000"
                "1700000000000_spine_7" Demo.summary1 0 (40 * Demo.day)) as Hother.
  pose proof (@summary_cache_lifetime (Demo.platform 1000) Demo.storage2 "1700000000000"
                "1700000000000_spine_0" Demo.summary1 0 (51 * Demo.day)) as Hold.
  cbv zeta in Hfresh, Hother, Hold.
  destruct Hfresh as (Hnever & _ & Hstored & _).
  destruct Hother as (_ & Hother & _ & _).
  destruct Hold as (_ & _ & _ & Hexpired).
  assert ((∅ : gmap string string) !! SummaryCacheManager.getCacheKey "1700000000000" = None)
    as Hnone by (vm_compute; reflexivity).
  split; [exact Hnone|].
  split; [exact (Hnever Hnone)|].
  split.
  { eapply Hother; [vm_compute; reflexivity|]. vm_compute.
    intros Hin. apply list_elem_of_In in Hin. simpl in Hin.
    destruct Hin as [Hin|[Hin|[]]]; discriminate Hin. }
  split.
  - apply Hstored.
    + vm_compute; reflexivity.
    + vm_compute; reflexivity.
    + split; [vm_compute; discriminate | vm_compute; reflexivity].
    + vm_compute; discriminate.
  - eapply Hexpired.
    + vm_compute; reflexivity.
    + vm_compute; reflexivity.
    + reflexivity.
    + vm_compute; reflexivity.
Defined.


(** The wording of C8 fails on the retry: the storage of 300 code units
    holds the old cache of another book and refuses the new cache; the
    sweep then empties the storage, where the cache would fit; the code
    leaves the storage empty, while a save that tried once more would
    have stored the cache. *)
Lemma saveSummaryCache_does_not_retry :
  let P := Demo.platform 300 in
  let key := SummaryCacheManager.getCacheKey "1700000000000" in
  let text := @stringifyCache P Demo.cache1 in
  let code := @SummaryCacheManager.saveSummaryCache P Demo.cache1 (40 * Demo.day) Demo.storage3 in
  let meant := @saveSummaryCache_spec P Demo.cache1 (40 * Demo.day) Demo.storage3 in
  @quotaAllows P (<[key := text]> Demo.storage3) = false
  /\ @quotaAllows P (<[key := text]> (snd code)) = true
  /\ snd code !! key = None
  /\ snd meant !! key = Some text
  /\ code <> meant.
Proof.
  intros P key text code meant.
  split; [vm_compute; reflexivity|]. split; [vm_compute; reflexivity|].
  split; [vm_compute; reflexivity|]. split; [vm_compute; reflexivity|].
  intros Heq. apply (f_equal (fun x => snd x !! key)) in Heq.
  vm_compute in Heq. discriminate Heq.
Qed.

Lemma saveSummaryCache_failure_witness :
  fst (@SummaryCacheManager.saveSummaryCache (Demo.platform 300)
         Demo.cache1 (40 * Demo.day) Demo.storage3) = Ok tt
  /\ snd (@SummaryCacheManager.saveSummaryCache (Demo.platform 300)
            Demo.cache1 (40 * Demo.day) ∅)
     = <[SummaryCacheManager.getCacheKey (BookSummaryCache.bookId Demo.cache1)
         := @stringifyCache (Demo.platform 300) Demo.cache1]> ∅
  /\ snd (@SummaryCacheManager.saveSummaryCache (Demo.platform 300)
            Demo.cache1 (40 * Demo.day) Demo.storage3)
     = @sweptStorage (Demo.platform 300) (40 * Demo.day) Demo.storage3
  /\ @sweptStorage (Demo.platform 300) (40 * Demo.day) Demo.storage3 = ∅.
Proof.
  pose proof (@saveSummaryCache_failure (Demo.platform 300) Demo.cache1
                (40 * Demo.day) ∅) as Hroom.
  pose proof (@saveSummaryCache_failure (Demo.platform 300) Demo.cache1
                (40 * Demo.day) Demo.storage3) as Hfull.
  cbv zeta in Hroom, Hfull.
  destruct Hroom as (_ & Hstored & _).
  destruct Hfull as (Hok & _ & Hdropped).
  split; [exact Hok|].
  split; [apply Hstored; vm_compute; reflexivity|].
  destruct Hdropped as (Hswept & _); [vm_compute; reflexivity|].
  split; [exact Hswept | vm_compute; reflexivity].
Defined.



(* ===================================================================== *)
(** * Further properties *)
(* ===================================================================== *)

(** ** More on strings *)

Section MoreStringFacts.
Implicit Types (s t r : string) (c : ascii).

Lemma trimStart_blank s : blank s = true -> trimStart s = "".
Proof.
  induction s as [|c s IH]; [done|]. simpl.
  intros [Hc Hs]%andb_prop. rewrite Hc. auto.
Qed.

Lemma trim_blank s : blank s = true -> trim s = "".
Proof. intros Hs. unfold trim. by rewrite trimStart_blank. Qed.

Lemma trimEnd_empty s : trimEnd s = "" -> blank s = true.
Proof.
  induction s as [|c s IH]; [done|]. simpl.
  destruct (trimEnd s) as [|d r]; [|done].
  destruct (is_ws c); [|done]. intros _. by rewrite IH.
Qed.

Lemma trimStart_not_blank s : blank s = false -> blank (trimStart s) = false.
Proof.
  induction s as [|c s IH]; [done|]. simpl.
  destruct (is_ws c) eqn:Hc; simpl; [done|]. by rewrite Hc.
Qed.

Lemma trim_not_blank s : blank s = false -> trim s <> "".
Proof.
  intros Hs Htrim. apply trimEnd_empty in Htrim.
  by rewrite trimStart_not_blank in Htrim.
Qed.

Lemma trim_empty_iff s : trim s = "" <-> blank s = true.
Proof.
  split; [|apply trim_blank].
  intros Htrim. destruct (blank s) eqn:Hs; [done|]. by destruct (trim_not_blank s).
Qed.

Lemma blank_app s t : blank (s +:+ t) = blank s && blank t.
Proof.
  induction s as [|c s IH]; [done|]. rewrite app_cons. simpl.
  by rewrite IH, andb_assoc.
Qed.

Lemma trimEnd_idemp s : trimEnd (trimEnd s) = trimEnd s.
Proof.
  induction s as [|c s IH]; [done|]. simpl.
  destruct (trimEnd s) as [|d r] eqn:Hr.
  - destruct (is_ws c) eqn:Hc; [done|]. simpl. by rewrite Hc.
  - assert (trimEnd (String c (String d r))
            = match trimEnd (String d r) with
              | "" => if is_ws c then "" else String c ""
              | r' => String c r'
              end) as -> by done.
    by rewrite IH.
Qed.

Lemma trimStart_fixed c s : is_ws c = false -> trimStart (String c s) = String c s.
Proof. intros Hc. simpl. by rewrite Hc. Qed.

Lemma trimEnd_head c s :
  is_ws c = false -> exists r, trimEnd (String c s) = String c r.
Proof.
  intros Hc. simpl. destruct (trimEnd s); [rewrite Hc|]; eauto.
Qed.

(** A trimmed text has no white space left at either end. *)
Lemma trim_idemp s : trim (trim s) = trim s.
Proof.
  unfold trim at 2 3.
  assert (trimStart s = "" \/ exists c r, trimStart s = String c r /\ is_ws c = false)
    as [->|(c & r & -> & Hc)].
  { induction s as [|c s IH]; [by left|]. simpl.
    destruct (is_ws c) eqn:Hc; [done|]. right. eauto. }
  - done.
  - destruct (trimEnd_head c r Hc) as [r' Hr']. unfold trim.
    rewrite Hr', trimStart_fixed by done. rewrite <-Hr'. apply trimEnd_idemp.
Qed.

Lemma length_empty s : String.length s = 0 -> s = "".
Proof. by destruct s. Qed.


End MoreStringFacts.

(** ** The shape of the chunks of one section *)

Section ChunkShape.
Variables (chunkSize overlap : nat) (hrf : string) (spine : nat).



Lemma nonempty_length s : (0 <? String.length s) = true -> s <> "".
Proof. by destruct s. Qed.

Lemma empty_length s : (0 <? String.length s) = false -> s = "".
Proof. by destruct s. Qed.


Lemma not_blank_nonempty s : blank s = false -> s <> "".
Proof. by destruct s. Qed.


Lemma fold_step_inv (P : LoopState -> Prop) (Q : string -> Prop) ps st :
  (forall st p, P st -> Q p -> P (step chunkSize overlap hrf spine st p)) ->
  Forall Q ps -> P st ->
  P (fold_left (step chunkSize overlap hrf spine) ps st).
Proof.
  intros Hstep. revert st. induction ps as [|p ps IH]; intros st Hps Hst; [done|].
  apply Forall_cons in Hps as [Hp Hps]. simpl. apply IH; [done|]. by apply Hstep.
Qed.

Lemma paragraphsOf_inked t : Forall (fun p => blank p = false) (paragraphsOf t).
Proof.
  apply Forall_forall. intros p [Hp _]%list_elem_of_filter.
  destruct (blank p) eqn:Hb; [|done]. rewrite trim_blank in Hp by done. simpl in Hp. lia.
Qed.

(** *** Names *)

Lemma named_snoc cs st :
  named hrf spine cs -> chunkIndex st = length cs ->
  named hrf spine (cs ++ [makeChunk hrf spine st]).
Proof.
  intros Hcs Hidx i c Hc.
  destruct (decide (i < length cs)) as [Hlt|Hge].
  - rewrite lookup_app_l in Hc by done. eauto.
  - pose proof (lookup_lt_Some _ _ _ Hc) as Hlen. rewrite length_app in Hlen. simpl in Hlen.
    rewrite lookup_app_r in Hc by lia.
    replace (i - length cs) with 0 in Hc by lia. simpl in Hc. inversion Hc; subst c.
    simpl. rewrite Hidx. by replace (length cs) with i by lia.
Qed.

Lemma named_step st p :
  named hrf spine (chunks st) /\ chunkIndex st = length (chunks st) ->
  named hrf spine (chunks (step chunkSize overlap hrf spine st p))
  /\ chunkIndex (step chunkSize overlap hrf spine st p)
     = length (chunks (step chunkSize overlap hrf spine st p)).
Proof.
  intros [Hn Hi]. unfold step. destruct ((chunkSize <? _) && (0 <? _)); simpl.
  - split; [by apply named_snoc|]. rewrite length_app. simpl. lia.
  - done.
Qed.

Lemma createChunksWith_named t :
  named hrf spine (createChunksWith chunkSize overlap hrf spine t).
Proof.
  unfold createChunksWith.
  assert (named hrf spine (chunks (fold_left (step chunkSize overlap hrf spine)
                                             (paragraphsOf t) initial))
          /\ chunkIndex (fold_left (step chunkSize overlap hrf spine)
                                   (paragraphsOf t) initial)
             = length (chunks (fold_left (step chunkSize overlap hrf spine)
                                         (paragraphsOf t) initial))) as [Hn Hi].
  { apply (fold_step_inv
             (fun st => named hrf spine (chunks st) /\ chunkIndex st = length (chunks st))
             (fun _ => True)).
    - intros st p Hst _. by apply named_step.
    - by apply Forall_forall.
    - split; [|done]. intros i c Hc. simpl in Hc. by rewrite lookup_nil in Hc. }
  unfold flush. destruct (0 <? _); [|done]. by apply named_snoc.
Qed.

Lemma named_ids_NoDup cs : named hrf spine cs -> NoDup (TextChunk.id <$> cs).
Proof.
  intros Hn. apply NoDup_alt. intros i j x Hi Hj.
  rewrite list_lookup_fmap in Hi, Hj.
  destruct (cs !! i) as [a|] eqn:Ha; [|done]. destruct (cs !! j) as [b|] eqn:Hb; [|done].
  simpl in Hi, Hj. destruct (Hn i a Ha) as (_ & Hida & _). destruct (Hn j b Hb) as (_ & Hidb & _).
  assert (hrf +:+ "-chunk-" +:+ pretty i = hrf +:+ "-chunk-" +:+ pretty j) as Heq by congruence.
  apply (inj (String.app hrf)) in Heq. apply (inj (String.app "-chunk-")) in Heq.
  by apply (inj pretty) in Heq.
Qed.

(** *** Texts *)

Lemma makeChunk_inked st : blank (currentChunk st) = false -> inked_text (makeChunk hrf spine st).
Proof. intros Hb. split; simpl; [by apply trim_not_blank | apply trim_idemp]. Qed.

Lemma inked_step st p :
  (currentChunk st = "" \/ blank (currentChunk st) = false) /\ Forall inked_text (chunks st) ->
  blank p = false ->
  (currentChunk (step chunkSize overlap hrf spine st p) = ""
   \/ blank (currentChunk (step chunkSize overlap hrf spine st p)) = false)
  /\ Forall inked_text (chunks (step chunkSize overlap hrf spine st p)).
Proof.
  intros [Hcur Hcs] Hp. unfold step.
  destruct (chunkSize <? _); simpl; [destruct (0 <? _) eqn:Hlen; simpl|].
  - split; [right; by rewrite !blank_app, Hp, !andb_false_r|].
    apply Forall_app. split; [done|]. apply Forall_cons. split; [|done].
    apply makeChunk_inked. destruct Hcur as [Hcur|]; [|done].
    by apply nonempty_length in Hlen.
  - split; [right; by rewrite !blank_app, Hp, !andb_false_r | done].
  - split; [right; by rewrite !blank_app, Hp, !andb_false_r | done].
Qed.

Lemma createChunksWith_inked t :
  Forall inked_text (createChunksWith chunkSize overlap hrf spine t).
Proof.
  unfold createChunksWith.
  pose proof (fold_step_inv
    (fun st => (currentChunk st = "" \/ blank (currentChunk st) = false)
               /\ Forall inked_text (chunks st))
    (fun p => blank p = false) (paragraphsOf t) initial
    (fun st p Hst Hp => inked_step st p Hst Hp) (paragraphsOf_inked t)
    (conj (or_introl eq_refl) (Forall_nil_2 _))) as [Hcur Hcs].
  unfold flush. destruct (0 <? _) eqn:Hlen; [|done].
  apply Forall_app. split; [done|]. apply Forall_cons. split; [|done].
  apply makeChunk_inked. destruct Hcur as [Hcur|]; [|done].
  rewrite Hcur in Hlen. done.
Qed.
End ChunkShape.

(** *** Offsets *)

Section ChunkOffsets.
Variables (chunkSize overlap : nat) (hrf : string) (spine : nat).
Hypothesis overlap_pos : 0 < overlap.






(** *** Sizes *)

Hypothesis overlap_le : overlap <= chunkSize.

Lemma sized_step st p :
  String.length (currentChunk st) <= S chunkSize
  /\ Forall (fun c => String.length (TextChunk.text c) <= S chunkSize) (chunks st) ->
  String.length p + overlap <= chunkSize ->
  String.length (currentChunk (step chunkSize overlap hrf spine st p)) <= S chunkSize
  /\ Forall (fun c => String.length (TextChunk.text c) <= S chunkSize)
            (chunks (step chunkSize overlap hrf spine st p)).
Proof.
  intros [Hcur Hcs] Hp. unfold step.
  destruct (chunkSize <? _) eqn:Hbig; simpl; [destruct (0 <? _) eqn:Hlen; simpl|].
  - pose proof (length_slice_last overlap (currentChunk st) overlap_pos).
    split; [rewrite !length_app_str; simpl; lia|].
    apply Forall_app. split; [done|]. apply Forall_cons. split; [|done].
    simpl. pose proof (length_trim (currentChunk st)). lia.
  - apply empty_length in Hlen. rewrite Hlen.
    split; [rewrite !length_app_str; simpl; lia | done].
  - apply Nat.ltb_ge in Hbig. split; [|done].
    rewrite !length_app_str. destruct (0 <? _); simpl; lia.
Qed.

Lemma createChunksWith_sized t :
  Forall (fun p => String.length p + overlap <= chunkSize) (paragraphsOf t) ->
  Forall (fun c => String.length (TextChunk.text c) <= S chunkSize)
         (createChunksWith chunkSize overlap hrf spine t).
Proof.
  intros Hps. unfold createChunksWith.
  pose proof (fold_step_inv chunkSize overlap hrf spine
    (fun st => String.length (currentChunk st) <= S chunkSize
               /\ Forall (fun c => String.length (TextChunk.text c) <= S chunkSize) (chunks st))
    (fun p => String.length p + overlap <= chunkSize) (paragraphsOf t) initial
    sized_step Hps) as [Hcur Hcs].
  { split; simpl; [lia | done]. }
  unfold flush. destruct (0 <? _); [|done].
  apply Forall_app. split; [done|]. apply Forall_cons. split; [|done].
  simpl. pose proof (length_trim (currentChunk (fold_left (step chunkSize overlap hrf spine)
                                                           (paragraphsOf t) initial))). lia.
Qed.
End ChunkOffsets.

(** *** Paragraphs *)

Section Paragraphs.

Lemma cons_head_blank c ps :
  is_ws c = true -> Forall (fun p => blank p = true) ps ->
  Forall (fun p => blank p = true) (cons_head c ps).
Proof.
  intros Hc Hps. destruct ps as [|p ps]; simpl.
  - apply Forall_cons. split; [|done]. simpl. by rewrite Hc.
  - apply Forall_cons in Hps as [Hp Hps]. apply Forall_cons. split; [|done].
    simpl. by rewrite Hc, Hp.
Qed.

Lemma split_go_blank s : forall k,
  blank s = true -> Forall (fun p => blank p = true) (split_go k s).
Proof.
  induction s as [|c s IH]; intros k Hs.
  - simpl. by apply Forall_cons.
  - simpl in Hs. apply andb_prop in Hs as [Hc Hs]. simpl.
    destruct k as [|k]; [|by apply IH].
    destruct (is_nl c); [destruct (sep_len s)|].
    + apply Forall_cons. split; [done | by apply IH].
    + by apply cons_head_blank, IH.
    + by apply cons_head_blank, IH.
Qed.

Lemma paragraphsOf_blank t : blank t = true -> paragraphsOf t = [].
Proof.
  intros Ht. unfold paragraphsOf, split_paragraphs.
  pose proof (split_go_blank t 0 Ht) as Hall.
  induction Hall as [|p ps Hp _ IH]; [done|].
  rewrite filter_cons_False; [done|]. rewrite trim_blank by done. simpl. lia.
Qed.

Lemma split_go_one_line s : one_line s = true -> split_go 0 s = [s].
Proof.
  induction s as [|c s IH]; [done|]. simpl.
  intros [Hc Hs]%andb_prop. apply negb_true_iff in Hc. rewrite Hc, IH by done. done.
Qed.

Lemma paragraphsOf_one_line t :
  one_line t = true -> blank t = false -> paragraphsOf t = [t].
Proof.
  intros Hone Hink. unfold paragraphsOf, split_paragraphs.
  rewrite split_go_one_line by done.
  rewrite filter_cons_True; [done|].
  pose proof (trim_not_blank t Hink). destruct (trim t); [done | simpl; lia].
Qed.
End Paragraphs.

(** X1. The chunks of a section are numbered 0, 1, 2, ... in the order
    they are produced, each is named [href-chunk-index], carries the href
    and the spine index it was called with and no page location yet; so no
    two chunks of a section share an id. *)
Theorem createChunksForSection_names (textContent hrf : string) (spine : nat) :
  let cs := createChunksForSection textContent hrf spine in
  (forall i c, cs !! i = Some c ->
     TextChunk.chunkIndex c = i
     /\ TextChunk.id c = hrf +:+ "-chunk-" +:+ pretty i
     /\ TextChunk.href c = hrf
     /\ TextChunk.spineIndex c = spine
     /\ TextChunk.pageLocation c = None)
  /\ NoDup (TextChunk.id <$> cs).
Proof.
  simpl. pose proof (createChunksWith_named 500 50 hrf spine textContent) as Hn.
  split; [exact Hn | by eapply named_ids_NoDup].
Qed.

(** X2. No chunk is empty and none starts or ends with white space: the
    text of every chunk is a trimmed, non-empty string. *)
Theorem createChunksForSection_texts (textContent hrf : string) (spine : nat) :
  Forall (fun c => TextChunk.text c <> ""
                   /\ trim (TextChunk.text c) = TextChunk.text c)
         (createChunksForSection textContent hrf spine).
Proof. apply createChunksWith_inked. Qed.


(** X4. The size of a chunk is bounded as long as the paragraphs are: in
    a section none of whose paragraphs is longer than 450 code units, no
    chunk text is longer than 501. *)
Theorem createChunksForSection_size (textContent hrf : string) (spine : nat) :
  Forall (fun p => String.length p <= 450) (paragraphsOf textContent) ->
  Forall (fun c => String.length (TextChunk.text c) <= 501)
         (createChunksForSection textContent hrf spine).
Proof.
  intros Hps.
  apply (createChunksWith_sized 500 50 hrf spine ltac:(lia) ltac:(lia) textContent).
  eapply Forall_impl; [exact Hps|]. simpl. lia.
Qed.

(** X5. A section text holding white space only gives no chunk. *)
Theorem createChunksForSection_blank (textContent hrf : string) (spine : nat) :
  blank textContent = true ->
  createChunksForSection textContent hrf spine = [].
Proof.
  intros Hb. unfold createChunksForSection, createChunksWith.
  by rewrite paragraphsOf_blank.
Qed.

(** X6. A section text without a line feed is never cut, however long it
    is: when it is not blank it gives exactly one chunk, its trimmed text,
    with index 0 and the offsets 1 and length + 1. *)
Theorem createChunksForSection_one_line (textContent hrf : string) (spine : nat) :
  one_line textContent = true ->
  blank textContent = false ->
  createChunksForSection textContent hrf spine
  = [ {| TextChunk.id := hrf +:+ "-chunk-0";
         TextChunk.text := trim textContent;
         TextChunk.href := hrf;
         TextChunk.spineIndex := spine;
         TextChunk.chunkIndex := 0;
         TextChunk.startOffset := 1;
         TextChunk.endOffset := (len textContent + 1)%Z;
         TextChunk.pageLocation := None |} ].
Proof.
  intros Hone Hink. unfold createChunksForSection, createChunksWith.
  rewrite paragraphsOf_one_line by done.
  pose proof (trim_not_blank _ Hink) as Htrim.
  assert ((0 <? String.length (trim textContent)) = true) as Hlen
    by (destruct (trim textContent); [done | reflexivity]).
  assert (step 500 50 hrf spine initial textContent
          = mkLoop [] textContent (0 + len textContent + 1)%Z 0) as Hstep.
  { unfold step, initial. cbn [currentChunk chunks currentOffset chunkIndex].
    change (String.length "") with 0. change (0 <? 0) with false.
    rewrite andb_false_r. reflexivity. }
  simpl fold_left. rewrite Hstep. unfold flush.
  cbn [currentChunk chunks]. rewrite Hlen. unfold makeChunk. simpl.
  do 2 f_equal. lia.
Qed.

(** ** Where the chunks of the chunk set come from *)

Section Provenance.
Import ChunkSet.

Lemma sectionChunks_sourced items n item :
  items !! n = Some item ->
  Forall (fun c0 => forall k, sourced items (withChunkIndex c0 k)) (sectionChunks n item).
Proof.
  intros Hitem. unfold sectionChunks.
  destruct (isMetadataHref _) eqn:Hhref; [constructor|].
  destruct (Spine.load item) as [| | |tc inner] eqn:Hload; try constructor.
  fold (bodyText tc inner).
  destruct (_ || _); [constructor|].
  destruct (_ <? 200) eqn:Hlen; [constructor|].
  destruct (isMetadataContent _) eqn:Hcontent; [constructor|].
  apply Nat.ltb_ge in Hlen.
  apply Forall_forall. intros c0 Hc0 k.
  pose proof (proj1 (Forall_forall _ _) (createChunksForSection_spine _ _ _) c0 Hc0) as Hspine.
  exists item, tc, inner, c0. simpl. rewrite Hspine. by repeat split.
Qed.

Lemma pushAll_Forall (Q : TextChunk -> Prop) sectionCs allChunks :
  Forall Q allChunks ->
  Forall (fun c => forall k, Q (withChunkIndex c k)) sectionCs ->
  Forall Q (pushAll allChunks sectionCs).
Proof.
  revert allChunks. induction sectionCs as [|c cs IH]; intros allChunks Hall Hcs; [done|].
  apply Forall_cons in Hcs as [Hc Hcs]. simpl. apply IH; [|done].
  apply Forall_app. split; [done|]. apply Forall_cons. split; [apply Hc | done].
Qed.

Lemma collect_sourced full items n allChunks :
  (forall k item, items !! k = Some item -> full !! (n + k) = Some item) ->
  Forall (sourced full) allChunks ->
  Forall (sourced full) (collect n items allChunks).
Proof.
  revert n allChunks. induction items as [|item items IH]; intros n allChunks Hfull Hall; [done|].
  simpl. apply IH.
  - intros k it Hk. replace (S n + k) with (n + S k) by lia. by apply Hfull.
  - apply pushAll_Forall; [done|]. apply sectionChunks_sourced.
    replace n with (n + 0) by lia. by apply Hfull.
Qed.

Lemma allChunksOf_sourced b : Forall (sourced (Spine.spineItems b)) (allChunksOf b).
Proof. apply collect_sourced; [done | constructor]. Qed.

Lemma withPageLocation_stem c loc : stem (withPageLocation c loc) = stem c.
Proof. by destruct loc. Qed.

Lemma located_sourced items (f : nat -> TextChunk -> option string) cs :
  Forall (sourced items) cs ->
  Forall (sourced items) (imap (fun i c => withPageLocation c (f i c)) cs).
Proof.
  intros Hcs. apply Forall_forall. intros c Hc.
  apply list_elem_of_lookup in Hc as [i Hi]. rewrite list_lookup_imap in Hi.
  destruct (cs !! i) as [x|] eqn:Hx; [|done]. simpl in Hi. inversion Hi; subst c.
  pose proof (proj1 (Forall_forall _ _) Hcs x (list_elem_of_lookup_2 _ _ _ Hx))
    as (item & tc & inner & c0 & H1 & H2 & H3 & H4 & H5 & H6 & H7).
  assert (TextChunk.spineIndex (withPageLocation x (f i x)) = TextChunk.spineIndex x)
    as Hspine by (by destruct (f i x)).
  exists item, tc, inner, c0. rewrite Hspine, withPageLocation_stem. by repeat split.
Qed.
End Provenance.

(** X7. Every chunk [buildTextChunks] leaves comes from the spine item at
    its spine index: that item was loaded, its href and its text passed
    the filters for front and back matter, its trimmed text has at least
    200 code units, and the chunk is one of those [createChunksForSection]
    cuts from that text, with the same id, text, href and offsets. *)
Theorem buildTextChunks_provenance `{Rendition} (r : Reader.t) (b : Spine.Book)
        (c : TextChunk) :
  Reader.bookRef r = Some b ->
  Spine.ready b = true ->
  Spine.spineItems b <> [] ->
  c ∈ Reader.textChunks (Reader.buildTextChunks r) ->
  exists item tc inner c0,
    Spine.spineItems b !! TextChunk.spineIndex c = Some item
    /\ Spine.load item = Spine.Loaded tc inner
    /\ ChunkSet.isMetadataHref (Spine.href item) = false
    /\ 200 <= String.length (trim (bodyText tc inner))
    /\ ChunkSet.isMetadataContent (bodyText tc inner) = false
    /\ c0 ∈ createChunksForSection (bodyText tc inner) (Spine.href item)
                                   (TextChunk.spineIndex c)
    /\ stem c = stem c0.
Proof.
  intros Hb Hready Hspine Hc.
  assert (Forall (sourced (Spine.spineItems b))
                 (Reader.textChunks (Reader.buildTextChunks r))) as Hall.
  { unfold Reader.buildTextChunks. rewrite Hb, Hready. simpl.
    destruct (Spine.spineItems b) eqn:Hitems; [done|]. rewrite <-Hitems.
    unfold Reader.mapChunksToPages. simpl.
    destruct (Reader.annotations r); simpl;
      [destruct Annotations.locationsReady; simpl|];
      auto using allChunksOf_sourced, located_sourced. }
  exact (proj1 (Forall_forall _ _) Hall c Hc).
Qed.

(** X8. Building the chunk set changes nothing but the chunk list of the
    component: the book, the overlays, the highlights, the search results,
    the query and [localStorage] are left as they were. In particular the
    chunks are not written to the stored record of the book. *)
Theorem buildTextChunks_frame `{Rendition} (r : Reader.t) :
  let r' := Reader.buildTextChunks r in
  Reader.book_id r' = Reader.book_id r
  /\ Reader.bookRef r' = Reader.bookRef r
  /\ Reader.annotations r' = Reader.annotations r
  /\ Reader.highlightsRef r' = Reader.highlightsRef r
  /\ Reader.highlights r' = Reader.highlights r
  /\ Reader.searchResults r' = Reader.searchResults r
  /\ Reader.searchQuery r' = Reader.searchQuery r
  /\ Reader.localStorage r' = Reader.localStorage r.
Proof.
  destruct r as [bid book ann href hs results cs query ls].
  unfold Reader.buildTextChunks, Reader.mapChunksToPages. simpl.
  destruct book as [b|]; [|done].
  destruct (negb _); [done|].
  destruct (Spine.spineItems b); [done|]. simpl.
  destruct ann; [destruct Annotations.locationsReady|]; done.
Qed.

(** ** Searching the chunks *)

Section SearchFacts.
Import Search.

Lemma matchIndices_cons skip pos q c r :
  matchIndices skip pos q (String c r)
  = match skip with
    | S k => matchIndices k (S pos) q r
    | 0 => if ci_prefix q (String c r)
           then pos :: matchIndices (String.length q - 1) (S pos) q r
           else matchIndices 0 (S pos) q r
    end.
Proof. reflexivity. Qed.

Lemma ci_prefix_length q t : ci_prefix q t = true -> String.length q <= String.length t.
Proof.
  revert t. induction q as [|a q IH]; intros [|b t]; simpl; try done; [lia|].
  intros [_ Hq]%andb_prop. apply IH in Hq. lia.
Qed.

Lemma drop_empty n : drop n "" = "".
Proof. by destruct n. Qed.

Lemma matchIndices_sound t : forall skip pos q x,
  x ∈ matchIndices skip pos q t ->
  exists i, x = pos + i /\ skip <= i /\ i < String.length t
            /\ ci_prefix q (drop i t) = true.
Proof.
  induction t as [|c r IH]; intros skip pos q x Hx.
  - by apply elem_of_nil in Hx.
  - rewrite matchIndices_cons in Hx. destruct skip as [|k].
    + destruct (ci_prefix q (String c r)) eqn:Hp.
      * apply elem_of_cons in Hx as [->|Hx].
        -- exists 0. simpl. repeat split; [lia..|done].
        -- destruct (IH _ _ _ _ Hx) as (i & -> & _ & Hlt & Hi).
           exists (S i). simpl. repeat split; [lia..|done].
      * destruct (IH _ _ _ _ Hx) as (i & -> & _ & Hlt & Hi).
        exists (S i). simpl. repeat split; [lia..|done].
    + destruct (IH _ _ _ _ Hx) as (i & -> & Hk & Hlt & Hi).
      exists (S i). simpl. repeat split; [lia..|done].
Qed.

Lemma matchIndices_spaced t : forall skip pos q k a b,
  matchIndices skip pos q t !! k = Some a ->
  matchIndices skip pos q t !! S k = Some b ->
  a < b /\ a + String.length q <= b.
Proof.
  induction t as [|c r IH]; intros skip pos q k a b Ha Hb.
  - simpl in Ha. by rewrite lookup_nil in Ha.
  - rewrite matchIndices_cons in Ha, Hb. destruct skip as [|n]; [|by eapply IH].
    destruct (ci_prefix q (String c r)); [|by eapply IH].
    destruct k as [|k]; [|by eapply IH].
    simpl in Ha, Hb. inversion Ha; subst a.
    apply list_elem_of_lookup_2, matchIndices_sound in Hb as (i & -> & Hi & _). lia.
Qed.

Lemma matchIndices_complete t : forall skip pos q i,
  q <> "" -> skip <= i -> ci_prefix q (drop i t) = true ->
  exists j, (pos + j) ∈ matchIndices skip pos q t /\ j <= i /\ i < j + String.length q.
Proof.
  induction t as [|c r IH]; intros skip pos q i Hq Hskip Hi;
    assert (0 < String.length q) as Hlen by (destruct q; [done | simpl; lia]).
  - rewrite drop_empty in Hi. by destruct q.
  - rewrite matchIndices_cons. destruct skip as [|k].
    + destruct (ci_prefix q (String c r)) eqn:Hp.
      * destruct (decide (i < String.length q)) as [Hlt|Hge].
        -- exists 0. split; [|lia]. replace (pos + 0) with pos by lia. apply list_elem_of_here.
        -- destruct i as [|i]; [lia|]. simpl in Hi.
           destruct (IH (String.length q - 1) (S pos) q i Hq ltac:(lia) Hi)
             as (j & Hj & Hle & Hlt).
           exists (S j). split; [|lia]. apply list_elem_of_further.
           by replace (pos + S j) with (S pos + j) by lia.
      * destruct i as [|i]; [simpl in Hi; congruence|]. simpl in Hi.
        destruct (IH 0 (S pos) q i Hq ltac:(lia) Hi) as (j & Hj & Hle & Hlt).
        exists (S j). split; [|lia]. by replace (pos + S j) with (S pos + j) by lia.
    + destruct i as [|i]; [lia|]. simpl in Hi.
      destruct (IH k (S pos) q i Hq ltac:(lia) Hi) as (j & Hj & Hle & Hlt).
      exists (S j). split; [|lia]. by replace (pos + S j) with (S pos + j) by lia.
Qed.

(** *** Letter case *)

Lemma lower_char_idemp c : lower_char (lower_char c) = lower_char c.
Proof. destruct c as [[] [] [] [] [] [] [] []]; reflexivity. Qed.

Lemma length_toLowerCase s : String.length (toLowerCase s) = String.length s.
Proof. induction s as [|c s IH]; simpl; congruence. Qed.

Lemma ci_prefix_lower q t : ci_prefix (toLowerCase q) (toLowerCase t) = ci_prefix q t.
Proof.
  revert t. induction q as [|a q IH]; intros [|b t]; simpl; try done.
  unfold ci_eq. by rewrite !lower_char_idemp, IH.
Qed.

Lemma matchIndices_lower t : forall skip pos q,
  matchIndices skip pos (toLowerCase q) (toLowerCase t) = matchIndices skip pos q t.
Proof.
  induction t as [|c r IH]; intros skip pos q; [done|].
  change (toLowerCase (String c r)) with (String (lower_char c) (toLowerCase r)).
  rewrite !matchIndices_cons.
  change (String (lower_char c) (toLowerCase r)) with (toLowerCase (String c r)).
  destruct skip as [|k]; [|apply IH].
  by rewrite ci_prefix_lower, length_toLowerCase, !IH.
Qed.

(** *** The results *)

Lemma length_take_str n s : String.length (take n s) <= n.
Proof. revert s. induction n as [|n IH]; intros [|c s]; simpl; try lia. specialize (IH s). lia. Qed.

Lemma excerpt_length q chunk k index :
  String.length (SearchResult.excerpt (resultAt q chunk k index)) <= String.length q + 200.
Proof.
  simpl. etrans; [apply length_trim|]. unfold slice.
  etrans; [apply length_take_str|]. lia.
Qed.

Lemma searchFrom_sound q cs : forall n r,
  r ∈ searchFrom n q cs ->
  exists k chunk index,
    cs !! k = Some chunk
    /\ index ∈ matchIndices 0 0 q (TextChunk.text chunk)
    /\ r = resultAt q chunk (n + k) index.
Proof.
  induction cs as [|chunk cs IH]; intros n r Hr; [by apply elem_of_nil in Hr|].
  simpl in Hr. apply elem_of_app in Hr as [Hr|Hr].
  - apply list_elem_of_fmap in Hr as (index & -> & Hindex).
    exists 0, chunk, index. by rewrite Nat.add_0_r.
  - destruct (IH _ _ Hr) as (k & c & index & Hk & Hindex & ->).
    exists (S k), c, index. by replace (n + S k) with (S n + k) by lia.
Qed.

Lemma searchFrom_ordered q cs : forall n i j ri rj,
  i <= j -> searchFrom n q cs !! i = Some ri -> searchFrom n q cs !! j = Some rj ->
  SearchResult.chunkIndex ri <= SearchResult.chunkIndex rj.
Proof.
  induction cs as [|chunk cs IH]; intros n i j ri rj Hij Hi Hj;
    [simpl in Hi; by rewrite lookup_nil in Hi|].
  simpl in Hi, Hj.
  set (here := map (resultAt q chunk n) (matchIndices 0 0 q (TextChunk.text chunk))) in *.
  assert (forall x r, here !! x = Some r -> SearchResult.chunkIndex r = n) as Hhere.
  { intros x r Hx. apply list_elem_of_lookup_2, list_elem_of_fmap in Hx as (index & -> & _).
    done. }
  assert (forall x r, searchFrom (S n) q cs !! x = Some r -> S n <= SearchResult.chunkIndex r)
    as Hrest.
  { intros x r Hx. apply list_elem_of_lookup_2, searchFrom_sound in Hx
      as (k & c & index & _ & _ & ->). simpl. lia. }
  destruct (decide (j < length here)) as [Hjl|Hjg].
  - rewrite lookup_app_l in Hi by lia. rewrite lookup_app_l in Hj by lia.
    rewrite (Hhere _ _ Hi), (Hhere _ _ Hj). done.
  - rewrite lookup_app_r in Hj by lia. destruct (decide (i < length here)) as [Hil|Hig].
    + rewrite lookup_app_l in Hi by lia. rewrite (Hhere _ _ Hi).
      apply Hrest in Hj. lia.
    + rewrite lookup_app_r in Hi by lia. eapply IH; [|exact Hi|exact Hj]. lia.
Qed.
End SearchFacts.

(** X9. What the search reports in one text. Every reported index is the
    start of an occurrence of the query, compared without regard to
    letter case, that lies wholly inside the text; the indices come in
    increasing order, and two reported occurrences never overlap. *)
Theorem matchIndices_reported (q t : string) (k a : nat) :
  Search.matchIndices 0 0 q t !! k = Some a ->
  Search.ci_prefix q (drop a t) = true
  /\ a + String.length q <= String.length t
  /\ forall b, Search.matchIndices 0 0 q t !! S k = Some b ->
               a < b /\ a + String.length q <= b.
Proof.
  intros Ha.
  pose proof (list_elem_of_lookup_2 _ _ _ Ha) as Hin.
  apply matchIndices_sound in Hin as (i & -> & _ & Hlt & Hi). simpl.
  split; [done|]. split.
  - apply ci_prefix_length in Hi. rewrite length_drop_str in Hi. lia.
  - intros b Hb. eapply matchIndices_spaced; [exact Ha | exact Hb].
Qed.

(** X10. The search misses nothing. For a query that is not empty, every
    occurrence in the text is reported or starts inside a reported
    occurrence; so nothing is reported only when the text holds no
    occurrence. *)
Theorem matchIndices_exhaustive (q t : string) (i : nat) :
  q <> "" ->
  Search.ci_prefix q (drop i t) = true ->
  (exists j, j ∈ Search.matchIndices 0 0 q t /\ j <= i /\ i < j + String.length q)
  /\ Search.matchIndices 0 0 q t <> [].
Proof.
  intros Hq Hi.
  destruct (matchIndices_complete t 0 0 q i Hq ltac:(lia) Hi) as (j & Hj & Hle & Hlt).
  simpl in Hj. split; [by exists j|].
  intros Hnil. rewrite Hnil in Hj. by apply elem_of_nil in Hj.
Qed.

(** X11. Letter case plays no part in the search: two queries that differ
    in letter case only find the same places, and so does one query in two
    texts that differ in letter case only. *)
Theorem matchIndices_case_blind (q q' t t' : string) :
  toLowerCase q = toLowerCase q' ->
  toLowerCase t = toLowerCase t' ->
  Search.matchIndices 0 0 q t = Search.matchIndices 0 0 q' t'.
Proof.
  intros Hq Ht.
  rewrite <-(matchIndices_lower t), <-(matchIndices_lower t'). by rewrite Hq, Ht.
Qed.

(** X12. What a search result says. A result of searching a chunk list
    names a chunk of that list by its position; it carries the href and
    the spine index of that chunk; its text offset is the start offset of
    the chunk plus the index of an occurrence of the query in the chunk
    text; its excerpt is at most 200 code units longer than the query; its
    target is the page location of the chunk when there is one and
    [href#offset=N] otherwise; and the results come in the order of the
    chunks. *)
Theorem searchChunks_results (q : string) (cs : list TextChunk) (k : nat)
        (r : SearchResult) :
  Search.searchChunks q cs !! k = Some r ->
  (exists chunk index,
      cs !! SearchResult.chunkIndex r = Some chunk
      /\ Search.ci_prefix q (drop index (TextChunk.text chunk)) = true
      /\ index + String.length q <= String.length (TextChunk.text chunk)
      /\ SearchResult.href r = TextChunk.href chunk
      /\ SearchResult.spineIndex r = TextChunk.spineIndex chunk
      /\ SearchResult.textOffset r = (TextChunk.startOffset chunk + Z.of_nat index)%Z
      /\ SearchResult.terms r = [q]
      /\ SearchResult.cfi r
         = match TextChunk.pageLocation chunk with
           | Some (String c l) => String c l
           | _ => TextChunk.href chunk +:+ "#offset=" +:+ pretty (SearchResult.textOffset r)
           end)
  /\ String.length (SearchResult.excerpt r) <= String.length q + 200
  /\ forall r', Search.searchChunks q cs !! S k = Some r' ->
                SearchResult.chunkIndex r <= SearchResult.chunkIndex r'.
Proof.
  intros Hr. unfold Search.searchChunks in *.
  pose proof (list_elem_of_lookup_2 _ _ _ Hr) as Hin.
  apply searchFrom_sound in Hin as (n & chunk & index & Hn & Hindex & ->).
  apply matchIndices_sound in Hindex as (i & -> & _ & Hlt & Hi). simpl in Hi, Hlt.
  split; [|split].
  - exists chunk, i. simpl. repeat split; try done.
    apply ci_prefix_length in Hi. rewrite length_drop_str in Hi. lia.
  - apply excerpt_length.
  - intros r' Hr'. eapply (searchFrom_ordered q cs 0 k (S k)); [lia | exact Hr | exact Hr'].
Qed.

(** ** From a search result back to its place *)

Section NavigationFacts.
Import Navigation.
Implicit Types (c d : ascii).












Lemma prefix_app s t : String.prefix s (s +:+ t) = true.
Proof.
  induction s as [|c s IH]; [by destruct t|]. rewrite app_cons.
  change (String.prefix (String c s) (String c (s +:+ t)))
    with (match ascii_dec c c with
          | left _ => String.prefix s (s +:+ t)
          | right _ => false
          end).
  by destruct (ascii_dec c c).
Qed.


Lemma includes_cons s c r :
  includes s (String c r) = String.prefix s (String c r) || includes s r.
Proof. reflexivity. Qed.



End NavigationFacts.

(** X13. What a search leaves alone. Whatever the state it starts from,
    [performSearch] changes neither the highlights nor [localStorage] nor
    the book; of the overlays it removes none but those filed under a
    [search-highlight-] key; and when the render has chunks it keeps them
    and reports, for a query that is not blank and a book that is open,
    the matches found in them. *)
Theorem performSearch_frame `{Rendition} (r : Reader.t) :
  let r' := Reader.performSearch r in
  Reader.book_id r' = Reader.book_id r
  /\ Reader.bookRef r' = Reader.bookRef r
  /\ Reader.highlights r' = Reader.highlights r
  /\ Reader.highlightsRef r' = Reader.highlightsRef r
  /\ Reader.searchQuery r' = Reader.searchQuery r
  /\ Reader.localStorage r' = Reader.localStorage r
  /\ (Reader.annotations r = None -> Reader.annotations r' = None)
  /\ (forall A, Reader.annotations r = Some A ->
        exists A', Reader.annotations r' = Some A'
                   /\ (forall key a, A' !! key = Some a -> A !! key = Some a)
                   /\ forall key, startsWith "search-highlight-" key = false ->
                                  A' !! key = A !! key)
  /\ (Reader.textChunks r <> [] ->
        Reader.textChunks r' = Reader.textChunks r
        /\ (trim (Reader.searchQuery r) <> "" -> Reader.bookRef r <> None ->
            Reader.searchResults r'
            = Search.searchChunks (Reader.searchQuery r) (Reader.textChunks r))).
Proof.
  assert (forall A : gmap string Annotation,
             (forall key a, Annotations.withoutSearchKeys A !! key = Some a -> A !! key = Some a)
             /\ forall key, startsWith "search-highlight-" key = false ->
                            Annotations.withoutSearchKeys A !! key = A !! key) as Hkeys.
  { intros A. split.
    - by intros key a [? _]%map_lookup_filter_Some.
    - intros key Hkey. unfold Annotations.withoutSearchKeys.
      destruct (A !! key) as [a|] eqn:Ha.
      + by apply map_lookup_filter_Some.
      + apply map_lookup_filter_None. left. done. }
  unfold Reader.performSearch.
  destruct (ChunkSet.str_empty (trim (Reader.searchQuery r))
            || bool_decide (Reader.bookRef r = None)) eqn:Hguard.
  { cbv zeta. do 6 (split; [done|]). split; [done|]. split.
    - intros A HA. exists A. by repeat split.
    - intros _. split; [done|]. intros Hq Hb.
      apply orb_prop in Hguard as [Hguard|Hguard].
      + destruct (trim (Reader.searchQuery r)); [done | discriminate Hguard].
      + by apply bool_decide_eq_true in Hguard. }
  set (r1 := Reader.clearSearchHighlights (Reader.set_searchResults r [])).
  pose proof (buildTextChunks_frame r1) as Hf. cbv zeta in Hf.
  destruct Hf as (H1 & H2 & H3 & H4 & H5 & H6 & H7 & H8).
  assert (Reader.annotations r1 = Annotations.withoutSearchKeys <$> Reader.annotations r)
    as Hann by done.
  cbv zeta. unfold Reader.set_searchResults.
  cbn [Reader.book_id Reader.bookRef Reader.annotations Reader.highlightsRef
       Reader.highlights Reader.searchResults Reader.textChunks Reader.searchQuery
       Reader.localStorage].
  destruct (length (Reader.textChunks r) =? 0) eqn:Hlen.
  - rewrite H1, H2, H3, H4, H5, H7, H8, Hann.
    do 6 (split; [done|]). split; [|split].
    + by intros ->.
    + intros A ->. simpl. eexists. split; [done|]. apply Hkeys.
    + intros Hne. apply Nat.eqb_eq in Hlen. by destruct (Reader.textChunks r).
  - rewrite Hann.
    do 6 (split; [done|]). split; [|split].
    + by intros ->.
    + intros A ->. simpl. eexists. split; [done|]. apply Hkeys.
    + by intros _.
Qed.


(** ** What the mutators of the records do *)

Section MetadataEffects.
Import Js BookMetadataManager Housekeeping.
Context `{Platform}.




Ltac mutator_eq :=
  intros; unfold bind; rewrite getMetadata_eq;
  match goal with
  | |- context [storedMetadata ?ls !! ?b] =>
      destruct (storedMetadata ls !! b); simpl; [by rewrite ?saveMetadata_eq | done]
  end.




Lemma addHighlight_eq b highlight now ls :
  addHighlight b highlight now ls
  = (Ok tt, storedAfter ls
              ((fun m => BookMetadata.set_highlights m
                           (BookMetadata.highlights m ++ [highlight]))
                 <$> storedMetadata ls !! b) now).
Proof. unfold addHighlight. mutator_eq. Qed.



Lemma updateHighlight_eq b highlightId updates now ls :
  updateHighlight b highlightId updates now ls
  = (Ok tt, storedAfter ls
              (storedMetadata ls !! b ≫= fun m =>
                 (fun index =>
                    BookMetadata.set_highlights m
                      (alter (fun h => Highlight.merged h updates now) index
                             (BookMetadata.highlights m)))
                   <$> findIndex highlightId (BookMetadata.highlights m)) now).
Proof.
  unfold updateHighlight, bind. rewrite getMetadata_eq.
  destruct (storedMetadata ls !! b) as [m|]; simpl; [|done].
  destruct (findIndex highlightId (BookMetadata.highlights m)); simpl; [|done].
  by rewrite saveMetadata_eq.
Qed.


Lemma saveMetadata_storedAfter m now ls :
  saveMetadata m now ls = (Ok tt, storedAfter ls (Some m) now).
Proof. apply saveMetadata_eq. Qed.

(** Where [findIndex] points. *)
Lemma findIndex_Some hid hs index :
  findIndex hid hs = Some index ->
  (exists h, hs !! index = Some h /\ Highlight.id h = hid)
  /\ forall j h, j < index -> hs !! j = Some h -> Highlight.id h <> hid.
Proof.
  revert index. induction hs as [|h hs IH]; intros index Hfind; [done|].
  simpl in Hfind. destruct (decide (Highlight.id h = hid)) as [Hid|Hid].
  - inversion Hfind; subst index. split; [by exists h | intros j ? Hj; lia].
  - destruct (findIndex hid hs) as [k|]; [|done]. simpl in Hfind.
    inversion Hfind; subst index. destruct (IH k eq_refl) as [Hk Hbefore].
    split; [done|]. intros [|j] x Hj Hx.
    + simpl in Hx. by inversion Hx; subst x.
    + simpl in Hx. eapply Hbefore; [|done]. lia.
Qed.


Lemma storedMetadata_after m now ls :
  quotaAllows (<[METADATA_KEY := stringifyMetadata (savedMap (storedMetadata ls) m now)]> ls)
  = true ->
  metadata_reads_back (savedMap (storedMetadata ls) m now) ->
  storedMetadata (storedAfter ls (Some m) now) = savedMap (storedMetadata ls) m now.
Proof. intros Hquota Hback. by apply storedMetadata_written. Qed.

Lemma savedMap_lookup allMetadata m now :
  savedMap allMetadata m now !! BookMetadata.bookId m
  = Some (BookMetadata.set_updatedAt m (Some now)).
Proof. unfold savedMap. by rewrite lookup_insert_eq. Qed.

End MetadataEffects.



(** X17. [updateHighlight] changes one highlight, the first one that
    carries the id. When the storage takes the write and the text reads
    back, the stored list has the length it had; at the first position
    whose highlight carries the id lies that highlight with the updates
    merged in and [updatedAt] set to the time of the update; every other
    position holds what it held. *)
Theorem updateHighlight_first_match `{Platform} (ls : gmap string string)
        (bookId highlightId : string) (updates : Highlight.partial) (now : Z)
        (m : BookMetadata) (index : nat) :
  let hs := BookMetadata.highlights m in
  let hs' := alter (fun h => Highlight.merged h updates now) index hs in
  let saved := BookMetadataManager.savedMap (storedMetadata ls)
                 (BookMetadata.set_highlights m hs') now in
  let ls' := snd (BookMetadataManager.updateHighlight bookId highlightId updates now ls) in
  fst (BookMetadataManager.getMetadata bookId ls) = Ok (Some m) ->
  BookMetadata.bookId m = bookId ->
  BookMetadataManager.findIndex highlightId hs = Some index ->
  quotaAllows (<[BookMetadataManager.METADATA_KEY := stringifyMetadata saved]> ls) = true ->
  metadata_reads_back saved ->
  exists m',
    fst (BookMetadataManager.getMetadata bookId ls') = Ok (Some m')
    /\ length (BookMetadata.highlights m') = length hs
    /\ (exists h, hs !! index = Some h /\ Highlight.id h = highlightId
                  /\ BookMetadata.highlights m' !! index
                     = Some (Highlight.merged h updates now))
    /\ (forall j h, j < index -> hs !! j = Some h -> Highlight.id h <> highlightId)
    /\ (forall j, j <> index -> BookMetadata.highlights m' !! j = hs !! j)
    /\ BookMetadata.notes m' = BookMetadata.notes m.
Proof.
  intros hs hs' saved ls' Hfound Hid Hindex Hquota Hback.
  rewrite getMetadata_eq in Hfound. cbn [fst] in Hfound. injection Hfound as Hfound.
  subst ls'. rewrite updateHighlight_eq, Hfound. cbn [snd mbind option_bind].
  fold hs. rewrite Hindex. cbn [fmap option_fmap option_map].
  exists (BookMetadata.set_updatedAt (BookMetadata.set_highlights m hs') (Some now)).
  destruct (findIndex_Some _ _ _ Hindex) as [(h & Hh & Hhid) Hbefore].
  split; [|split; [|split; [|split; [|split]]]].
  - rewrite getMetadata_eq. cbn [fst]. rewrite storedMetadata_after by done.
    rewrite <-Hid. f_equal. apply (savedMap_lookup _ (BookMetadata.set_highlights m hs')).
  - simpl. subst hs'. by rewrite length_alter.
  - exists h. split; [done|]. split; [done|]. simpl. subst hs'.
    rewrite list_lookup_alter_eq, Hh. done.
  - exact Hbefore.
  - intros j Hj. simpl. subst hs'. by rewrite list_lookup_alter_ne.
  - done.
Qed.



(** ** The highlights shown and the highlights stored *)

Section ShownAndStored.
Import Js BookMetadataManager Housekeeping.
Context `{Platform} `{Rendition}.

Lemma onSelected_eq (r : Reader.t) cfiRange selection now :
  trim selection <> "" ->
  Reader.onSelected cfiRange selection now r
  = Reader.set_highlights
      (Reader.set_localStorage
         (Reader.set_annotations r
            (match Reader.annotations r with
             | Some A =>
                 match Annotations.add "highlight" cfiRange (Some (pretty now)) A with
                 | Ok A' => Some A'
                 | Throw => Some A
                 end
             | None => None
             end))
         (storedAfter (Reader.localStorage r)
            ((fun m => BookMetadata.set_highlights m
                         (BookMetadata.highlights m
                            ++ [selectedHighlight r cfiRange selection now]))
               <$> storedMetadata (Reader.localStorage r) !! Reader.book_id r) now))
      (Reader.highlights r ++ [selectedHighlight r cfiRange selection now]).
Proof.
  intros Hsel. unfold Reader.onSelected.
  destruct (ChunkSet.str_empty (trim selection)) eqn:Hempty.
  { by destruct (trim selection). }
  rewrite addHighlight_eq. reflexivity.
Qed.

Lemma loadBookData_eq title author created saved (r : Reader.t) :
  loadBookData title author created saved r
  = match storedMetadata (Reader.localStorage r) !! Reader.book_id r with
    | Some m =>
        Reader.set_highlights (Reader.set_localStorage r (Reader.localStorage r))
                              (BookMetadata.highlights m)
    | None =>
        Reader.set_highlights
          (Reader.set_localStorage r
             (storedAfter (Reader.localStorage r)
                (Some (createInitialMetadata (Reader.book_id r) title author created))
                saved))
          []
    end.
Proof.
  unfold loadBookData. rewrite getMetadata_eq.
  destruct (storedMetadata (Reader.localStorage r) !! Reader.book_id r); [done|].
  by rewrite saveMetadata_storedAfter.
Qed.
End ShownAndStored.

(** X19. A highlight that is stored is shown again. When the book has a
    record whose highlights are those shown, the selection is not blank,
    the storage takes the write and the text reads back, then after the
    [selected] handler the list shown and the list stored are both the
    old list followed by the new highlight, and loading the book again
    shows that list. *)
Theorem onSelected_stored `{Platform} `{Rendition} (r : Reader.t)
        (cfiRange selection : string) (now : Z) (m : BookMetadata) :
  let ls := Reader.localStorage r in
  let h := Housekeeping.selectedHighlight r cfiRange selection now in
  let saved := BookMetadataManager.savedMap (storedMetadata ls)
                 (BookMetadata.set_highlights m (BookMetadata.highlights m ++ [h])) now in
  let r' := Reader.onSelected cfiRange selection now r in
  trim selection <> "" ->
  fst (BookMetadataManager.getMetadata (Reader.book_id r) ls) = Ok (Some m) ->
  BookMetadata.bookId m = Reader.book_id r ->
  Reader.highlights r = BookMetadata.highlights m ->
  quotaAllows (<[BookMetadataManager.METADATA_KEY := stringifyMetadata saved]> ls) = true ->
  metadata_reads_back saved ->
  Reader.highlights r' = Reader.highlights r ++ [h]
  /\ Reader.highlightsRef r' = Reader.highlights r ++ [h]
  /\ (exists m',
         fst (BookMetadataManager.getMetadata (Reader.book_id r) (Reader.localStorage r'))
         = Ok (Some m')
         /\ BookMetadata.highlights m' = Reader.highlights r ++ [h])
  /\ forall title author created saved',
       Reader.highlights (Housekeeping.loadBookData title author created saved' r')
       = Reader.highlights r ++ [h].
Proof.
  intros ls h saved r' Hsel Hfound Hid Hshown Hquota Hback.
  rewrite getMetadata_eq in Hfound. cbn [fst] in Hfound. injection Hfound as Hfound.
  assert (storedMetadata (Reader.localStorage r') !! Reader.book_id r
          = Some (BookMetadata.set_updatedAt
                    (BookMetadata.set_highlights m (BookMetadata.highlights m ++ [h]))
                    (Some now))) as Hstored.
  { subst r'. rewrite onSelected_eq by done.
    cbn [Reader.localStorage Reader.set_highlights Reader.set_localStorage].
    fold ls. rewrite Hfound. cbn [fmap option_fmap option_map]. fold h.
    rewrite storedMetadata_after by done. rewrite <-Hid.
    apply (savedMap_lookup _ (BookMetadata.set_highlights m (BookMetadata.highlights m ++ [h]))). }
  assert (Reader.highlights r' = Reader.highlights r ++ [h]) as Hr'.
  { subst r'. by rewrite onSelected_eq. }
  split; [done|]. split; [subst r'; by rewrite onSelected_eq|]. split.
  - eexists. rewrite getMetadata_eq. cbn [fst]. rewrite Hstored. split; [done|].
    simpl. by rewrite Hshown.
  - intros title author created saved'. rewrite loadBookData_eq.
    assert (Reader.book_id r' = Reader.book_id r) as ->
      by (subst r'; by rewrite onSelected_eq).
    rewrite Hstored. simpl. by rewrite Hshown.
Qed.

(** X20. A highlight that the storage refuses is shown and then lost.
    When the storage refuses the write, the [selected] handler still shows
    the new highlight, raises nothing and leaves [localStorage] as it was;
    loading the book again shows the old list, without the highlight. *)
Theorem onSelected_refused `{Platform} `{Rendition} (r : Reader.t)
        (cfiRange selection : string) (now : Z) (m : BookMetadata) :
  let ls := Reader.localStorage r in
  let h := Housekeeping.selectedHighlight r cfiRange selection now in
  let saved := BookMetadataManager.savedMap (storedMetadata ls)
                 (BookMetadata.set_highlights m (BookMetadata.highlights m ++ [h])) now in
  let r' := Reader.onSelected cfiRange selection now r in
  trim selection <> "" ->
  fst (BookMetadataManager.getMetadata (Reader.book_id r) ls) = Ok (Some m) ->
  Reader.highlights r = BookMetadata.highlights m ->
  quotaAllows (<[BookMetadataManager.METADATA_KEY := stringifyMetadata saved]> ls) = false ->
  Reader.highlights r' = Reader.highlights r ++ [h]
  /\ Reader.localStorage r' = ls
  /\ forall title author created saved',
       Reader.highlights (Housekeeping.loadBookData title author created saved' r')
       = Reader.highlights r.
Proof.
  intros ls h saved r' Hsel Hfound Hshown Hquota.
  rewrite getMetadata_eq in Hfound. cbn [fst] in Hfound. injection Hfound as Hfound.
  assert (Reader.localStorage r' = ls) as Hls.
  { subst r'. rewrite onSelected_eq by done.
    cbn [Reader.localStorage Reader.set_highlights Reader.set_localStorage].
    fold ls. rewrite Hfound. cbn [fmap option_fmap option_map]. fold h.
    unfold Housekeeping.storedAfter, written. fold saved. by rewrite Hquota. }
  split; [subst r'; by rewrite onSelected_eq|]. split; [done|].
  intros title author created saved'. rewrite loadBookData_eq, Hls.
  assert (Reader.book_id r' = Reader.book_id r) as ->
    by (subst r'; by rewrite onSelected_eq).
  fold ls. rewrite Hfound. simpl. by rewrite Hshown.
Qed.


(** ** More on the summary caches *)

Section SummaryCacheFacts.
Import Js SummaryCacheManager.
Context `{Platform}.

Local Abbreviation bySpine := (fun x y : ChunkSummary =>
  ChunkSummary.spineIndex x <= ChunkSummary.spineIndex y).

Lemma insertBySpine_perm x l : insertBySpine x l ≡ₚ x :: l.
Proof.
  induction l as [|y l IH]; simpl; [done|].
  destruct (_ <=? _); [done|]. rewrite IH. apply Permutation_swap.
Qed.

Lemma insertBySpine_sorted x l :
  StronglySorted bySpine l -> StronglySorted bySpine (insertBySpine x l).
Proof.
  induction 1 as [|y l Hl IH Hy]; simpl.
  - repeat constructor.
  - destruct (ChunkSummary.spineIndex x <=? ChunkSummary.spineIndex y) eqn:Hle.
    + apply Nat.leb_le in Hle. constructor; [by constructor|].
      constructor; [done|]. eapply Forall_impl; [exact Hy|]. simpl. lia.
    + apply Nat.leb_gt in Hle. constructor; [done|].
      rewrite insertBySpine_perm. constructor; [lia | done].
Qed.

Lemma sortBySpine_perm l : sortBySpine l ≡ₚ l.
Proof.
  induction l as [|x l IH]; simpl; [done|]. by rewrite insertBySpine_perm, IH.
Qed.

Lemma sortBySpine_sorted l : StronglySorted bySpine (sortBySpine l).
Proof.
  induction l as [|x l IH]; simpl; [constructor|]. by apply insertBySpine_sorted.
Qed.

Lemma getCachedSummariesUpTo_eq bookId maxSpineIndex now ls :
  getCachedSummariesUpTo bookId maxSpineIndex now ls
  = (Ok (match fst (storedCache bookId now ls) with
         | Some c =>
             sortBySpine
               (filter (fun x => ChunkSummary.spineIndex x <= maxSpineIndex)
                       (map snd (BookSummaryCache.chunkSummaries c)))
         | None => []
         end),
     snd (storedCache bookId now ls)).
Proof.
  unfold getCachedSummariesUpTo, bind. rewrite loadSummaryCache_eq.
  by destruct (fst (storedCache bookId now ls)).
Qed.

Lemma map_get_set_ne key key' value m :
  key' <> key -> map_get key' (map_set key value m) = map_get key' m.
Proof.
  intros Hne. induction m as [|[k v] m IH]; simpl.
  - by rewrite decide_False.
  - destruct (decide (k = key)) as [->|Hk]; simpl.
    + by rewrite !decide_False by done.
    + destruct (decide (k = key')); [done | apply IH].
Qed.

Lemma getCacheKey_prefixed bookId : startsWith CACHE_KEY_PREFIX (getCacheKey bookId) = true.
Proof. apply prefix_app. Qed.

Lemma sweptStorage_lookup now ls key :
  sweptStorage now ls !! key
  = match ls !! key with
    | Some v => if swept now key v then None else Some v
    | None => None
    end.
Proof.
  unfold sweptStorage. destruct (ls !! key) as [v|] eqn:Hv.
  - destruct (swept now key v) eqn:Hs.
    + apply map_lookup_filter_None. right. intros v' Hv'. simpl.
      rewrite Hv in Hv'. inversion Hv'; subst v'. by rewrite Hs.
    + by apply map_lookup_filter_Some.
  - apply map_lookup_filter_None. by left.
Qed.

Lemma storedCache_swept bookId now ls :
  fst (storedCache bookId now (sweptStorage now ls)) = fst (storedCache bookId now ls).
Proof.
  unfold storedCache. rewrite sweptStorage_lookup.
  destruct (ls !! getCacheKey bookId) as [v|] eqn:Hv; [|done].
  unfold swept. rewrite getCacheKey_prefixed. cbn [andb].
  destruct (truthy (Some v)) as [text|] eqn:Htext.
  - destruct (parseCache text) as [parsed|] eqn:Hparse.
    + destruct (tooOld now (parsed_lastUpdated parsed)) eqn:Hold; [done|].
      rewrite Htext, Hparse, Hold. by destruct (parsed_chunkSummaries parsed).
    + done.
  - by rewrite Htext.
Qed.
End SummaryCacheFacts.

(** X23. The summaries read up to a spine index come in reading order and
    are the cached ones: the list is sorted by spine index, holds no
    summary beyond the given index, and holds exactly the summaries of the
    book's cache up to that index, each as often as the cache holds it;
    without a readable cache it is empty. The look-up never throws. *)
Theorem getCachedSummariesUpTo_sorted `{Platform} (bookId : string)
        (maxSpineIndex : nat) (now : Z) (ls : gmap string string) :
  exists l,
    fst (SummaryCacheManager.getCachedSummariesUpTo bookId maxSpineIndex now ls) = Ok l
    /\ StronglySorted (fun x y => ChunkSummary.spineIndex x <= ChunkSummary.spineIndex y) l
    /\ Forall (fun x => ChunkSummary.spineIndex x <= maxSpineIndex) l
    /\ (forall c,
          fst (SummaryCacheManager.loadSummaryCache bookId now ls) = Ok (Some c) ->
          l ≡ₚ filter (fun x => ChunkSummary.spineIndex x <= maxSpineIndex)
                      (map snd (BookSummaryCache.chunkSummaries c)))
    /\ (fst (SummaryCacheManager.loadSummaryCache bookId now ls) = Ok None -> l = []).
Proof.
  rewrite getCachedSummariesUpTo_eq, loadSummaryCache_eq. cbn [fst].
  destruct (fst (storedCache bookId now ls)) as [c|].
  - eexists. split; [done|]. split; [apply sortBySpine_sorted|]. split; [|split].
    + rewrite sortBySpine_perm. apply Forall_forall.
      by intros x [? _]%list_elem_of_filter.
    + intros c' [= <-]. apply sortBySpine_perm.
    + done.
  - exists []. split; [done|]. split; [constructor|]. split; [done|]. by split.
Qed.

(** X24. Caching one summary leaves the others readable. After
    [cacheSummary] has stored a summary - the storage taking the write,
    the text reading back - a look-up of any other chunk id, made while
    the cache is at most 30 days old, gives what it gave before. *)
Theorem cacheSummary_keeps_others `{Platform} (ls : gmap string string)
        (bookId other : string) (chunkSummary : ChunkSummary) (t1 t2 : Z) :
  let key := SummaryCacheManager.getCacheKey bookId in
  let c := cacheToSave bookId chunkSummary t1 ls in
  let ls1 := snd (SummaryCacheManager.cacheSummary bookId chunkSummary t1 ls) in
  BookSummaryCache.bookId c = bookId ->
  quotaAllows (<[key := stringifyCache c]> (snd (storedCache bookId t1 ls))) = true ->
  reads_back c ->
  (t2 - t1 <= SummaryCacheManager.MAX_CACHE_AGE_DAYS * SummaryCacheManager.msPerDay)%Z ->
  other <> ChunkSummary.chunkId chunkSummary ->
  fst (SummaryCacheManager.getCachedSummary bookId other t2 ls1)
  = fst (SummaryCacheManager.getCachedSummary bookId other t1 ls).
Proof.
  intros key c ls1 Hid Hquota [Hne Hparse] Hage Hother.
  assert (ls1 = <[key := stringifyCache c]> (snd (storedCache bookId t1 ls))) as Hls1.
  { subst ls1. rewrite cacheSummary_eq, saveSummaryCache_eq. fold c.
    rewrite Hid. fold key. by rewrite Hquota. }
  rewrite !getCachedSummary_eq. cbn [fst]. unfold storedCache at 1. fold key.
  rewrite Hls1, lookup_insert_eq, truthy_nonempty, Hparse by done.
  cbn [parsed_lastUpdated parsed_chunkSummaries parsed_bookId].
  replace (SummaryCacheManager.tooOld t2 (BookSummaryCache.lastUpdated c)) with false
    by (symmetry; apply Z.ltb_ge; lia).
  cbn [fst mbind option_bind BookSummaryCache.chunkSummaries].
  rewrite rebuilt_fixed by apply cacheToSave_NoDup.
  unfold c, cacheToSave. cbn [BookSummaryCache.chunkSummaries].
  rewrite map_get_set_ne by done.
  by destruct (fst (storedCache bookId t1 ls)).
Qed.

(** X25. The sweep of old caches cannot be seen by a look-up. It never
    throws; it leaves every item whose key does not start with the cache
    prefix, the metadata item among them; running it twice is running it
    once; and for every book a look-up made at the time of the sweep gives
    the same before and after. *)
Theorem cleanupOldCaches_invisible `{Platform} (now : Z) (ls : gmap string string)
        (bookId chunkId : string) :
  let ls' := snd (SummaryCacheManager.cleanupOldCaches now ls) in
  fst (SummaryCacheManager.cleanupOldCaches now ls) = Ok tt
  /\ SummaryCacheManager.cleanupOldCaches now ls' = (Ok tt, ls')
  /\ (forall key, startsWith SummaryCacheManager.CACHE_KEY_PREFIX key = false ->
                  ls' !! key = ls !! key)
  /\ ls' !! BookMetadataManager.METADATA_KEY = ls !! BookMetadataManager.METADATA_KEY
  /\ fst (SummaryCacheManager.loadSummaryCache bookId now ls')
     = fst (SummaryCacheManager.loadSummaryCache bookId now ls)
  /\ fst (SummaryCacheManager.getCachedSummary bookId chunkId now ls')
     = fst (SummaryCacheManager.getCachedSummary bookId chunkId now ls).
Proof.
  intros ls'. subst ls'. rewrite !cleanupOldCaches_eq. cbn [fst snd].
  assert (forall key, startsWith SummaryCacheManager.CACHE_KEY_PREFIX key = false ->
                      sweptStorage now ls !! key = ls !! key) as Hframe.
  { intros key Hkey. rewrite sweptStorage_lookup.
    destruct (ls !! key) as [v|]; [|done].
    unfold SummaryCacheManager.swept. by rewrite Hkey. }
  split; [done|]. split; [|split; [done|split; [by apply Hframe|split]]].
  - f_equal. apply map_eq. intros key. rewrite !sweptStorage_lookup.
    destruct (ls !! key) as [v|]; [|done].
    destruct (SummaryCacheManager.swept now key v) eqn:Hs; [done | by rewrite Hs].
  - rewrite !loadSummaryCache_eq. cbn [fst]. f_equal. apply storedCache_swept.
  - rewrite !getCachedSummary_eq. cbn [fst]. by rewrite storedCache_swept.
Qed.

(** X26. Caching onto an expired cache starts afresh. When the stored
    cache of the book was last written more than 30 days ago, caching a
    summary - the storage taking the write, the text reading back - leaves
    a cache that holds this summary and nothing else: the old entries are
    dropped, not renewed. *)
Theorem cacheSummary_after_expiry `{Platform} (ls : gmap string string)
        (bookId chunkId : string) (chunkSummary : ChunkSummary) (t0 t1 t2 : Z)
        (text : string) (parsed : ParsedCache) :
  let key := SummaryCacheManager.getCacheKey bookId in
  let limit := (SummaryCacheManager.MAX_CACHE_AGE_DAYS * SummaryCacheManager.msPerDay)%Z in
  let c := {| BookSummaryCache.bookId := bookId;
              BookSummaryCache.chunkSummaries :=
                [(ChunkSummary.chunkId chunkSummary, chunkSummary)];
              BookSummaryCache.lastUpdated := Some t1 |} in
  let ls1 := snd (SummaryCacheManager.cacheSummary bookId chunkSummary t1 ls) in
  Js.truthy (ls !! key) = Some text ->
  parseCache text = Ok parsed ->
  parsed_lastUpdated parsed = Some t0 ->
  (limit < t1 - t0)%Z ->
  quotaAllows (<[key := stringifyCache c]> (delete key ls)) = true ->
  reads_back c ->
  (t2 - t1 <= limit)%Z ->
  fst (SummaryCacheManager.loadSummaryCache bookId t2 ls1) = Ok (Some c)
  /\ fst (SummaryCacheManager.getCachedSummary bookId chunkId t2 ls1)
     = Ok (if decide (ChunkSummary.chunkId chunkSummary = chunkId)
           then Some chunkSummary else None).
Proof.
  intros key limit c ls1 Htext Hparsed Hupdated Hexpired Hquota [Hne Hparse] Hage.
  assert (storedCache bookId t1 ls = (None, delete key ls)) as Hold.
  { unfold storedCache. fold key. rewrite Htext, Hparsed, Hupdated. simpl.
    by replace (_ <? _)%Z with true by (symmetry; apply Z.ltb_lt; exact Hexpired). }
  assert (cacheToSave bookId chunkSummary t1 ls = c) as Hc.
  { unfold cacheToSave. by rewrite Hold. }
  assert (ls1 = <[key := stringifyCache c]> (delete key ls)) as Hls1.
  { subst ls1. rewrite cacheSummary_eq, saveSummaryCache_eq, Hc, Hold.
    cbn [snd]. change (BookSummaryCache.bookId c) with bookId. fold key.
    by rewrite Hquota. }
  assert (storedCache bookId t2 ls1 = (Some c, ls1)) as Hnew.
  { unfold storedCache. fold key.
    rewrite Hls1 at 1. rewrite lookup_insert_eq, truthy_nonempty, Hparse by done.
    cbn [parsed_lastUpdated parsed_chunkSummaries parsed_bookId].
    replace (SummaryCacheManager.tooOld t2 (BookSummaryCache.lastUpdated c)) with false
      by (symmetry; apply Z.ltb_ge; unfold limit in Hage; simpl; lia).
    rewrite rebuilt_fixed; [by destruct c|]. simpl. apply NoDup_singleton. }
  split.
  - by rewrite loadSummaryCache_eq, Hnew.
  - rewrite getCachedSummary_eq, Hnew. cbn [fst mbind option_bind]. f_equal.
Qed.

(** ** What a restoring pass covers *)

Section RestoredPage.
Import Annotations.
Context `{Rendition}.

Lemma restore_fold_lookup page : forall A k a,
  fold_left Reader.restoreOne page A !! k = Some a ->
  A !! k = Some a
  \/ exists h, h ∈ page /\ k = annotationKey "highlight" (Highlight.cfi h)
               /\ type a = "highlight" /\ cfiRange a = Highlight.cfi h.
Proof.
  induction page as [|h page IH]; intros A k a Hk; [by left|].
  simpl in Hk. destruct (IH _ _ _ Hk) as [Hone|(h' & Hin & Hkey & Hty & Hran)].
  - apply restoreOne_lookup in Hone as [Hold|(Hkey & -> & _)]; [by left|].
    right. exists h. split; [apply list_elem_of_here | done].
  - right. exists h'. split; [by apply list_elem_of_further | done].
Qed.
End RestoredPage.

(** X27. What a restoring pass covers. With the renderer mounted, the
    pass run at a location leaves every highlight of the component that
    lies in the chapter shown with an overlay - one that carries its id,
    or a highlight on its range - unless the renderer does not take its
    range; every overlay it leaves was there before or is a highlight on
    the range of one of those highlights, filed under the key of that
    range; and it changes neither the highlights nor [localStorage]. *)
Theorem restore_covers_page `{Rendition} `{!RenditionLaws} (r : Reader.t)
        (startCfi : string) (A : gmap string Annotation) :
  Reader.annotations r = Some A ->
  keyed A ->
  let r' := Reader.restoreHighlightsOnCurrentPage (Some startCfi) r in
  exists A',
    Reader.annotations r' = Some A'
    /\ (forall h, h ∈ Reader.highlightsRef r ->
                  Reader.chapterOf (Highlight.cfi h) = Reader.chapterOf startCfi ->
                  Annotations.taggedWith (Highlight.id h) A'
                  \/ Annotations.highlightAt (Highlight.cfi h) A'
                  \/ Annotations.acceptsRange (Highlight.cfi h) = false)
    /\ (forall k a, A' !! k = Some a ->
          A !! k = Some a
          \/ exists h, h ∈ Reader.highlightsRef r
                       /\ Reader.chapterOf (Highlight.cfi h) = Reader.chapterOf startCfi
                       /\ k = Annotations.annotationKey "highlight" (Highlight.cfi h)
                       /\ Annotations.type a = "highlight"
                       /\ Annotations.cfiRange a = Highlight.cfi h)
    /\ Reader.highlights r' = Reader.highlights r
    /\ Reader.highlightsRef r' = Reader.highlightsRef r
    /\ Reader.localStorage r' = Reader.localStorage r.
Proof.
  intros HA Hkeyed r'. subst r'. unfold Reader.restoreHighlightsOnCurrentPage.
  rewrite HA.
  assert (forall h, h ∈ Reader.currentPageHighlights startCfi (Reader.highlightsRef r) <->
                    h ∈ Reader.highlightsRef r
                    /\ Reader.chapterOf (Highlight.cfi h) = Reader.chapterOf startCfi)
    as Hpage.
  { intros h. unfold Reader.currentPageHighlights. rewrite list_elem_of_filter. tauto. }
  destruct (Reader.highlightsRef r) as [|h0 hs] eqn:Href.
  { exists A. split; [done|]. split; [by intros h ?%elem_of_nil|]. split; [by left | done]. }
  rewrite <-Href in *.
  destruct (Reader.currentPageHighlights startCfi (Reader.highlightsRef r))
    as [|p page] eqn:Hcur.
  { rewrite Href. exists A. split; [done|]. split.
    - intros h Hin Hch. rewrite <-Href in Hin.
      assert (h ∈ @nil Highlight) as Hnil by (apply Hpage; done).
      by apply elem_of_nil in Hnil.
    - split; [by left | done]. }
  rewrite Href. rewrite <-Href.
  destruct (restore_fold_inv (p :: page) (Annotations.withoutSearchKeys A))
    as (_ & _ & _ & Hall);
    [by apply withoutSearchKeys_keyed | apply withoutSearchKeys_no_search |].
  eexists. split; [reflexivity|]. split; [|split; [|done]].
  - intros h Hin Hch.
    exact (proj1 (Forall_forall _ _) Hall h (proj2 (Hpage h) (conj Hin Hch))).
  - intros k a Hk. apply restore_fold_lookup in Hk as [Hold|(h & Hin & Hrest)].
    + left. by apply withoutSearchKeys_lookup in Hold as [? _].
    + right. exists h. apply Hpage in Hin as [Hin Hch]. done.
Qed.

(** ** Nothing of a section is lost *)

Section Coverage.
Variables (chunkSize overlap : nat) (hrf : string) (spine : nat).
Implicit Types (s t p : string).

Lemma within_refl s : within s s.
Proof. exists "", "". by rewrite app_empty_r. Qed.

Lemma within_app_l s t r : within s t -> within s (r +:+ t).
Proof. intros (a & b & ->). exists (r +:+ a), b. by rewrite app_assoc_str. Qed.

Lemma within_app_r s t r : within s t -> within s (t +:+ r).
Proof.
  intros (a & b & ->). exists a, (b +:+ r). by rewrite !app_assoc_str.
Qed.

Lemma within_includes s t : within s t -> includes s t = true.
Proof.
  intros (a & b & ->). induction a as [|c a IH].
  - change ("" +:+ s +:+ b) with (s +:+ b).
    destruct (s +:+ b) as [|c r] eqn:Heq.
    + destruct s; [done | by rewrite app_cons in Heq].
    + rewrite includes_cons, <-Heq, prefix_app. done.
  - rewrite app_cons, includes_cons, IH. apply orb_true_r.
Qed.

Lemma trimStart_within s : within (trimStart s) s.
Proof.
  induction s as [|c s IH]; [apply within_refl|]. simpl.
  destruct (is_ws c); [|apply within_refl].
  by apply (within_app_l _ _ (String c "")) in IH.
Qed.

Lemma trimEnd_prefix s : is_prefix (trimEnd s) s.
Proof.
  induction s as [|c s IH]; [by exists ""|]. simpl.
  destruct IH as [r Hr]. destruct (trimEnd s) as [|d q].
  - destruct (is_ws c); [by exists (String c s) | by exists s].
  - exists r. by rewrite Hr at 1.
Qed.

Lemma trim_within s : within (trim s) s.
Proof.
  unfold trim. destruct (trimEnd_prefix (trimStart s)) as [r Hr].
  destruct (trimStart_within s) as (a & b & Hs).
  exists a, (r +:+ b). rewrite Hs at 1. rewrite Hr at 1. by rewrite !app_assoc_str.
Qed.

Lemma trimStart_trim s : trimStart (trim s) = trim s.
Proof.
  unfold trim.
  assert (trimStart s = "" \/ exists c r, trimStart s = String c r /\ is_ws c = false)
    as [->|(c & r & -> & Hc)].
  { induction s as [|c s IH]; [by left|]. simpl.
    destruct (is_ws c) eqn:Hc; [done|]. right. eauto. }
  - done.
  - destruct (trimEnd_head c r Hc) as [r' ->]. by apply trimStart_fixed.
Qed.

(** A trimmed text that lies within a text lies within the trimmed
    text. *)
Lemma trimStart_keeps s t :
  s <> "" -> trimStart s = s -> within s t -> within s (trimStart t).
Proof.
  intros Hne Hs (a & b & ->). induction a as [|c a IH].
  - change ("" +:+ s +:+ b) with (s +:+ b). destruct s as [|d s]; [done|].
    rewrite app_cons. simpl in Hs. simpl.
    destruct (is_ws d) eqn:Hd.
    + exfalso. pose proof (length_trimStart s) as Hlen.
      apply (f_equal String.length) in Hs. simpl in Hs. lia.
    + rewrite <-app_cons. exists "", b. done.
  - rewrite app_cons. simpl. destruct (is_ws c); [done|].
    exists (String c a), b. by rewrite app_cons.
Qed.

Lemma trimEnd_keeps s t :
  s <> "" -> trimEnd s = s -> within s t -> within s (trimEnd t).
Proof.
  intros Hne Hs (a & b & ->). induction a as [|c a IH].
  - change ("" +:+ s +:+ b) with (s +:+ b).
    destruct (trimEnd_app_prefix s b) as [r Hr]. rewrite Hs in Hr.
    rewrite Hr. exists "", r. done.
  - rewrite app_cons. simpl. destruct IH as (a' & b' & Heq). rewrite Heq.
    destruct (a' +:+ s +:+ b') as [|d q] eqn:Hq.
    + exfalso. destruct a'; [|by rewrite app_cons in Hq].
      destruct s; [done | by rewrite app_cons in Hq].
    + rewrite <-Hq. exists (String c a'), b'. by rewrite app_cons.
Qed.

Lemma trim_keeps p t : blank p = false -> within p t -> within (trim p) (trim t).
Proof.
  intros Hp Hin.
  assert (within (trim p) t) as Hin'.
  { destruct (trim_within p) as (a & b & Hab). destruct Hin as (a' & b' & ->).
    exists (a' +:+ a), (b +:+ b'). rewrite Hab at 1. by rewrite !app_assoc_str. }
  unfold trim at 2. apply trimEnd_keeps.
  - by apply trim_not_blank.
  - apply trimEnd_idemp.
  - apply trimStart_keeps; [by apply trim_not_blank | apply trimStart_trim | done].
Qed.

Lemma covered_step st p q :
  blank q = false -> covered st q ->
  covered (step chunkSize overlap hrf spine st p) q.
Proof.
  intros Hq [(c & Hc & Hin)|Hin]; unfold step, covered;
    destruct ((chunkSize <? _) && (0 <? _)); simpl.
  - left. exists c. split; [|done]. apply elem_of_app. by left.
  - left. by exists c.
  - left. exists (makeChunk hrf spine st). split.
    + apply elem_of_app. right. apply list_elem_of_here.
    + simpl. by apply trim_keeps.
  - right. by apply within_app_r.
Qed.

Lemma covered_new st p : covered (step chunkSize overlap hrf spine st p) p.
Proof.
  right. unfold step. destruct ((chunkSize <? _) && (0 <? _)); simpl.
  - apply within_app_l, within_app_l, within_refl.
  - apply within_app_l, within_app_l, within_refl.
Qed.

Lemma covered_fold ps : forall st q,
  Forall (fun p => blank p = false) ps ->
  blank q = false ->
  covered st q \/ q ∈ ps ->
  covered (fold_left (step chunkSize overlap hrf spine) ps st) q.
Proof.
  induction ps as [|p ps IH]; intros st q Hps Hq Hcov.
  - destruct Hcov as [?|Hin]; [done | by apply elem_of_nil in Hin].
  - apply Forall_cons in Hps as [Hp Hps]. simpl. apply IH; [done..|].
    destruct Hcov as [Hcov|[->|Hin]%elem_of_cons].
    + left. by apply covered_step.
    + left. apply covered_new.
    + by right.
Qed.

Lemma covered_flush st q :
  blank q = false -> covered st q ->
  exists c, c ∈ flush hrf spine st /\ within (trim q) (TextChunk.text c).
Proof.
  intros Hq [(c & Hc & Hin)|Hin]; unfold flush.
  - exists c. split; [|done]. destruct (0 <? _); [|done]. apply elem_of_app. by left.
  - pose proof (trim_keeps _ _ Hq Hin) as Hkeep.
    destruct (0 <? String.length (trim (currentChunk st))) eqn:Hlen.
    + exists (makeChunk hrf spine st). split; [|done].
      apply elem_of_app. right. apply list_elem_of_here.
    + exfalso. apply empty_length in Hlen. rewrite Hlen in Hkeep.
      destruct Hkeep as (a & b & Hab). pose proof (trim_not_blank _ Hq) as Hne.
      destruct a; [|by rewrite app_cons in Hab].
      destruct (trim q); [done | by rewrite app_cons in Hab].
Qed.

Lemma createChunksWith_covers t p :
  p ∈ paragraphsOf t ->
  exists c, c ∈ createChunksWith chunkSize overlap hrf spine t
            /\ within (trim p) (TextChunk.text c).
Proof.
  intros Hp. pose proof (paragraphsOf_inked t) as Hps.
  pose proof (proj1 (Forall_forall _ _) Hps p Hp) as Hink.
  apply covered_flush; [done|]. apply covered_fold; [done..|]. by right.
Qed.
End Coverage.

(** X28. No paragraph is lost. Every paragraph of the section text that
    is not blank is held, trimmed, by the text of one of the chunks. *)
Theorem createChunksForSection_covers (textContent hrf : string) (spine : nat)
        (paragraph : string) :
  paragraph ∈ paragraphsOf textContent ->
  exists chunk,
    chunk ∈ createChunksForSection textContent hrf spine
    /\ includes (trim paragraph) (TextChunk.text chunk) = true.
Proof.
  intros Hp.
  destruct (createChunksWith_covers 500 50 hrf spine textContent paragraph Hp)
    as (c & Hc & Hin).
  exists c. split; [done | by apply within_includes].
Qed.

(** ** How many chunks, and where the last one ends *)

Section ChunkCount.
Variables (chunkSize overlap : nat) (hrf : string) (spine : nat).

Lemma count_step st p n :
  blank p = false ->
  length (chunks st) + (if 0 <? String.length (currentChunk st) then 1 else 0) <= n ->
  length (chunks (step chunkSize overlap hrf spine st p)) + 1 <= S n
  /\ (0 <? String.length (currentChunk (step chunkSize overlap hrf spine st p))) = true.
Proof.
  intros Hp Hn. pose proof (not_blank_nonempty p Hp) as Hne.
  assert (0 < String.length p) as Hlen by (destruct p; [done | simpl; lia]).
  unfold step. destruct (chunkSize <? _); simpl.
  - destruct (0 <? String.length (currentChunk st)) eqn:Hcur; simpl.
    + rewrite length_app, !length_app_str. simpl. split; [lia | apply Nat.ltb_lt; lia].
    + rewrite !length_app_str. split; [lia | apply Nat.ltb_lt; lia].
  - rewrite !length_app_str. split; [|apply Nat.ltb_lt; lia].
    destruct (0 <? String.length (currentChunk st)); lia.
Qed.

Lemma count_fold ps : forall st n,
  Forall (fun p => blank p = false) ps ->
  length (chunks st) + (if 0 <? String.length (currentChunk st) then 1 else 0) <= n ->
  length (chunks (fold_left (step chunkSize overlap hrf spine) ps st))
  + (if 0 <? String.length (currentChunk (fold_left (step chunkSize overlap hrf spine) ps st))
     then 1 else 0)
  <= n + length ps.
Proof.
  induction ps as [|p ps IH]; intros st n Hps Hn; [simpl; lia|].
  apply Forall_cons in Hps as [Hp Hps]. simpl.
  destruct (count_step st p n Hp Hn) as [Hcount Hcur].
  replace (n + S (length ps)) with (S n + length ps) by lia.
  apply IH; [done|]. by rewrite Hcur.
Qed.

Lemma offset_step st p :
  currentOffset (step chunkSize overlap hrf spine st p)
  = (currentOffset st + len p + 1)%Z.
Proof. unfold step. by destruct ((chunkSize <? _) && (0 <? _)). Qed.

Lemma offset_fold ps : forall st,
  currentOffset (fold_left (step chunkSize overlap hrf spine) ps st)
  = (currentOffset st + offsetAfter ps)%Z.
Proof.
  induction ps as [|p ps IH]; intros st; simpl; [lia|].
  rewrite IH, offset_step. lia.
Qed.

Lemma createChunksWith_count t :
  length (createChunksWith chunkSize overlap hrf spine t) <= length (paragraphsOf t).
Proof.
  unfold createChunksWith.
  pose proof (count_fold (paragraphsOf t) initial 0 (paragraphsOf_inked t)) as Hcount.
  simpl in Hcount. specialize (Hcount ltac:(lia)).
  unfold flush.
  set (st := fold_left (step chunkSize overlap hrf spine) (paragraphsOf t) initial) in *.
  destruct (0 <? String.length (trim (currentChunk st))) eqn:Htrim; [|lia].
  rewrite length_app. simpl.
  assert ((0 <? String.length (currentChunk st)) = true) as Hcur.
  { apply Nat.ltb_lt. apply Nat.ltb_lt in Htrim.
    pose proof (length_trim (currentChunk st)). lia. }
  rewrite Hcur in Hcount. lia.
Qed.

Lemma createChunksWith_last_end t c :
  last (createChunksWith chunkSize overlap hrf spine t) = Some c ->
  paragraphsOf t <> [] ->
  TextChunk.endOffset c = offsetAfter (paragraphsOf t).
Proof.
  unfold createChunksWith. intros Hlast Hne.
  pose proof (offset_fold (paragraphsOf t) initial) as Hoff. 
  pose proof (fold_step_inv chunkSize overlap hrf spine
    (fun st => currentChunk st = "" \/ blank (currentChunk st) = false)
    (fun p => blank p = false) (paragraphsOf t) initial) as Hink.
  set (st := fold_left (step chunkSize overlap hrf spine) (paragraphsOf t) initial) in *.
  assert (blank (currentChunk st) = false) as Hcur.
  { subst st. destruct (paragraphsOf t) as [|p ps] eqn:Hps; [done|].
    pose proof (paragraphsOf_inked t) as Hall. rewrite Hps in Hall.
    clear Hlast Hoff Hink Hne Hps.
    revert Hall. generalize initial. generalize p. clear p.
    induction ps as [|q ps IH]; intros p st0 Hall.
    - apply Forall_cons in Hall as [Hp _]. simpl. unfold step.
      destruct ((chunkSize <? _) && (0 <? _)); simpl;
        by rewrite !blank_app, Hp, !andb_false_r.
    - apply Forall_cons in Hall as [_ Hall]. simpl. apply (IH q _ Hall). }
  unfold flush in Hlast.
  pose proof (trim_not_blank _ Hcur) as Htrim.
  destruct (0 <? String.length (trim (currentChunk st))) eqn:Hlen.
  - rewrite last_snoc in Hlast. inversion Hlast; subst c. simpl.
    rewrite Hoff. simpl. lia.
  - apply empty_length in Hlen. done.
Qed.
End ChunkCount.

(** X29. A section gives at most as many chunks as it has paragraphs
    that are not blank, and the last chunk ends at the sum, over those
    paragraphs, of the length of the paragraph plus one: the offsets count
    the paragraphs as joined by one code unit, whatever separated them in
    the section text. *)
Theorem createChunksForSection_count (textContent hrf : string) (spine : nat) :
  length (createChunksForSection textContent hrf spine)
  <= length (paragraphsOf textContent)
  /\ forall chunk,
       last (createChunksForSection textContent hrf spine) = Some chunk ->
       TextChunk.endOffset chunk = offsetAfter (paragraphsOf textContent).
Proof.
  split; [apply createChunksWith_count|].
  intros chunk Hlast. apply (createChunksWith_last_end 500 50 hrf spine); [done|].
  intros Hnil. unfold createChunksForSection, createChunksWith in Hlast.
  by rewrite Hnil in Hlast.
Qed.

(** X30. Clearing the summary cache of a book never throws and removes
    the item of that book only; afterwards nothing is cached for the
    book: no cache is loaded, no chunk has a summary or counts as
    summarised, and the summaries up to any spine index are none. *)
Theorem clearSummaryCache_forgets `{Platform} (bookId chunkId : string)
        (maxSpineIndex : nat) (now : Z) (ls : gmap string string) :
  let ls' := snd (SummaryCacheManager.clearSummaryCache bookId ls) in
  fst (SummaryCacheManager.clearSummaryCache bookId ls) = Ok tt
  /\ ls' = delete (SummaryCacheManager.getCacheKey bookId) ls
  /\ SummaryCacheManager.loadSummaryCache bookId now ls' = (Ok None, ls')
  /\ SummaryCacheManager.getCachedSummary bookId chunkId now ls' = (Ok None, ls')
  /\ SummaryCacheManager.isChunkSummarized bookId chunkId now ls' = (Ok false, ls')
  /\ SummaryCacheManager.getCachedSummariesUpTo bookId maxSpineIndex now ls' = (Ok [], ls').
Proof.
  intros ls'. subst ls'. 
  assert (SummaryCacheManager.clearSummaryCache bookId ls
          = (Ok tt, delete (SummaryCacheManager.getCacheKey bookId) ls)) as -> by done.
  cbn [fst snd]. split; [done|]. split; [done|].
  assert (storedCache bookId now (delete (SummaryCacheManager.getCacheKey bookId) ls)
          = (None, delete (SummaryCacheManager.getCacheKey bookId) ls)) as Hnone.
  { unfold storedCache. by rewrite lookup_delete_eq. }
  split; [by rewrite loadSummaryCache_eq, Hnone|].
  split; [by rewrite getCachedSummary_eq, Hnone|].
  split.
  - unfold SummaryCacheManager.isChunkSummarized, Js.bind.
    by rewrite getCachedSummary_eq, Hnone.
  - by rewrite getCachedSummariesUpTo_eq, Hnone.
Qed.

(* ===================================================================== *)
(** * Worked instances of the further properties *)
(* ===================================================================== *)


Lemma createChunksForSection_size_witness :
  Forall (fun p => String.length p <= 450) (paragraphsOf Demo.long_section)
  /\ Forall (fun c => String.length (TextChunk.text c) <= 501)
            (createChunksForSection Demo.long_section "chapter3.xhtml" 3).
Proof.
  assert (Forall (fun p => String.length p <= 450) (paragraphsOf Demo.long_section)) as Hps.
  { let l := eval vm_compute in (paragraphsOf Demo.long_section) in
    change (paragraphsOf Demo.long_section) with l.
    repeat (apply Forall_cons; split; [apply Nat.leb_le; vm_compute; reflexivity|]).
    apply Forall_nil_2. }
  split; [exact Hps|].
  exact (createChunksForSection_size Demo.long_section "chapter3.xhtml" 3 Hps).
Defined.

Lemma createChunksForSection_blank_witness :
  blank Sample.blank_section = true
  /\ createChunksForSection Sample.blank_section "chapter3.xhtml" 3 = [].
Proof.
  split; [reflexivity|].
  apply (createChunksForSection_blank Sample.blank_section "chapter3.xhtml" 3).
  reflexivity.
Defined.

Lemma createChunksForSection_one_line_witness :
  one_line Demo.chapter1 = true
  /\ blank Demo.chapter1 = false
  /\ createChunksForSection Demo.chapter1 "chapter1.xhtml" 0
     = [ {| TextChunk.id := "chapter1.xhtml" +:+ "-chunk-0";
            TextChunk.text := trim Demo.chapter1;
            TextChunk.href := "chapter1.xhtml";
            TextChunk.spineIndex := 0;
            TextChunk.chunkIndex := 0;
            TextChunk.startOffset := 1;
            TextChunk.endOffset := (len Demo.chapter1 + 1)%Z;
            TextChunk.pageLocation := None |} ].
Proof.
  split; [reflexivity|]. split; [reflexivity|].
  apply (createChunksForSection_one_line Demo.chapter1 "chapter1.xhtml" 0); reflexivity.
Defined.

Lemma buildTextChunks_provenance_witness :
  let r := Demo.reader1 "" in
  exists c,
    c ∈ Reader.textChunks (@Reader.buildTextChunks Demo.rendition r)
    /\ exists item tc inner c0,
         Spine.spineItems Demo.book1 !! TextChunk.spineIndex c = Some item
         /\ Spine.load item = Spine.Loaded tc inner
         /\ ChunkSet.isMetadataHref (Spine.href item) = false
         /\ 200 <= String.length (trim (bodyText tc inner))
         /\ ChunkSet.isMetadataContent (bodyText tc inner) = false
         /\ c0 ∈ createChunksForSection (bodyText tc inner) (Spine.href item)
                                        (TextChunk.spineIndex c)
         /\ stem c = stem c0.
Proof.
  intros r.
  assert (exists c, Reader.textChunks (@Reader.buildTextChunks Demo.rendition r) !! 0 = Some c)
    as [c Hc] by (eexists; vm_compute; reflexivity).
  apply list_elem_of_lookup_2 in Hc.
  exists c. split; [exact Hc|].
  apply (@buildTextChunks_provenance Demo.rendition r Demo.book1 c);
    [reflexivity | reflexivity | discriminate | exact Hc].
Defined.

Lemma matchIndices_reported_witness :
  Search.matchIndices 0 0 "ishmael" Sample.twice !! 0 = Some 8
  /\ Search.ci_prefix "ishmael" (drop 8 Sample.twice) = true
  /\ 8 + String.length "ishmael" <= String.length Sample.twice
  /\ forall b, Search.matchIndices 0 0 "ishmael" Sample.twice !! 1 = Some b ->
               8 < b /\ 8 + String.length "ishmael" <= b.
Proof.
  split; [reflexivity|].
  apply (matchIndices_reported "ishmael" Sample.twice 0 8). reflexivity.
Defined.

Lemma matchIndices_exhaustive_witness :
  "ishmael" <> ""
  /\ Search.ci_prefix "ishmael" (drop 25 Sample.twice) = true
  /\ (exists j, j ∈ Search.matchIndices 0 0 "ishmael" Sample.twice
                /\ j <= 25 /\ 25 < j + String.length "ishmael")
  /\ Search.matchIndices 0 0 "ishmael" Sample.twice <> [].
Proof.
  split; [discriminate|]. split; [reflexivity|].
  apply (matchIndices_exhaustive "ishmael" Sample.twice 25); [discriminate | reflexivity].
Defined.

Lemma matchIndices_case_blind_witness :
  toLowerCase "ISHMAEL" = toLowerCase "Ishmael"
  /\ toLowerCase Sample.twice = toLowerCase "CALL ME ISHMAEL. call me ishmael."
  /\ Search.matchIndices 0 0 "ISHMAEL" Sample.twice
     = Search.matchIndices 0 0 "Ishmael" "CALL ME ISHMAEL. call me ishmael.".
Proof.
  split; [reflexivity|]. split; [reflexivity|].
  apply (matchIndices_case_blind "ISHMAEL" "Ishmael" Sample.twice
           "CALL ME ISHMAEL. call me ishmael."); reflexivity.
Defined.

Lemma searchChunks_results_witness :
  exists r,
    Search.searchChunks "ishmael" [Sample.chunk1] !! 0 = Some r
    /\ (exists chunk index,
           [Sample.chunk1] !! SearchResult.chunkIndex r = Some chunk
           /\ Search.ci_prefix "ishmael" (drop index (TextChunk.text chunk)) = true
           /\ index + String.length "ishmael" <= String.length (TextChunk.text chunk)
           /\ SearchResult.href r = TextChunk.href chunk
           /\ SearchResult.spineIndex r = TextChunk.spineIndex chunk
           /\ SearchResult.textOffset r = (TextChunk.startOffset chunk + Z.of_nat index)%Z
           /\ SearchResult.terms r = ["ishmael"]
           /\ SearchResult.cfi r
              = match TextChunk.pageLocation chunk with
                | Some (String c l) => String c l
                | _ => TextChunk.href chunk +:+ "#offset="
                       +:+ pretty (SearchResult.textOffset r)
                end)
    /\ String.length (SearchResult.excerpt r) <= String.length "ishmael" + 200
    /\ forall r', Search.searchChunks "ishmael" [Sample.chunk1] !! 1 = Some r' ->
                  SearchResult.chunkIndex r <= SearchResult.chunkIndex r'.
Proof.
  eexists. split; [vm_compute; reflexivity|].
  apply (searchChunks_results "ishmael" [Sample.chunk1] 0). vm_compute; reflexivity.
Defined.



Lemma updateHighlight_first_match_witness :
  let P := Demo.platform 1000 in
  let ls := Reader.localStorage Demo.reader3 in
  let ls' := snd (@BookMetadataManager.updateHighlight P "1700000000000"
                    "1700000000001" Demo.updates1 1700000000009 ls) in
  fst (@BookMetadataManager.getMetadata P "1700000000000" ls) = Ok (Some Demo.record3)
  /\ BookMetadataManager.findIndex "1700000000001" (BookMetadata.highlights Demo.record3)
     = Some 0
  /\ exists m',
       fst (@BookMetadataManager.getMetadata P "1700000000000" ls') = Ok (Some m')
       /\ BookMetadata.highlights m' !! 0
          = Some (Highlight.merged Demo.highlight1 Demo.updates1 1700000000009).
Proof.
  intros P ls ls'.
  assert (fst (@BookMetadataManager.getMetadata P "1700000000000" ls)
          = Ok (Some Demo.record3)) as Hfound by (vm_compute; reflexivity).
  split; [exact Hfound|]. split; [reflexivity|].
  pose proof (@updateHighlight_first_match P ls "1700000000000" "1700000000001"
                Demo.updates1 1700000000009 Demo.record3 0) as Hthm.
  cbv zeta in Hthm.
  destruct Hthm as (m' & Hm' & _ & (h & Hh & _ & Hmerged) & _).
  - exact Hfound.
  - reflexivity.
  - reflexivity.
  - vm_compute; reflexivity.
  - split; [vm_compute; discriminate | vm_compute; reflexivity].
  - exists m'. split; [exact Hm'|].
    assert (h = Demo.highlight1) as <- by (injection Hh as <-; reflexivity).
    exact Hmerged.
Defined.


Lemma onSelected_stored_witness :
  let P := Demo.platform 1000 in
  let r := Sample.reader5 in
  let h := Housekeeping.selectedHighlight r "epubcfi(/6/4!/4/2,/1:0,/1:15)"
             "Call me Ishmael" 1700000000001 in
  let r' := @Reader.onSelected P Demo.rendition "epubcfi(/6/4!/4/2,/1:0,/1:15)"
              "Call me Ishmael" 1700000000001 r in
  fst (@BookMetadataManager.getMetadata P (Reader.book_id r) (Reader.localStorage r))
  = Ok (Some Sample.record1)
  /\ Reader.highlights r' = Reader.highlights r ++ [h]
  /\ Reader.highlightsRef r' = Reader.highlights r ++ [h]
  /\ (exists m',
         fst (@BookMetadataManager.getMetadata P (Reader.book_id r) (Reader.localStorage r'))
         = Ok (Some m')
         /\ BookMetadata.highlights m' = Reader.highlights r ++ [h])
  /\ forall title author created saved',
       Reader.highlights (@Housekeeping.loadBookData P title author created saved' r')
       = Reader.highlights r ++ [h].
Proof.
  intros P r h r'.
  assert (fst (@BookMetadataManager.getMetadata P (Reader.book_id r) (Reader.localStorage r))
          = Ok (Some Sample.record1)) as Hfound by (vm_compute; reflexivity).
  split; [exact Hfound|].
  apply (@onSelected_stored P Demo.rendition r "epubcfi(/6/4!/4/2,/1:0,/1:15)"
           "Call me Ishmael" 1700000000001 Sample.record1).
  - vm_compute; discriminate.
  - exact Hfound.
  - reflexivity.
  - reflexivity.
  - vm_compute; reflexivity.
  - split; [vm_compute; discriminate | vm_compute; reflexivity].
Defined.

Lemma onSelected_refused_witness :
  let P := Demo.platform 300 in
  let r := Sample.reader5 in
  let h := Housekeeping.selectedHighlight r "epubcfi(/6/4!/4/2,/1:0,/1:15)"
             "Call me Ishmael" 1700000000001 in
  let r' := @Reader.onSelected P Demo.rendition "epubcfi(/6/4!/4/2,/1:0,/1:15)"
              "Call me Ishmael" 1700000000001 r in
  fst (@BookMetadataManager.getMetadata P (Reader.book_id r) (Reader.localStorage r))
  = Ok (Some Sample.record1)
  /\ Reader.highlights r' = Reader.highlights r ++ [h]
  /\ Reader.localStorage r' = Reader.localStorage r
  /\ forall title author created saved',
       Reader.highlights (@Housekeeping.loadBookData P title author created saved' r')
       = Reader.highlights r.
Proof.
  intros P r h r'.
  assert (fst (@BookMetadataManager.getMetadata P (Reader.book_id r) (Reader.localStorage r))
          = Ok (Some Sample.record1)) as Hfound by (vm_compute; reflexivity).
  split; [exact Hfound|].
  apply (@onSelected_refused P Demo.rendition r "epubcfi(/6/4!/4/2,/1:0,/1:15)"
           "Call me Ishmael" 1700000000001 Sample.record1).
  - vm_compute; discriminate.
  - exact Hfound.
  - reflexivity.
  - vm_compute; reflexivity.
Defined.



Lemma cacheSummary_keeps_others_witness :
  let P := Demo.platform 1000 in
  let ls1 := snd (@SummaryCacheManager.cacheSummary P "1700000000000" Demo.summary2
                    (20 * Demo.day) Sample.storage5) in
  fst (@SummaryCacheManager.getCachedSummary P "1700000000000"
         (ChunkSummary.chunkId Demo.summary1) (20 * Demo.day) Sample.storage5)
  = Ok (Some Demo.summary1)
  /\ fst (@SummaryCacheManager.getCachedSummary P "1700000000000"
            (ChunkSummary.chunkId Demo.summary1) (40 * Demo.day) ls1)
     = fst (@SummaryCacheManager.getCachedSummary P "1700000000000"
              (ChunkSummary.chunkId Demo.summary1) (20 * Demo.day) Sample.storage5).
Proof.
  intros P ls1. split; [vm_compute; reflexivity|].
  apply (@cacheSummary_keeps_others P Sample.storage5 "1700000000000"
           (ChunkSummary.chunkId Demo.summary1) Demo.summary2
           (20 * Demo.day) (40 * Demo.day)).
  - vm_compute; reflexivity.
  - vm_compute; reflexivity.
  - split; [vm_compute; discriminate | vm_compute; reflexivity].
  - vm_compute; discriminate.
  - vm_compute; discriminate.
Defined.

Lemma cacheSummary_after_expiry_witness :
  let P := Demo.platform 1000 in
  let ls1 := snd (@SummaryCacheManager.cacheSummary P "1700000000000" Demo.summary2
                    (40 * Demo.day) Sample.storage5) in
  fst (@SummaryCacheManager.getCachedSummary P "1700000000000"
         (ChunkSummary.chunkId Demo.summary1) (30 * Demo.day) Sample.storage5)
  = Ok (Some Demo.summary1)
  /\ fst (@SummaryCacheManager.loadSummaryCache P "1700000000000" (45 * Demo.day) ls1)
     = Ok (Some {| BookSummaryCache.bookId := "1700000000000";
                   BookSummaryCache.chunkSummaries :=
                     [(ChunkSummary.chunkId Demo.summary2, Demo.summary2)];
                   BookSummaryCache.lastUpdated := Some (40 * Demo.day)%Z |})
  /\ fst (@SummaryCacheManager.getCachedSummary P "1700000000000"
            (ChunkSummary.chunkId Demo.summary1) (45 * Demo.day) ls1)
     = Ok (if decide (ChunkSummary.chunkId Demo.summary2 = ChunkSummary.chunkId Demo.summary1)
           then Some Demo.summary2 else None).
Proof.
  intros P ls1. split; [vm_compute; reflexivity|].
  apply (@cacheSummary_after_expiry P Sample.storage5 "1700000000000"
           (ChunkSummary.chunkId Demo.summary1) Demo.summary2
           0 (40 * Demo.day) (45 * Demo.day) Sample.text5 Sample.parsed5).
  - vm_compute; reflexivity.
  - vm_compute; reflexivity.
  - reflexivity.
  - vm_compute; reflexivity.
  - vm_compute; reflexivity.
  - split; [vm_compute; discriminate | vm_compute; reflexivity].
  - vm_compute; discriminate.
Defined.

Lemma restore_covers_page_witness :
  Reader.annotations Demo.reader2 = Some ∅
  /\ exists A',
       Reader.annotations
         (@Reader.restoreHighlightsOnCurrentPage Demo.rendition
            (Some "epubcfi(/6/4!/4/2/1:0)") Demo.reader2) = Some A'
       /\ (forall h, h ∈ Reader.highlightsRef Demo.reader2 ->
             Reader.chapterOf (Highlight.cfi h) = Reader.chapterOf "epubcfi(/6/4!/4/2/1:0)" ->
             Annotations.taggedWith (Highlight.id h) A'
             \/ Annotations.highlightAt (Highlight.cfi h) A'
             \/ @Annotations.acceptsRange Demo.rendition (Highlight.cfi h) = false).
Proof.
  split; [reflexivity|].
  destruct (@restore_covers_page Demo.rendition demo_laws Demo.reader2
              "epubcfi(/6/4!/4/2/1:0)" ∅ eq_refl keyed_empty)
    as (A' & HA' & Hcovered & _).
  exists A'. split; [exact HA' | exact Hcovered].
Defined.

Lemma createChunksForSection_covers_witness :
  let p := Demo.repeated 100 "abc" in
  p ∈ paragraphsOf Demo.long_section
  /\ exists chunk,
       chunk ∈ createChunksForSection Demo.long_section "chapter3.xhtml" 3
       /\ includes (trim p) (TextChunk.text chunk) = true.
Proof.
  intros p.
  assert (p ∈ paragraphsOf Demo.long_section) as Hp
    by (vm_compute; apply list_elem_of_here).
  split; [exact Hp|].
  exact (createChunksForSection_covers Demo.long_section "chapter3.xhtml" 3 p Hp).
Defined.
